(** * Bakong KHQR: the TLV payload codec and the auto payment monitor

  A shallow embedding of [BakongKHQR.js] (the KHQR payload codec with its
  CRC-16 engine) and of [AutoPaymentMonitor.js] (the registry of watched
  payments and its periodic check), with the properties of the design
  document stated and proved over them. *)

From Stdlib Require Import ZArith QArith Qround Qabs String Ascii List Lia Bool.
From stdpp Require Import gmap list.
Import ListNotations.
Open Scope Z_scope.

(** * JavaScript values used by the two classes *)

Module JS.

(** A JavaScript string is a sequence of UTF-16 code units; [s.length] is
    the length of the list and [s.charCodeAt(i)] its [i]-th element. *)
Definition jsstring : Type := list Z.

(** A string literal of the source (the literals are all ASCII). *)
Definition str (s : string) : jsstring :=
  map (fun a => Z.of_N (N_of_ascii a)) (list_ascii_of_string s).

(** The character for one digit of a number: ['0'..'9'], then ['a'..'z']. *)
Definition digitChar (d : Z) : Z := if d <? 10 then 48 + d else 87 + d.

(** The digits of [n >= 0] in the given radix, most significant first.
    The fuel bounds the number of digits. *)
Fixpoint digitsFuel (fuel : nat) (radix n : Z) : jsstring :=
  match fuel with
  | O => []
  | S fuel' =>
      (if n / radix =? 0 then [] else digitsFuel fuel' radix (n / radix))
        ++ [digitChar (n mod radix)]
  end.

Definition digits (radix n : Z) : jsstring :=
  digitsFuel (S (Z.to_nat (Z.log2 n))) radix n.

(** [n.toString(radix)] for an integer [n]. *)
Definition toStringRadix (radix n : Z) : jsstring :=
  if n <? 0 then str "-" ++ digits radix (- n) else digits radix n.

(** [n.toString()] for an integer [n]. *)
Definition toString (n : Z) : jsstring := toStringRadix 10 n.

(** [s.padStart(target, fill)] for a one-character [fill]. *)
Definition padStart (target : nat) (fill : Z) (s : jsstring) : jsstring :=
  repeat fill (target - length s) ++ s.

(** [s.substring(0, n)]. *)
Definition substring0 (n : nat) (s : jsstring) : jsstring := firstn n s.

(** The case mapping of [toUpperCase] on an ASCII code unit. *)
Definition upperAscii (c : Z) : Z :=
  if (97 <=? c) && (c <=? 122) then c - 32 else c.

Definition isAscii (c : Z) : Prop := 0 <= c < 128.

(** What the engine provides and the embedding does not spell out:
    - [toUpperCase] is [String.prototype.toUpperCase]; on ASCII text it
      maps ['a'..'z'] to ['A'..'Z'], the Unicode case mappings of the
      other characters are left to the engine;
    - [numberToString] is [Number::toString] on a real number, which
      [toFixed] falls back to from [10^21] on. *)
Class Engine : Type := {
  toUpperCase : jsstring -> jsstring;
  toUpperCase_ascii :
    forall s, Forall isAscii s -> toUpperCase s = map upperAscii s;
  numberToString : Q -> jsstring
}.

(** [x.toFixed(fractionDigits)] for a finite number [x], given by its exact
    value: the integer [n] closest to [x * 10^f] (the larger one on a tie)
    is written out with a decimal point before its last [f] digits. *)
Definition toFixed `{Engine} (f : nat) (x : Q) : jsstring :=
  let s := if Qle_bool 0 x then [] else str "-" in
  let x := Qabs x in
  if Qle_bool (inject_Z (10 ^ 21)) x then s ++ numberToString x
  else
    let n := Qfloor (x * inject_Z (10 ^ Z.of_nat f) + (1 # 2)) in
    let m := if n =? 0 then str "0" else toString n in
    let m :=
      match f with
      | O => m
      | _ =>
          let k := length m in
          let m := if (k <=? f)%nat then repeat 48 (f + 1 - k) ++ m else m in
          let k := length m in
          firstn (k - f) m ++ str "." ++ skipn (k - f) m
      end in
    s ++ m.

(** The regular expression [/\.?0+$/] tried at the start of [w]: an
    optional ['.'], one or more ['0'], then the end of the input. *)
Definition zeros1 (w : jsstring) : bool :=
  match w with
  | [] => false
  | _ => forallb (Z.eqb 48) w
  end.

Definition matchDotZeros (w : jsstring) : bool :=
  match w with
  | c :: r => ((c =? 46) && zeros1 r) || zeros1 w
  | [] => false
  end.

(** [s.replace(/\.?0+$/, '')]: the leftmost position where the expression
    matches is found, and the match, which runs to the end, is removed. *)
Fixpoint replaceDotZeros (s : jsstring) : jsstring :=
  if matchDotZeros s then []
  else match s with
       | [] => []
       | c :: r => c :: replaceDotZeros r
       end.

(** A call either returns a value or throws an [Error] with a message. *)
Inductive outcome (A : Type) : Type :=
| Returned (a : A)
| Threw (message : jsstring).
Arguments Returned {A} a.
Arguments Threw {A} message.

#[export] Instance outcome_ret : MRet outcome := fun A a => Returned a.
#[export] Instance outcome_bind : MBind outcome := fun A B k c =>
  match c with
  | Returned a => k a
  | Threw e => Threw e
  end.

End JS.
Import JS.

(** The engine restricted to ASCII text, for running the definitions. *)
Definition asciiEngine : Engine :=
{| toUpperCase := map upperAscii;
   toUpperCase_ascii := fun s _ => eq_refl;
   numberToString := fun _ => str "Infinity" |}.

(** * Values that cross the HTTP boundary *)

(** What [JSON.parse] makes of a body, and what an absent property reads
    as. Numbers are finite or [NaN]; an object lists each property once. *)
Module Value.
Unset Elimination Schemes.
Inductive t : Type :=
| undefined
| null
| boolean (b : bool)
| number (x : Q)
| nan
| string (s : jsstring)
| array (items : list t)
| object (properties : list (jsstring * t)).
Set Elimination Schemes.

(** The truth value of [v] in a condition, as in [!v] and [v || d]. *)
Definition truthy (v : t) : bool :=
  match v with
  | undefined | null | nan => false
  | boolean b => b
  | number x => negb (Qeq_bool x 0)
  | string s => match s with [] => false | _ => true end
  | array _ | object _ => true
  end.

(** The property [name] of an object: [undefined] when it has none. *)
Definition field (name : jsstring) (properties : list (jsstring * t)) : t :=
  default undefined
    (snd <$> List.find (fun kv => bool_decide (fst kv = name)) properties).

(** [v.name], for a name that no prototype provides: reading a property of
    [undefined] or [null] throws a [TypeError]. *)
Definition prop (name : jsstring) (v : t) : outcome t :=
  match v with
  | undefined =>
      Threw (str "Cannot read properties of undefined (reading '" ++ name ++ str "')")
  | null =>
      Threw (str "Cannot read properties of null (reading '" ++ name ++ str "')")
  | object properties => Returned (field name properties)
  | _ => Returned undefined
  end.

(** [v === n] for a number [n], and [v === s] for a string [s]. *)
Definition isNumber (n : Q) (v : t) : bool :=
  match v with
  | number x => Qeq_bool x n
  | _ => false
  end.

Definition isString (s : jsstring) (v : t) : bool :=
  match v with
  | string s' => bool_decide (s' = s)
  | _ => false
  end.

(** Whether the conversion of [v] to a primitive value returns. A parsed
    object prints through [Object.prototype.toString] unless it has a
    property ["toString"] of its own: that property is no function, a
    property ["valueOf"] of its own is none either, and the inherited
    [valueOf] gives back the object, so the conversion throws a
    [TypeError]. An array joins the conversions of its items. *)
Fixpoint printable (v : t) : bool :=
  match v with
  | array items => forallb printable items
  | object properties =>
      negb (existsb (fun kv => bool_decide (fst kv = str "toString")) properties)
  | _ => true
  end.

(** [`${v}`] in a logged line, for its outcome: the text goes to the log. *)
Definition interpolate (v : t) : outcome unit :=
  if printable v then Returned tt
  else Threw (str "Cannot convert object to primitive value").

(** [new Date(v).toLocaleString()] in a logged line, for its outcome: the
    date is made of the primitive value of [v], and a date that is not
    valid prints as ["Invalid Date"]. *)
Definition toLocaleString (v : t) : outcome unit :=
  if printable v then Returned tt
  else Threw (str "Cannot convert object to primitive value").

End Value.

(** [v || d] for a string [v] that may be absent. *)
Definition orElse (v : option jsstring) (d : jsstring) : jsstring :=
  match v with
  | Some (c :: s) => c :: s
  | _ => d
  end.

(** [try { body } catch (error) { handler(error.message) }] around a call. *)
Definition attempt {A : Type} (body : outcome A) (handler : jsstring -> outcome A)
    : outcome A :=
  match body with
  | Returned a => Returned a
  | Threw message => handler message
  end.

(** * The HTTP client *)

Module Http.

Record Request : Type := {
  url : jsstring;
  payload : Value.t;
  headers : list (jsstring * jsstring)
}.

(** What [postRequest] reads of the error that [axios.post] rejects with:
    [error.response?.status], absent when no response came, and the text
    that [data || error.message] prints. *)
Record Failure : Type := {
  status : option Z;
  detail : jsstring
}.

(** What [axios.post] settles with: [response.data], or the error. *)
Inductive Settled : Type :=
| Resolved (data : Value.t)
| Rejected (error : Failure).

Definition Network : Type := Request -> Settled.

End Http.

(** * The EMV constants *)

Module EMV.
Definition TRANSACTION_CURRENCY_USD := str "840".
Definition TRANSACTION_CURRENCY_KHR := str "116".
Definition TRANSACTION_CURRENCY := str "53".
Definition PAYLOAD_FORMAT_INDICATOR := str "00".
Definition DEFAULT_PAYLOAD_FORMAT_INDICATOR := str "01".
Definition POINT_OF_INITIATION_METHOD := str "01".
Definition STATIC_QR := str "11".
Definition DYNAMIC_QR := str "12".
Definition MERCHANT_NAME := str "59".
Definition MERCHANT_CITY := str "60".
Definition MERCHANT_CATEGORY_CODE := str "52".
Definition DEFAULT_MERCHANT_CATEGORY_CODE := str "5999".
Definition COUNTRY_CODE := str "58".
Definition DEFAULT_COUNTRY_CODE := str "KH".
Definition MERCHANT_ACCOUNT_INFORMATION_INDIVIDUAL := str "29".
Definition TRANSACTION_AMOUNT := str "54".
Definition ADDITION_DATA_TAG := str "62".
Definition BILLNUMBER_TAG := str "01".
Definition ADDITION_DATA_FIELD_MOBILE_NUMBER := str "02".
Definition STORE_LABEL := str "03".
Definition TERMINAL_LABEL := str "07".
Definition TIMESTAMP_TAG := str "99".
Definition CRC := str "63".
Definition CRC_LENGTH := str "04".
Definition DEFAULT_CRC_TAG := str "6304".
Definition INVALID_LENGTH_MERCHANT_NAME : Z := 25.
Definition INVALID_LENGTH_BAKONG_ACCOUNT : Z := 32.
Definition INVALID_LENGTH_MERCHANT_CITY : Z := 15.
Definition INVALID_LENGTH_TRANSACTION_AMOUNT : Z := 14.
Definition INVALID_LENGTH_BILL_NUMBER : Z := 25.
Definition INVALID_LENGTH_STORE_LABEL : Z := 25.
Definition INVALID_LENGTH_TERMINAL_LABEL : Z := 25.
Definition INVALID_LENGTH_MOBILE_NUMBER : Z := 25.
End EMV.

(** * The payload codec: class [BakongKHQR] *)

(** The [options] object of [createQR]. [amount] is the exact value of the
  (finite) number passed in; [isStatic] defaults to [false] in the source. *)
Module Options.
Record t : Type := {
  bankAccount : jsstring;
  merchantName : jsstring;
  merchantCity : jsstring;
  amount : Q;
  currency : jsstring;
  storeLabel : jsstring;
  phoneNumber : jsstring;
  billNumber : jsstring;
  terminalLabel : jsstring;
  isStatic : bool
}.
End Options.

Module BakongKHQR.
Section Codec.
Context `{Engine}.

(** [formatValue(tag, value)]: tag, two-digit length, value. *)
Definition formatValue (tag value : jsstring) : jsstring :=
  tag ++ padStart 2 48 (toString (Z.of_nat (length value))) ++ value.

Definition tooLongMessage (fieldName : jsstring) (maxLength : Z)
    (len : nat) : jsstring :=
  fieldName ++ str " cannot exceed " ++ toString maxLength
    ++ str " characters. Your input length: "
    ++ toString (Z.of_nat len) ++ str " characters.".

(** [validateLength(value, maxLength, fieldName)]. *)
Definition validateLength (value : jsstring) (maxLength : Z)
    (fieldName : jsstring) : outcome unit :=
  if Z.of_nat (length value) >? maxLength
  then Threw (tooLongMessage fieldName maxLength (length value))
  else Returned tt.

Definition payloadFormatIndicator : jsstring :=
  formatValue EMV.PAYLOAD_FORMAT_INDICATOR EMV.DEFAULT_PAYLOAD_FORMAT_INDICATOR.

Definition pointOfInitiation (isStatic : bool) : jsstring :=
  let type := if isStatic then EMV.STATIC_QR else EMV.DYNAMIC_QR in
  formatValue EMV.POINT_OF_INITIATION_METHOD type.

Definition globalUniqueIdentifier (bankAccount : jsstring) : outcome jsstring :=
  validateLength bankAccount EMV.INVALID_LENGTH_BAKONG_ACCOUNT (str "Bank account") ;;
  let accountInfo := formatValue EMV.PAYLOAD_FORMAT_INDICATOR bankAccount in
  mret (formatValue EMV.MERCHANT_ACCOUNT_INFORMATION_INDIVIDUAL accountInfo).

Definition merchantCategoryCode : jsstring :=
  formatValue EMV.MERCHANT_CATEGORY_CODE EMV.DEFAULT_MERCHANT_CATEGORY_CODE.

Definition countryCode : jsstring :=
  formatValue EMV.COUNTRY_CODE EMV.DEFAULT_COUNTRY_CODE.

Definition merchantName (name : jsstring) : outcome jsstring :=
  validateLength name EMV.INVALID_LENGTH_MERCHANT_NAME (str "Merchant name") ;;
  mret (formatValue EMV.MERCHANT_NAME name).

Definition merchantCity (city : jsstring) : outcome jsstring :=
  validateLength city EMV.INVALID_LENGTH_MERCHANT_CITY (str "Merchant city") ;;
  mret (formatValue EMV.MERCHANT_CITY city).

(** [timestamp()]; [now] is the value of [Date.now()]. *)
Definition timestamp (now : Z) : jsstring :=
  let timestampMs := toString now in
  let lengthOfTimestamp :=
    padStart 2 48 (toString (Z.of_nat (length timestampMs))) in
  let languagePreference := str "00" in
  let result := languagePreference ++ lengthOfTimestamp ++ timestampMs in
  let lengthResult := padStart 2 48 (toString (Z.of_nat (length result))) in
  EMV.TIMESTAMP_TAG ++ lengthResult ++ result.

(** The string that [amount] wraps into the field: two decimals, trailing
    zeros removed, padded to eleven characters. [parseFloat] of a number
    is that number. *)
Definition paddedAmountStr (value : Q) : jsstring :=
  let amountStr := toFixed 2 value in
  let amountStr := replaceDotZeros amountStr in
  padStart 11 48 amountStr.

Definition amount (value : Q) : outcome jsstring :=
  let paddedAmountStr := paddedAmountStr value in
  validateLength paddedAmountStr EMV.INVALID_LENGTH_TRANSACTION_AMOUNT (str "Amount") ;;
  mret (formatValue EMV.TRANSACTION_AMOUNT paddedAmountStr).

Definition transactionCurrency (currency : jsstring) : jsstring :=
  let currencyCode :=
    if decide (toUpperCase currency = str "USD")
    then EMV.TRANSACTION_CURRENCY_USD else EMV.TRANSACTION_CURRENCY_KHR in
  formatValue EMV.TRANSACTION_CURRENCY currencyCode.

Definition additionalDataField
    (storeLabel phoneNumber billNumber terminalLabel : jsstring)
    : outcome jsstring :=
  validateLength billNumber EMV.INVALID_LENGTH_BILL_NUMBER (str "Bill number") ;;
  validateLength phoneNumber EMV.INVALID_LENGTH_MOBILE_NUMBER (str "Phone number") ;;
  validateLength storeLabel EMV.INVALID_LENGTH_STORE_LABEL (str "Store label") ;;
  validateLength terminalLabel EMV.INVALID_LENGTH_TERMINAL_LABEL (str "Terminal label") ;;
  let billNumberValue := formatValue EMV.BILLNUMBER_TAG billNumber in
  let phoneNumberValue :=
    formatValue EMV.ADDITION_DATA_FIELD_MOBILE_NUMBER phoneNumber in
  let storeLabelValue := formatValue EMV.STORE_LABEL storeLabel in
  let terminalLabelValue := formatValue EMV.TERMINAL_LABEL terminalLabel in
  let combinedData :=
    billNumberValue ++ phoneNumberValue ++ storeLabelValue ++ terminalLabelValue in
  mret (formatValue EMV.ADDITION_DATA_TAG combinedData).

(** ** The CRC engine *)

Definition polynomial : Z := 0x1021.

(** One round of the inner loop, with the mask that ends it. *)
Definition crcRound (crc : Z) : Z :=
  let crc :=
    if Z.land crc 0x8000 =? 0 then Z.shiftl crc 1
    else Z.lxor (Z.shiftl crc 1) polynomial in
  Z.land crc 0xFFFF.

(** One turn of the outer loop, for the code unit [c]. *)
Definition crcChar (crc c : Z) : Z :=
  Nat.iter 8 crcRound (Z.lxor crc (Z.shiftl c 8)).

Definition crcRegister (data : jsstring) : Z :=
  fold_left crcChar data 0xFFFF.

Definition generateCRC16 (data : jsstring) : jsstring :=
  let crc := crcRegister data in
  padStart 4 48 (toUpperCase (toStringRadix 16 crc)).

Definition crc (qrData : jsstring) : jsstring :=
  let dataWithCrcTag := qrData ++ EMV.DEFAULT_CRC_TAG in
  let crcValue := generateCRC16 dataWithCrcTag in
  EMV.DEFAULT_CRC_TAG ++ crcValue.

(** ** [createQR] *)

Definition createQR (now : Z) (options : Options.t) : outcome jsstring :=
  let qrData := [] in
  let qrData := qrData ++ payloadFormatIndicator in
  let qrData := qrData ++ pointOfInitiation (Options.isStatic options) in
  f ← globalUniqueIdentifier (Options.bankAccount options) ;
  let qrData := qrData ++ f in
  let qrData := qrData ++ merchantCategoryCode in
  let qrData := qrData ++ countryCode in
  f ← merchantName (Options.merchantName options) ;
  let qrData := qrData ++ f in
  f ← merchantCity (Options.merchantCity options) ;
  let qrData := qrData ++ f in
  let qrData := qrData ++ timestamp now in
  qrData ← (if negb (Options.isStatic options)
            then f ← amount (Options.amount options) ; mret (qrData ++ f)
            else mret qrData) ;
  let qrData := qrData ++ transactionCurrency (Options.currency options) in
  f ← additionalDataField (Options.storeLabel options)
        (Options.phoneNumber options) (Options.billNumber options)
        (Options.terminalLabel options) ;
  let qrData := qrData ++ f in
  let qrData := qrData ++ crc qrData in
  mret qrData.

End Codec.

(** ** The calls to the Bakong API *)

(** The fields of an instance: the developer token ([null] when the
    constructor got none) and the base URL. *)
Record Client : Type := {
  bakongToken : option jsstring;
  bakongApiUrl : jsstring
}.

(** [new BakongKHQR(bakongToken)]; [BAKONG_API_URL] is the environment
    variable of that name. *)
Definition constructor (bakongToken BAKONG_API_URL : option jsstring) : Client :=
  {| bakongToken := bakongToken;
     bakongApiUrl := orElse BAKONG_API_URL (str "https://api-bakong.nbc.gov.kh/v1") |}.

Definition userAgent : jsstring :=
  str "bakong-khqr-js/1.0.0 (+https://github.com/bsthen/bakong-khqr); Mozilla/5.0".

Definition checkBakongToken (this : Client) : outcome unit :=
  match bakongToken this with
  | Some (_ :: _) => Returned tt
  | _ =>
      Threw (str "Bakong Developer Token is required for KHQR class initialization.")
  end.

(** The message of the error that [postRequest] throws for a failed
    request. *)
Definition requestError (error : Http.Failure) : jsstring :=
  match Http.status error with
  | Some 400 => str "Bad request. Please check your input parameters and try again."
  | Some 401 =>
      str "Your Developer Token is either incorrect or expired. Please renew it through Bakong Developer."
  | Some 403 =>
      str "Bakong API only accepts requests from Cambodia IP addresses. Your IP may be blocked or restricted."
  | Some 404 =>
      str "The requested Bakong API endpoint does not exist. Please check the endpoint URL."
  | Some 429 => str "Too many requests. Please wait a while before trying again."
  | Some 500 => str "Bakong server encountered an internal error. Please try again later."
  | Some 504 => str "Bakong server is busy, please try again later."
  | status =>
      str "Something went wrong. HTTP "
        ++ match status with Some n => toString n | None => str "undefined" end
        ++ str ": " ++ Http.detail error
  end.

(** The request that [postRequest(endpoint, payload)] sends. *)
Definition request (this : Client) (endpoint : jsstring) (payload : Value.t)
    : Http.Request :=
  let headers :=
    [ (str "Authorization", str "Bearer " ++ default [] (bakongToken this));
      (str "Content-Type", str "application/json");
      (str "User-Agent", userAgent) ] in
  {| Http.url := bakongApiUrl this ++ endpoint;
     Http.payload := payload;
     Http.headers := headers |}.

(** [postRequest(endpoint, payload)]; [network] is what a request settles
    with. *)
Definition postRequest (this : Client) (network : Http.Network)
    (endpoint : jsstring) (payload : Value.t) : outcome Value.t :=
  checkBakongToken this ;;
  match network (request this endpoint payload) with
  | Http.Resolved data => Returned data
  | Http.Rejected error => Threw (requestError error)
  end.

(** [generateDeeplink(qr, callback, appIconUrl, appName)]. *)
Definition generateDeeplink (this : Client) (network : Http.Network)
    (qr callback appIconUrl appName : jsstring) : outcome Value.t :=
  let payload :=
    Value.object
      [ (str "qr", Value.string qr);
        (str "sourceInfo",
         Value.object
           [ (str "appIconUrl", Value.string appIconUrl);
             (str "appName", Value.string appName);
             (str "appDeepLinkCallback", Value.string callback) ]) ] in
  response ← postRequest this network (str "/generate_deeplink_by_qr") payload ;
  responseCode ← Value.prop (str "responseCode") response ;
  if Value.isNumber 0 responseCode then
    data ← Value.prop (str "data") response ;
    match data with
    | Value.undefined | Value.null => mret Value.undefined
    | _ => Value.prop (str "shortLink") data
    end
  else mret Value.null.

(** [`${v.name}`] and [new Date(v.name).toLocaleString()] in a logged
    line: the property is read and converted. *)
Definition logged (name : jsstring) (v : Value.t) : outcome unit :=
  x ← Value.prop name v ; Value.interpolate x.

Definition loggedDate (name : jsstring) (v : Value.t) : outcome unit :=
  x ← Value.prop name v ; Value.toLocaleString x.

(** [checkPayment(md5)]. The branch of a paid transaction logs nine
    properties of [response.data]: reading them throws when there is no
    [data], and so does printing one that has no primitive value. The other
    branch logs [response.responseMessage]. What is thrown inside the [try]
    is caught. *)
Definition checkPayment (this : Client) (network : Http.Network) (md5 : jsstring)
    : outcome jsstring :=
  let payload := Value.object [ (str "md5", Value.string md5) ] in
  attempt
    (response ← postRequest this network (str "/check_transaction_by_md5") payload ;
     responseCode ← Value.prop (str "responseCode") response ;
     if Value.isNumber 0 responseCode then
       paymentData ← Value.prop (str "data") response ;
       logged (str "amount") paymentData ;;
       logged (str "currency") paymentData ;;
       logged (str "fromAccountId") paymentData ;;
       logged (str "toAccountId") paymentData ;;
       logged (str "description") paymentData ;;
       loggedDate (str "createdDateMs") paymentData ;;
       loggedDate (str "acknowledgedDateMs") paymentData ;;
       logged (str "hash") paymentData ;;
       logged (str "externalRef") paymentData ;;
       mret (str "PAID")
     else
       logged (str "responseMessage") response ;;
       mret (str "UNPAID"))
    (fun error => mret (str "UNPAID")).

(** [getPayment(md5)]. *)
Definition getPayment (this : Client) (network : Http.Network) (md5 : jsstring)
    : outcome Value.t :=
  let payload := Value.object [ (str "md5", Value.string md5) ] in
  response ← postRequest this network (str "/check_transaction_by_md5") payload ;
  responseCode ← Value.prop (str "responseCode") response ;
  if Value.isNumber 0 responseCode then Value.prop (str "data") response
  else mret Value.null.

(** [rows.filter(data => data.status === 'SUCCESS')]. *)
Fixpoint successful (rows : list Value.t) : outcome (list Value.t) :=
  match rows with
  | [] => mret []
  | data :: rest =>
      status ← Value.prop (str "status") data ;
      kept ← successful rest ;
      mret (if Value.isString (str "SUCCESS") status then data :: kept else kept)
  end.

(** [rows.map(data => data.md5)]. *)
Fixpoint md5s (rows : list Value.t) : outcome (list Value.t) :=
  match rows with
  | [] => mret []
  | data :: rest =>
      md5 ← Value.prop (str "md5") data ;
      others ← md5s rest ;
      mret (md5 :: others)
  end.

(** [checkBulkPayments(md5List)]. *)
Definition checkBulkPayments (this : Client) (network : Http.Network)
    (md5List : list jsstring) : outcome (list Value.t) :=
  if (50 <? length md5List)%nat then
    Threw (str "The md5_list exceeds the allowed limit of 50 hashes per request.")
  else
    response ← postRequest this network (str "/check_transaction_by_md5_list")
                 (Value.array (map Value.string md5List)) ;
    data ← Value.prop (str "data") response ;
    match data with
    | Value.undefined | Value.null => mret []
    | Value.array rows =>
        kept ← successful rows ;
        md5s kept
    | _ => Threw (str "response.data?.filter is not a function")
    end.

End BakongKHQR.

Definition sampleOptions (isStatic : bool) (amount : Q) : Options.t :=
{| Options.bankAccount := str "merchant@bank";
   Options.merchantName := str "Store Name";
   Options.merchantCity := str "Phnom Penh";
   Options.amount := amount;
   Options.currency := str "USD";
   Options.storeLabel := str "Store";
   Options.phoneNumber := str "85512345678";
   Options.billNumber := str "INV001";
   Options.terminalLabel := str "POS-01";
   Options.isStatic := isStatic |}.

(** * The payment monitor: class [AutoPaymentMonitor] *)

(** The [paymentData] object handed to [addPayment]. *)
Module PaymentData.
Record t : Type := {
  md5Hash : jsstring;
  billNumber : jsstring;
  amount : Q;
  currency : jsstring;
  storeLabel : jsstring;
  qrCode : jsstring;
  transactionId : jsstring
}.
End PaymentData.

(** A [monitorInfo] object. *)
Module MonitorInfo.
Record t : Type := {
  md5Hash : jsstring;
  billNumber : jsstring;
  amount : Q;
  currency : jsstring;
  storeLabel : jsstring;
  sessionId : jsstring;
  startTime : Z;
  lastCheck : Z;
  checkCount : nat;
  status : jsstring;
  qrCode : jsstring
}.

Definition with_checkCount (n : nat) (m : t) : t :=
  {| md5Hash := md5Hash m; billNumber := billNumber m; amount := amount m;
     currency := currency m; storeLabel := storeLabel m;
     sessionId := sessionId m; startTime := startTime m;
     lastCheck := lastCheck m; checkCount := n; status := status m;
     qrCode := qrCode m |}.

Definition with_lastCheck (now : Z) (m : t) : t :=
  {| md5Hash := md5Hash m; billNumber := billNumber m; amount := amount m;
     currency := currency m; storeLabel := storeLabel m;
     sessionId := sessionId m; startTime := startTime m;
     lastCheck := now; checkCount := checkCount m; status := status m;
     qrCode := qrCode m |}.

Definition with_status (s : jsstring) (m : t) : t :=
  {| md5Hash := md5Hash m; billNumber := billNumber m; amount := amount m;
     currency := currency m; storeLabel := storeLabel m;
     sessionId := sessionId m; startTime := startTime m;
     lastCheck := lastCheck m; checkCount := checkCount m; status := s;
     qrCode := qrCode m |}.
End MonitorInfo.

(** What [paymentService.checkPaymentStatus] resolves to. *)
Module CheckResult.
Record t : Type := {
  identifier : jsstring;
  md5Hash : jsstring;
  status : jsstring;
  paymentDetails : option jsstring;
  checkedAt : jsstring
}.
End CheckResult.

Module AutoPaymentMonitor.

(** A [monitorInfo] object is reached through a reference: the registry
    and a check that is under way hold the same object. *)
Definition ref : Type := nat.

(** The events of the [EventEmitter], with the object they carry as the
    listener sees it when the event is emitted. *)
Inductive Event : Type :=
| payment_added (monitorInfo : MonitorInfo.t)
| payment_success (md5Hash : jsstring) (monitorInfo : MonitorInfo.t)
    (result : CheckResult.t) (duration : Z)
| payment_expired (md5Hash : jsstring) (monitorInfo : MonitorInfo.t)
    (duration : Z).

(** A JavaScript [Map] keeps its keys in insertion order. *)
Definition Map_get {V : Type} (k : jsstring) (m : list (jsstring * V)) : option V :=
  snd <$> List.find (fun kv => bool_decide (fst kv = k)) m.

Fixpoint Map_set {V : Type} (k : jsstring) (v : V) (m : list (jsstring * V))
    : list (jsstring * V) :=
  match m with
  | [] => [(k, v)]
  | (k', v') :: r =>
      if decide (k' = k) then (k, v) :: r else (k', v') :: Map_set k v r
  end.

Definition Map_delete {V : Type} (k : jsstring) (m : list (jsstring * V))
    : list (jsstring * V) :=
  List.filter (fun kv => negb (bool_decide (fst kv = k))) m.

(** The monitor: the fields of the class, the [monitorInfo] objects made so
    far ([objects], a reference is an index into it) and the events emitted
    so far ([emitted], oldest first). *)
Record t : Type := {
  activeMonitors : list (jsstring * ref);
  userSessions : gmap jsstring (gset jsstring);
  paymentQueue : gmap jsstring PaymentData.t;
  maxMonitorTime : Z;
  checkInterval : Z;
  isRunning : bool;
  objects : list MonitorInfo.t;
  emitted : list Event
}.

Definition constructor : t :=
  {| activeMonitors := []; userSessions := ∅; paymentQueue := ∅;
     maxMonitorTime := 30 * 60 * 1000; checkInterval := 10000;
     isRunning := false; objects := []; emitted := [] |}.

Definition with_activeMonitors (a : list (jsstring * ref)) (s : t) : t :=
  {| activeMonitors := a; userSessions := userSessions s;
     paymentQueue := paymentQueue s; maxMonitorTime := maxMonitorTime s;
     checkInterval := checkInterval s; isRunning := isRunning s;
     objects := objects s; emitted := emitted s |}.

Definition with_userSessions (u : gmap jsstring (gset jsstring)) (s : t) : t :=
  {| activeMonitors := activeMonitors s; userSessions := u;
     paymentQueue := paymentQueue s; maxMonitorTime := maxMonitorTime s;
     checkInterval := checkInterval s; isRunning := isRunning s;
     objects := objects s; emitted := emitted s |}.

Definition with_paymentQueue (q : gmap jsstring PaymentData.t) (s : t) : t :=
  {| activeMonitors := activeMonitors s; userSessions := userSessions s;
     paymentQueue := q; maxMonitorTime := maxMonitorTime s;
     checkInterval := checkInterval s; isRunning := isRunning s;
     objects := objects s; emitted := emitted s |}.

Definition with_isRunning (b : bool) (s : t) : t :=
  {| activeMonitors := activeMonitors s; userSessions := userSessions s;
     paymentQueue := paymentQueue s; maxMonitorTime := maxMonitorTime s;
     checkInterval := checkInterval s; isRunning := b;
     objects := objects s; emitted := emitted s |}.

Definition with_objects (o : list MonitorInfo.t) (s : t) : t :=
  {| activeMonitors := activeMonitors s; userSessions := userSessions s;
     paymentQueue := paymentQueue s; maxMonitorTime := maxMonitorTime s;
     checkInterval := checkInterval s; isRunning := isRunning s;
     objects := o; emitted := emitted s |}.

Definition with_emitted (e : list Event) (s : t) : t :=
  {| activeMonitors := activeMonitors s; userSessions := userSessions s;
     paymentQueue := paymentQueue s; maxMonitorTime := maxMonitorTime s;
     checkInterval := checkInterval s; isRunning := isRunning s;
     objects := objects s; emitted := e |}.

(** A method runs on the monitor and returns or throws; what it did to the
    monitor before it threw stays done. *)
Definition M (A : Type) : Type := t -> outcome A * t.

#[export] Instance M_ret : MRet M := fun A a s => (Returned a, s).
#[export] Instance M_bind : MBind M := fun A B k c s =>
  match c s with
  | (Returned a, s') => k a s'
  | (Threw e, s') => (Threw e, s')
  end.

Definition gets {A : Type} (f : t -> A) : M A := fun s => (Returned (f s), s).
Definition modify (f : t -> t) : M unit := fun s => (Returned tt, f s).
Definition throw {A : Type} (message : jsstring) : M A := fun s => (Threw message, s).

(** [try { body } catch (error) { handler(error) }]. *)
Definition tryCatch {A : Type} (body : M A) (handler : jsstring -> M A) : M A :=
  fun s =>
    match body s with
    | (Returned a, s') => (Returned a, s')
    | (Threw e, s') => handler e s'
    end.

(** The result of an awaited promise: the value it resolved to, or the
    error it was rejected with, thrown at the [await]. *)
Definition await {A : Type} (answer : outcome A) : M A := fun s => (answer, s).

(** Reading and writing a [monitorInfo] object. A reference that is no
    object stands for [undefined], and reading a property of it throws. *)
Definition deref (r : ref) : M MonitorInfo.t := fun s =>
  match objects s !! r with
  | Some info => (Returned info, s)
  | None => (Threw (str "TypeError: Cannot read properties of undefined"), s)
  end.

Definition update (r : ref) (f : MonitorInfo.t -> MonitorInfo.t) : M unit :=
  info ← deref r ;
  modify (fun s => with_objects (<[r := f info]> (objects s)) s).

Definition alloc (info : MonitorInfo.t) : M ref := fun s =>
  (Returned (length (objects s)), with_objects (objects s ++ [info]) s).

(** [this.emit(name, payload)]: no listener of the repository reacts by
    calling back into the monitor. *)
Definition emit (e : Event) : M unit :=
  modify (fun s => with_emitted (emitted s ++ [e]) s).

Definition start : M unit :=
  running ← gets isRunning ;
  if running : bool then mret tt else modify (with_isRunning true).

Definition stop : M unit :=
  modify (with_isRunning false) ;;
  modify (with_activeMonitors []) ;;
  modify (with_userSessions ∅) ;;
  modify (with_paymentQueue ∅).

(** [addPayment(paymentData, sessionId)]; [now] is [Date.now()]. *)
Definition addPayment (now : Z) (paymentData : PaymentData.t)
    (sessionId : jsstring) : M unit :=
  let md5Hash := PaymentData.md5Hash paymentData in
  monitorInfo ← alloc
    {| MonitorInfo.md5Hash := md5Hash;
       MonitorInfo.billNumber := PaymentData.billNumber paymentData;
       MonitorInfo.amount := PaymentData.amount paymentData;
       MonitorInfo.currency := PaymentData.currency paymentData;
       MonitorInfo.storeLabel := PaymentData.storeLabel paymentData;
       MonitorInfo.sessionId := sessionId;
       MonitorInfo.startTime := now;
       MonitorInfo.lastCheck := now;
       MonitorInfo.checkCount := 0;
       MonitorInfo.status := str "MONITORING";
       MonitorInfo.qrCode :=
         substring0 50 (PaymentData.qrCode paymentData) ++ str "..." |} ;
  modify (fun s => with_activeMonitors
                     (Map_set md5Hash monitorInfo (activeMonitors s)) s) ;;
  sessions ← gets userSessions ;
  (if decide (is_Some (sessions !! sessionId)) then mret tt
   else modify (fun s => with_userSessions (<[sessionId := ∅]> (userSessions s)) s)) ;;
  modify (fun s => with_userSessions
                     (alter (fun set => set ∪ {[md5Hash]}) sessionId (userSessions s)) s) ;;
  modify (fun s => with_paymentQueue
                     (<[md5Hash := paymentData]> (paymentQueue s)) s) ;;
  info ← deref monitorInfo ;
  emit (payment_added info).

(** [removePayment(md5Hash)]. *)
Definition removePayment (md5Hash : jsstring) : M unit :=
  monitors ← gets activeMonitors ;
  match Map_get md5Hash monitors with
  | None => mret tt
  | Some monitorInfo =>
      modify (fun s => with_activeMonitors (Map_delete md5Hash (activeMonitors s)) s) ;;
      modify (fun s => with_paymentQueue (delete md5Hash (paymentQueue s)) s) ;;
      info ← deref monitorInfo ;
      let sessionId := MonitorInfo.sessionId info in
      sessions ← gets userSessions ;
      match sessions !! sessionId with
      | None => mret tt
      | Some sessionPayments =>
          let sessionPayments := sessionPayments ∖ {[md5Hash]} in
          modify (fun s => with_userSessions
                             (<[sessionId := sessionPayments]> (userSessions s)) s) ;;
          if decide (size sessionPayments = 0%nat)
          then modify (fun s => with_userSessions (delete sessionId (userSessions s)) s)
          else mret tt
      end
  end.

(** [handlePaymentSuccess(md5Hash, monitorInfo, result)]; [now] is the
    [Date.now()] of the emitted duration. *)
Definition handlePaymentSuccess (now : Z) (md5Hash : jsstring)
    (monitorInfo : ref) (result : CheckResult.t) : M unit :=
  removePayment md5Hash ;;
  info ← deref monitorInfo ;
  emit (payment_success md5Hash info result (now - MonitorInfo.startTime info)).

(** [expirePayment(md5Hash, monitorInfo)]. *)
Definition expirePayment (md5Hash : jsstring) (monitorInfo : ref) : M unit :=
  removePayment md5Hash ;;
  info ← deref monitorInfo ;
  duration ← gets maxMonitorTime ;
  emit (payment_expired md5Hash info duration).

(** [checkSinglePayment(md5Hash, monitorInfo)] is an [async] method: its
    body runs up to the [await] of the status check when it is called, and
    from there on when the check has settled. [checkSinglePayment_issue]
    is the first part and tells whether the check was issued;
    [checkSinglePayment_settle] is the second, [answer] being what the
    promise of [paymentService.checkPaymentStatus(md5Hash)] settled with. *)
Definition checkSinglePayment_issue (now : Z) (md5Hash : jsstring)
    (monitorInfo : ref) : M bool :=
  info ← deref monitorInfo ;
  let elapsed := now - MonitorInfo.startTime info in
  maxTime ← gets maxMonitorTime ;
  if elapsed >? maxTime then
    expirePayment md5Hash monitorInfo ;;
    mret false
  else
    update monitorInfo
      (fun m => MonitorInfo.with_checkCount (S (MonitorInfo.checkCount m)) m) ;;
    update monitorInfo (MonitorInfo.with_lastCheck now) ;;
    mret true.

Definition checkSinglePayment_settle (now : Z) (answer : outcome CheckResult.t)
    (md5Hash : jsstring) (monitorInfo : ref) : M unit :=
  result ← await answer ;
  if decide (CheckResult.status result = str "PAID") then
    handlePaymentSuccess now md5Hash monitorInfo result
  else
    update monitorInfo (MonitorInfo.with_status (CheckResult.status result)).

(** The [catch] clause of [checkSinglePayment]: the error is logged. *)
Definition logError (error : jsstring) : M unit := mret tt.

(** The whole method when nothing else runs between its two parts; [now]
    and [settled] are the clock at the call and when the check settles. *)
Definition checkSinglePayment (now settled : Z) (answer : outcome CheckResult.t)
    (md5Hash : jsstring) (monitorInfo : ref) : M unit :=
  tryCatch
    (issued ← checkSinglePayment_issue now md5Hash monitorInfo ;
     if issued : bool
     then checkSinglePayment_settle settled answer md5Hash monitorInfo
     else mret tt)
    logError.

(** [forceCheck(md5Hash)]. *)
Definition forceCheck (now settled : Z) (answer : outcome CheckResult.t)
    (md5Hash : jsstring) : M ref :=
  monitors ← gets activeMonitors ;
  match Map_get md5Hash monitors with
  | None => throw (str "Payment " ++ md5Hash ++ str " is not being monitored")
  | Some monitorInfo =>
      checkSinglePayment now settled answer md5Hash monitorInfo ;;
      mret monitorInfo
  end.

(** The status service as one tick sees it: for a fingerprint, what its
    check settles with and the clock at that moment. *)
Definition StatusChecker : Type := jsstring -> outcome CheckResult.t * Z.

(** The first parts of the checks of a tick, in the order of the registry;
    the result lists the checks that were issued. *)
Fixpoint issueAll (now : Z) (entries : list (jsstring * ref))
    : M (list (jsstring * ref)) :=
  match entries with
  | [] => mret []
  | (md5Hash, monitorInfo) :: rest =>
      issued ← tryCatch (checkSinglePayment_issue now md5Hash monitorInfo)
                 (fun error => logError error ;; mret false) ;
      pending ← issueAll now rest ;
      mret (if issued : bool then (md5Hash, monitorInfo) :: pending else pending)
  end.

(** Their second parts, as [Promise.all] waits for every one of them, in
    the order in which the checks settle. *)
Fixpoint settleAll (checker : StatusChecker) (pending : list (jsstring * ref))
    : M unit :=
  match pending with
  | [] => mret tt
  | (md5Hash, monitorInfo) :: rest =>
      tryCatch
        (checkSinglePayment_settle (snd (checker md5Hash)) (fst (checker md5Hash))
           md5Hash monitorInfo)
        logError ;;
      settleAll checker rest
  end.

(** The order in which the checks of a tick settle is the service's: it
    rearranges the checks that were issued. *)
Definition SettleOrder : Type := list (jsstring * ref) -> list (jsstring * ref).

Definition rearranges (order : SettleOrder) : Prop :=
  forall pending, Permutation (order pending) pending.

(** One run of [checkAllPayments], the body of the periodic check. *)
Definition checkAllPayments (now : Z) (checker : StatusChecker)
    (order : SettleOrder) : M unit :=
  running ← gets isRunning ;
  if negb running then mret tt
  else
    entries ← gets activeMonitors ;
    if (0 <? length entries)%nat then
      pending ← issueAll now entries ;
      settleAll checker (order pending)
    else mret tt.

(** The getters. *)
Definition values (s : t) : list MonitorInfo.t :=
  omap (fun kv => objects s !! snd kv) (activeMonitors s).

Definition getTotalPayments (s : t) : nat := length (activeMonitors s).

Definition getCompletedPayments (s : t) : nat :=
  length (List.filter (fun m => bool_decide (MonitorInfo.status m = str "PAID"))
            (values s)).

Definition getPendingPayments (s : t) : nat :=
  length (List.filter (fun m => bool_decide (MonitorInfo.status m = str "UNPAID"))
            (values s)).

(** ** Running a method, and what is observed of the monitor *)

Definition exec {A : Type} (m : M A) (s : t) : t := snd (m s).
Definition result {A : Type} (m : M A) (s : t) : outcome A := fst (m s).

(** The entry registered for a fingerprint. *)
Definition get (md5Hash : jsstring) (s : t) : option MonitorInfo.t :=
  r ← Map_get md5Hash (activeMonitors s) ; objects s !! r.

(** The fingerprint is in the index of the session. *)
Definition inSession (md5Hash sessionId : jsstring) (s : t) : Prop :=
  exists payments, userSessions s !! sessionId = Some payments /\ md5Hash ∈ payments.

(** The events about one fingerprint. *)
Definition isSuccessOf (md5Hash : jsstring) (e : Event) : bool :=
  match e with
  | payment_success h _ _ _ => bool_decide (h = md5Hash)
  | _ => false
  end.

Definition isExpiryOf (md5Hash : jsstring) (e : Event) : bool :=
  match e with
  | payment_expired h _ _ => bool_decide (h = md5Hash)
  | _ => false
  end.

(** The registry as the class keeps it: a key occurs once, and the object
    registered for a key carries that key. *)
Definition wellFormed (s : t) : Prop :=
  NoDup (map fst (activeMonitors s))
  /\ forall k r, In (k, r) (activeMonitors s) ->
       exists info, objects s !! r = Some info /\ MonitorInfo.md5Hash info = k.

(** ** The monitor over time

    Between two turns of the event loop the monitor is at rest; [inflight]
    lists the status checks that were issued and have not settled yet. A
    turn is a call of a method of the class, the first part of a check of a
    registered entry (by the periodic check or a forced check), or the
    second part of a check in flight, with any answer of the service. *)
Record World : Type := {
  monitor : t;
  inflight : list (jsstring * ref)
}.

Inductive step : World -> World -> Prop :=
| step_start w :
    step w {| monitor := exec start (monitor w); inflight := inflight w |}
| step_stop w :
    step w {| monitor := exec stop (monitor w); inflight := inflight w |}
| step_addPayment now paymentData sessionId w :
    step w {| monitor := exec (addPayment now paymentData sessionId) (monitor w);
              inflight := inflight w |}
| step_removePayment md5Hash w :
    step w {| monitor := exec (removePayment md5Hash) (monitor w);
              inflight := inflight w |}
| step_issue now md5Hash monitorInfo w :
    Map_get md5Hash (activeMonitors (monitor w)) = Some monitorInfo ->
    let call := tryCatch (checkSinglePayment_issue now md5Hash monitorInfo)
                  (fun error => logError error ;; mret false) in
    step w {| monitor := exec call (monitor w);
              inflight :=
                match result call (monitor w) with
                | Returned true => inflight w ++ [(md5Hash, monitorInfo)]
                | _ => inflight w
                end |}
| step_settle now answer md5Hash monitorInfo before after w :
    inflight w = before ++ (md5Hash, monitorInfo) :: after ->
    let call := tryCatch (checkSinglePayment_settle now answer md5Hash monitorInfo)
                  logError in
    step w {| monitor := exec call (monitor w); inflight := before ++ after |}.

Definition initial : World := {| monitor := constructor; inflight := [] |}.

Definition reachable (w : World) : Prop := rtc step initial w.

(** ** Invariants and frames *)

(** No [monitorInfo] object carries the status ['PAID']. *)
Definition noPaid (s : t) : Prop :=
  Forall (fun info => MonitorInfo.status info <> str "PAID") (objects s).

(** What a turn about another entry leaves as it is for the fingerprint
    [md5Hash] and the object [r]. *)
Record unchangedFor (md5Hash : jsstring) (r : ref) (s s' : t) : Prop := {
  uf_registry :
    Map_get md5Hash (activeMonitors s') = Map_get md5Hash (activeMonitors s);
  uf_object : objects s' !! r = objects s !! r;
  uf_queue : paymentQueue s' !! md5Hash = paymentQueue s !! md5Hash;
  uf_sessions : forall sid, inSession md5Hash sid s' <-> inSession md5Hash sid s;
  uf_maxMonitorTime : maxMonitorTime s' = maxMonitorTime s;
  uf_isRunning : isRunning s' = isRunning s;
  uf_successes :
    List.filter (isSuccessOf md5Hash) (emitted s')
    = List.filter (isSuccessOf md5Hash) (emitted s);
  uf_expiries :
    List.filter (isExpiryOf md5Hash) (emitted s')
    = List.filter (isExpiryOf md5Hash) (emitted s)
}.

(** The first part of the check of one entry of a tick, and the second. *)
Definition issueOne (now : Z) (entry : jsstring * ref) : M bool :=
  tryCatch (checkSinglePayment_issue now (fst entry) (snd entry))
    (fun error => logError error ;; mret false).

Definition settleOne (checker : StatusChecker) (entry : jsstring * ref) : M unit :=
  tryCatch
    (checkSinglePayment_settle (snd (checker (fst entry))) (fst (checker (fst entry)))
       (fst entry) (snd entry))
    logError.

(** The checks that a tick issues. *)
Definition issued (now : Z) (entries : list (jsstring * ref)) (s : t)
    : list (jsstring * ref) :=
  match result (issueAll now entries) s with
  | Returned pending => pending
  | Threw _ => []
  end.

(** A method keeps the relation [R] between the monitor before and after. *)
Definition preserves (R : relation t) {A : Type} (m : M A) : Prop :=
  forall s, R s (exec m s).

(** The relation of an invariant. *)
Definition keeps (P : t -> Prop) : relation t := fun s s' => P s -> P s'.

(** The entries are about other fingerprints and other objects. *)
Definition awayFrom (F : jsstring) (l : ref) (es : list (jsstring * ref)) : Prop :=
  forall e, In e es -> fst e <> F /\ snd e <> l.

(** What [removePayment] does to the monitor for a registered fingerprint;
    [events] are the events emitted on the way. *)
Record removedFrom (md5Hash : jsstring) (info : MonitorInfo.t)
    (events : list Event) (s s' : t) : Prop := {
  rf_registry : activeMonitors s' = Map_delete md5Hash (activeMonitors s);
  rf_queue : paymentQueue s' = delete md5Hash (paymentQueue s);
  rf_objects : objects s' = objects s;
  rf_sessions :
    forall sid, inSession md5Hash sid s'
                <-> inSession md5Hash sid s /\ sid <> MonitorInfo.sessionId info;
  rf_maxMonitorTime : maxMonitorTime s' = maxMonitorTime s;
  rf_isRunning : isRunning s' = isRunning s;
  rf_emitted : emitted s' = emitted s ++ events
}.

(** The object after the first part of a check that is issued. *)
Definition checkedAt (now : Z) (info : MonitorInfo.t) : MonitorInfo.t :=
  MonitorInfo.with_lastCheck now
    (MonitorInfo.with_checkCount (S (MonitorInfo.checkCount info)) info).

(** The object that [addPayment] makes. *)
Definition freshEntry (now : Z) (paymentData : PaymentData.t)
    (sessionId : jsstring) : MonitorInfo.t :=
  {| MonitorInfo.md5Hash := PaymentData.md5Hash paymentData;
     MonitorInfo.billNumber := PaymentData.billNumber paymentData;
     MonitorInfo.amount := PaymentData.amount paymentData;
     MonitorInfo.currency := PaymentData.currency paymentData;
     MonitorInfo.storeLabel := PaymentData.storeLabel paymentData;
     MonitorInfo.sessionId := sessionId;
     MonitorInfo.startTime := now;
     MonitorInfo.lastCheck := now;
     MonitorInfo.checkCount := 0;
     MonitorInfo.status := str "MONITORING";
     MonitorInfo.qrCode :=
       substring0 50 (PaymentData.qrCode paymentData) ++ str "..." |}.

(** The objects are as they were. *)
Definition sameObjects : relation t := fun s s' => objects s' = objects s.

(** A turn that registers nothing: the registry keeps a part of its
    entries, in their order, and every object stays in its place with its
    fingerprint. *)
Definition settles : relation t := fun s s' =>
  sublist (activeMonitors s') (activeMonitors s)
  /\ forall (r : ref) info, objects s !! r = Some info ->
       exists info', objects s' !! r = Some info'
                     /\ MonitorInfo.md5Hash info' = MonitorInfo.md5Hash info.

(** ** The other methods of the class *)

(** [formatDuration(milliseconds)] for a whole number of milliseconds:
    [Math.floor] of a quotient is [Z.div], and [%] is the remainder that
    has the sign of the dividend, [Z.rem]. *)
Definition formatDuration (milliseconds : Z) : jsstring :=
  let seconds := milliseconds / 1000 in
  let minutes := seconds / 60 in
  let hours := minutes / 60 in
  if hours >? 0 then
    toString hours ++ str "h " ++ toString (Z.rem minutes 60) ++ str "m "
      ++ toString (Z.rem seconds 60) ++ str "s"
  else if minutes >? 0 then
    toString minutes ++ str "m " ++ toString (Z.rem seconds 60) ++ str "s"
  else
    toString seconds ++ str "s".

(** [Array.from(this.activeMonitors.entries())], each key with its object. *)
Definition entries (s : t) : list (jsstring * MonitorInfo.t) :=
  omap (fun kv => pair (fst kv) <$> objects s !! snd kv) (activeMonitors s).

(** [getUserCount()]: the size of the set of the [sessionId]s. *)
Definition getUserCount (s : t) : nat :=
  size (list_to_set (map MonitorInfo.sessionId (values s)) : gset jsstring).

(** A row of [getUserPayments(userId)]. *)
Module UserPayment.
Record t : Type := {
  hash : jsstring;
  amount : Q;
  currency : jsstring;
  status : jsstring;
  createdAt : jsstring;
  lastCheck : jsstring;
  checkCount : nat
}.
End UserPayment.

(** [getUserPayments(userId)]. The class declares the method twice; a call
    runs the later declaration, which is this one. [toISOString] is
    [new Date(ms).toISOString()] for the time value [ms]. *)
Definition getUserPayments (toISOString : Z -> jsstring) (userId : jsstring)
    (s : t) : list UserPayment.t :=
  map (fun entry =>
         let hash := fst entry in
         let monitor := snd entry in
         {| UserPayment.hash := hash;
            UserPayment.amount := MonitorInfo.amount monitor;
            UserPayment.currency := MonitorInfo.currency monitor;
            UserPayment.status := MonitorInfo.status monitor;
            UserPayment.createdAt := toISOString (MonitorInfo.startTime monitor);
            UserPayment.lastCheck := toISOString (MonitorInfo.lastCheck monitor);
            UserPayment.checkCount := MonitorInfo.checkCount monitor |})
    (List.filter (fun entry => bool_decide (MonitorInfo.sessionId (snd entry) = userId))
       (entries s)).

(** [forceCheckPayment(hash)], when nothing else runs between the two parts
    of the check; the object it returns is [{ success: true, data: monitor }],
    given here by [monitor]. The [catch] clause logs and throws again. *)
Definition forceCheckPayment (now settled : Z) (answer : outcome CheckResult.t)
    (hash : jsstring) : M ref :=
  monitors ← gets activeMonitors ;
  match Map_get hash monitors with
  | None => throw (str "Payment with hash " ++ hash ++ str " not found")
  | Some monitor =>
      tryCatch
        (checkSinglePayment now settled answer hash monitor ;;
         mret monitor)
        (fun error => throw error)
  end.

(** A row of [forceCheckAllPayments()]: [{ hash, success: true, data }] or
    [{ hash, success: false, error }]. *)
Inductive ForcedCheck : Type :=
| checked (hash : jsstring) (data : ref)
| failed (hash : jsstring) (error : jsstring).

(** [forceCheckAllPayments()]: the checks run one after the other, each
    awaited before the next; [clock] is [Date.now()] when the check of a
    fingerprint starts, [checker] what its status check settles with and
    when. Nothing else runs in between. *)
Fixpoint forceCheckEach (clock : jsstring -> Z) (checker : StatusChecker)
    (monitors : list (jsstring * ref)) : M (list ForcedCheck) :=
  match monitors with
  | [] => mret []
  | (hash, monitor) :: rest =>
      row ← tryCatch
              (checkSinglePayment (clock hash) (snd (checker hash))
                 (fst (checker hash)) hash monitor ;;
               mret (checked hash monitor))
              (fun error => mret (failed hash error)) ;
      rows ← forceCheckEach clock checker rest ;
      mret (row :: rows)
  end.

Definition forceCheckAllPayments (clock : jsstring -> Z) (checker : StatusChecker)
    : M (list ForcedCheck) :=
  monitors ← gets activeMonitors ;
  forceCheckEach clock checker monitors.

(** ** More invariants *)

(** The queue holds a payment for the registered fingerprints, and for no
    other. *)
Definition queueMatches (s : t) : Prop :=
  forall F, is_Some (paymentQueue s !! F) <-> is_Some (Map_get F (activeMonitors s)).

(** Every registered entry is in the index of its session, and the index
    has no session without a fingerprint. *)
Definition indexed (s : t) : Prop :=
  (forall F info, get F s = Some info -> inSession F (MonitorInfo.sessionId info) s)
  /\ (forall sid payments, userSessions s !! sid = Some payments -> payments <> ∅).


End AutoPaymentMonitor.

(** * The payment service: class [PaymentService] *)

(** The [paymentData] of [createPayment]. The attributes are strings, or
    absent; [amount] is any value; [isStatic] is the truth value of the
    attribute. *)
Module PaymentRequest.
Record t : Type := {
  amount : Value.t;
  currency : option jsstring;
  billNumber : option jsstring;
  storeLabel : option jsstring;
  terminalLabel : option jsstring;
  merchantName : option jsstring;
  merchantCity : option jsstring;
  isStatic : bool;
  callback : option jsstring;
  appIconUrl : option jsstring;
  appName : option jsstring;
  sessionId : option jsstring
}.
End PaymentRequest.

(** The variables of the environment that the service reads; the first
    four are set in a deployment. *)
Module Env.
Record t : Type := {
  BAKONG_MERCHANT_ID : jsstring;
  BAKONG_PHONE_NUMBER : jsstring;
  DEFAULT_MERCHANT_NAME : jsstring;
  DEFAULT_MERCHANT_CITY : jsstring;
  BAKONG_DEVELOPER_TOKEN : option jsstring;
  BAKONG_API_URL : option jsstring
}.
End Env.

(** The object that [createPayment] makes, returns and stores. [createdAt]
    and [lastChecked] are the instants that their ISO strings denote;
    [lastChecked] and [paymentDetails] are absent until a check sets them. *)
Module Transaction.
Record t : Type := {
  transactionId : jsstring;
  qrCode : jsstring;
  md5Hash : jsstring;
  imagePath : option jsstring;
  deepLink : Value.t;
  createdAt : Z;
  status : jsstring;
  paymentData : PaymentRequest.t;
  lastChecked : option Z;
  paymentDetails : Value.t
}.

Definition checked (status : jsstring) (now : Z) (details : Value.t) (x : t) : t :=
  {| transactionId := transactionId x; qrCode := qrCode x; md5Hash := md5Hash x;
     imagePath := imagePath x; deepLink := deepLink x; createdAt := createdAt x;
     status := status; paymentData := paymentData x; lastChecked := Some now;
     paymentDetails :=
       if Value.truthy details then details else paymentDetails x |}.
End Transaction.

Module PaymentService.

(** A transaction object is reached through a reference: the map of the
    active transactions and the history hold the same objects. *)
Definition ref : Type := nat.

Record t : Type := {
  khqr : BakongKHQR.Client;
  activeTransactions : list (jsstring * ref);
  transactionHistory : list ref;
  autoMonitor : option AutoPaymentMonitor.t;
  transactions : list Transaction.t
}.

Definition constructor (env : Env.t) : t :=
  {| khqr := BakongKHQR.constructor (Env.BAKONG_DEVELOPER_TOKEN env)
               (Env.BAKONG_API_URL env);
     activeTransactions := [];
     transactionHistory := [];
     autoMonitor := None;
     transactions := [] |}.

Definition setAutoMonitor (monitor : AutoPaymentMonitor.t) (s : t) : t :=
  {| khqr := khqr s; activeTransactions := activeTransactions s;
     transactionHistory := transactionHistory s; autoMonitor := Some monitor;
     transactions := transactions s |}.

(** [!data[field]] for an attribute that is a string or absent. *)
Definition given (v : option jsstring) : bool :=
  match v with
  | Some (_ :: _) => true
  | _ => false
  end.

Definition required (present : bool) (field : string) : outcome unit :=
  if present then Returned tt
  else Threw (str "Missing required field: " ++ str field).

Section Service.
Context `{Engine}.

(** [validatePaymentData(data)]. *)
Definition validatePaymentData (data : PaymentRequest.t) : outcome unit :=
  required (Value.truthy (PaymentRequest.amount data)) "amount" ;;
  required (given (PaymentRequest.currency data)) "currency" ;;
  required (given (PaymentRequest.billNumber data)) "billNumber" ;;
  required (given (PaymentRequest.storeLabel data)) "storeLabel" ;;
  required (given (PaymentRequest.terminalLabel data)) "terminalLabel" ;;
  (match PaymentRequest.amount data with
   | Value.number x =>
       if Qle_bool x 0 then Threw (str "Amount must be a positive number")
       else Returned tt
   | Value.nan => Returned tt
   | _ => Threw (str "Amount must be a positive number")
   end) ;;
  let currency := toUpperCase (default [] (PaymentRequest.currency data)) in
  if bool_decide (currency = str "USD") || bool_decide (currency = str "KHR")
  then Returned tt
  else Threw (str "Currency must be USD or KHR").

(** The [options] that [createPayment] hands to [createQR]; the attributes
    are there when [validatePaymentData] has passed. *)
Definition qrOptions (env : Env.t) (paymentData : PaymentRequest.t) : Options.t :=
  {| Options.bankAccount := Env.BAKONG_MERCHANT_ID env;
     Options.merchantName :=
       orElse (PaymentRequest.merchantName paymentData) (Env.DEFAULT_MERCHANT_NAME env);
     Options.merchantCity :=
       orElse (PaymentRequest.merchantCity paymentData) (Env.DEFAULT_MERCHANT_CITY env);
     Options.amount :=
       match PaymentRequest.amount paymentData with
       | Value.number x => x
       | _ => 0
       end;
     Options.currency := default [] (PaymentRequest.currency paymentData);
     Options.storeLabel := default [] (PaymentRequest.storeLabel paymentData);
     Options.phoneNumber := Env.BAKONG_PHONE_NUMBER env;
     Options.billNumber := default [] (PaymentRequest.billNumber paymentData);
     Options.terminalLabel := default [] (PaymentRequest.terminalLabel paymentData);
     Options.isStatic := PaymentRequest.isStatic paymentData |}.

(** What one call of [createPayment] gets from outside: the identifier of
    [uuidv4()], the clock when the payload is stamped, when the transaction
    is dated and when the monitor registers it, what [fs.mkdir] and
    [generateQRImage] settle with, and the network. *)
Record Calls : Type := {
  uuid : jsstring;
  stamped : Z;
  dated : Z;
  registered : Z;
  directory : outcome unit;
  image : outcome unit;
  network : Http.Network
}.

(** [generateMD5] is the MD5 digest of [crypto], in hexadecimal;
    [imageFile name] is [path.join(__dirname, '../temp', name)]. *)
Variable generateMD5 : jsstring -> jsstring.
Variable imageFile : jsstring -> jsstring.

Definition with_autoMonitor (monitor : option AutoPaymentMonitor.t) (s : t) : t :=
  {| khqr := khqr s; activeTransactions := activeTransactions s;
     transactionHistory := transactionHistory s; autoMonitor := monitor;
     transactions := transactions s |}.

(** [createPayment(paymentData)], when nothing else runs while it waits
    for the image and the deep link. *)
Definition createPayment (calls : Calls) (env : Env.t)
    (paymentData : PaymentRequest.t) (s : t) : outcome ref * t :=
  let transactionId := uuid calls in
  match validatePaymentData paymentData ;;
        BakongKHQR.createQR (stamped calls) (qrOptions env paymentData) with
  | Threw error => (Threw error, s)
  | Returned qrCode =>
      let md5Hash := generateMD5 qrCode in
      let billNumber := default [] (PaymentRequest.billNumber paymentData) in
      let imagePath :=
        match directory calls with
        | Threw imageError => None
        | Returned _ => Some (imageFile (str "qr_" ++ billNumber ++ str ".png"))
        end in
      let deepLink :=
        match BakongKHQR.generateDeeplink (khqr s) (network calls) qrCode
                (orElse (PaymentRequest.callback paymentData)
                   (str "https://bakong-test.com/success"))
                (orElse (PaymentRequest.appIconUrl paymentData)
                   (str "https://bakong-test.com/icon.png"))
                (orElse (PaymentRequest.appName paymentData) (str "Bakong Test")) with
        | Returned link => link
        | Threw deepLinkError => Value.null
        end in
      let result :=
        {| Transaction.transactionId := transactionId;
           Transaction.qrCode := qrCode;
           Transaction.md5Hash := md5Hash;
           Transaction.imagePath := imagePath;
           Transaction.deepLink := deepLink;
           Transaction.createdAt := dated calls;
           Transaction.status := str "PENDING";
           Transaction.paymentData := paymentData;
           Transaction.lastChecked := None;
           Transaction.paymentDetails := Value.undefined |} in
      let object := length (transactions s) in
      let stored :=
        {| khqr := khqr s;
           activeTransactions :=
             AutoPaymentMonitor.Map_set transactionId object (activeTransactions s);
           transactionHistory := transactionHistory s ++ [object];
           autoMonitor := autoMonitor s;
           transactions := transactions s ++ [result] |} in
      match autoMonitor s with
      | None => (Returned object, stored)
      | Some monitor =>
          let monitorData :=
            {| PaymentData.md5Hash := md5Hash;
               PaymentData.billNumber := billNumber;
               PaymentData.amount := Options.amount (qrOptions env paymentData);
               PaymentData.currency := default [] (PaymentRequest.currency paymentData);
               PaymentData.storeLabel :=
                 default [] (PaymentRequest.storeLabel paymentData);
               PaymentData.qrCode := qrCode;
               PaymentData.transactionId := transactionId |} in
          match AutoPaymentMonitor.addPayment (registered calls) monitorData
                  (orElse (PaymentRequest.sessionId paymentData) (str "anonymous"))
                  monitor with
          | (Returned _, monitor') =>
              (Returned object, with_autoMonitor (Some monitor') stored)
          | (Threw error, monitor') =>
              (Threw error, with_autoMonitor (Some monitor') stored)
          end
      end
  end.

End Service.

(** What [checkPaymentStatus] resolves to. *)
Module StatusResult.
Record t : Type := {
  identifier : jsstring;
  md5Hash : jsstring;
  status : jsstring;
  paymentDetails : Value.t;
  transaction : option ref;
  checkedAt : Z
}.
End StatusResult.

(** [checkPaymentStatus(identifier)], when nothing else runs while it
    waits; [first] and [second] are the network at its two requests, [now]
    and [checkedAt] the clock when the transaction and the result are
    dated. The logging is left out. *)
Definition checkPaymentStatus (now checkedAt : Z) (first second : Http.Network)
    (identifier : jsstring) (s : t) : outcome StatusResult.t * t :=
  let transaction := AutoPaymentMonitor.Map_get identifier (activeTransactions s) in
  match
    match transaction with
    | None => Returned identifier
    | Some object =>
        match transactions s !! object with
        | Some x => Returned (Transaction.md5Hash x)
        | None => Threw (str "Cannot read properties of undefined (reading 'md5Hash')")
        end
    end
  with
  | Threw error => (Threw error, s)
  | Returned md5Hash =>
      match BakongKHQR.checkPayment (khqr s) first md5Hash with
      | Threw error => (Threw error, s)
      | Returned status =>
          let paymentDetails :=
            if bool_decide (status = str "PAID") then
              match BakongKHQR.getPayment (khqr s) second md5Hash with
              | Returned details => details
              | Threw detailError => Value.null
              end
            else Value.null in
          let s' :=
            match transaction with
            | None => s
            | Some object =>
                {| khqr := khqr s; activeTransactions := activeTransactions s;
                   transactionHistory := transactionHistory s;
                   autoMonitor := autoMonitor s;
                   transactions :=
                     alter (Transaction.checked status now paymentDetails) object
                       (transactions s) |}
            end in
          (Returned {| StatusResult.identifier := identifier;
                       StatusResult.md5Hash := md5Hash;
                       StatusResult.status := status;
                       StatusResult.paymentDetails := paymentDetails;
                       StatusResult.transaction := transaction;
                       StatusResult.checkedAt := checkedAt |}, s')
      end
  end.

(** [getTransaction(transactionId)]: the object, or [null]. *)
Definition getTransaction (transactionId : jsstring) (s : t) : option Transaction.t :=
  object ← AutoPaymentMonitor.Map_get transactionId (activeTransactions s) ;
  transactions s !! object.

(** [getAllTransactions()]. *)
Definition getAllTransactions (s : t) : list Transaction.t :=
  omap (fun entry => transactions s !! snd entry) (activeTransactions s).

(** [array.slice(start)] for a whole number [start]. *)
Definition slice {A : Type} (start : Z) (array : list A) : list A :=
  let len := Z.of_nat (length array) in
  let k := if start <? 0 then Z.max (len + start) 0 else Z.min start len in
  skipn (Z.to_nat k) array.

(** [getTransactionHistory(limit)] for a whole number [limit]. *)
Definition getTransactionHistory (limit : Z) (s : t) : list Transaction.t :=
  omap (fun object => transactions s !! object)
    (rev (slice (- limit) (transactionHistory s))).

(** [cleanupOldTransactions(maxAge)]; [now] is [Date.now()]. *)
Definition cleanupOldTransactions (now maxAge : Z) (s : t) : nat * t :=
  let cutoff := now - maxAge in
  let old (entry : jsstring * ref) : bool :=
    match transactions s !! snd entry with
    | Some x => Transaction.createdAt x <? cutoff
    | None => false
    end in
  (length (List.filter old (activeTransactions s)),
   {| khqr := khqr s;
      activeTransactions := List.filter (fun entry => negb (old entry)) (activeTransactions s);
      transactionHistory := transactionHistory s;
      autoMonitor := autoMonitor s;
      transactions := transactions s |}).

End PaymentService.

(** * The properties of the design document, in its words *)

Module Design.

(** ** The CRC engine: CRC-16/CCITT-FALSE on a 16-bit register

    One round: shift left, and when the bit shifted out was set, XOR with
    the polynomial; the register keeps 16 bits. *)
Definition crcShift (register : Z) : Z :=
  let shifted := (2 * register) mod 2 ^ 16 in
  if Z.testbit register 15 then Z.lxor shifted 0x1021 else shifted.

(** One character: its byte is XORed into the high byte of the register,
    then come eight rounds. *)
Definition crcByte (register byte : Z) : Z :=
  Nat.iter 8 crcShift (Z.lxor register (byte * 2 ^ 8)).

Definition computeCRC16 (bytes : list Z) : Z := fold_left crcByte bytes 0xFFFF.

(** An uppercase hexadecimal digit, and a value written with four of them. *)
Definition hexDigit (d : Z) : Z := if d <? 10 then 48 + d else 55 + d.

Definition hex4 (v : Z) : jsstring :=
  [hexDigit (v / 4096); hexDigit (v / 256 mod 16); hexDigit (v / 16 mod 16);
   hexDigit (v mod 16)].

Definition isUpperHex (c : Z) : Prop := 48 <= c <= 57 \/ 65 <= c <= 70.

(** The byte of a code unit that reaches the register. *)
Definition lowByte (c : Z) : Z := c mod 256.

(** ** The payload: an ordered sequence of TLV fields *)

Record Field : Type := { tag : jsstring; value : jsstring }.

(** The length of a value: decimal, zero-padded to two digits. *)
Definition length2 (n : nat) : jsstring := padStart 2 48 (toString (Z.of_nat n)).

Definition serialize (f : Field) : jsstring :=
  tag f ++ length2 (length (value f)) ++ value f.

Definition serializeAll (fs : list Field) : jsstring := concat (map serialize fs).

(** A field a scanner reads back: a two-character tag and a value of at
    most 99 characters. *)
Definition scannable (f : Field) : Prop :=
  length (tag f) = 2%nat /\ (length (value f) <= 99)%nat.

(** Reading a payload back into its fields. *)
Definition isDigit (c : Z) : bool := (48 <=? c) && (c <=? 57).

Fixpoint decodeFuel (fuel : nat) (s : jsstring) : option (list Field) :=
  match s with
  | [] => Some []
  | t1 :: t2 :: l1 :: l2 :: rest =>
      match fuel with
      | O => None
      | S fuel' =>
          let n := Z.to_nat (10 * (l1 - 48) + (l2 - 48)) in
          if isDigit l1 && isDigit l2 && (n <=? length rest)%nat then
            fs ← decodeFuel fuel' (skipn n rest) ;
            Some ({| tag := [t1; t2]; value := firstn n rest |} :: fs)
          else None
      end
  | _ => None
  end.

Definition decode (s : jsstring) : option (list Field) := decodeFuel (length s) s.

(** The amount of a dynamic payload: the number of hundredths nearest to
    the amount (the larger on a tie), written with two decimal places, the
    trailing zeros and a decimal point left bare removed. *)
Definition hundredths (x : Q) : Z := Qfloor (x * inject_Z 100 + (1 # 2)).

Definition twoDecimals (n : Z) : jsstring :=
  toString (n / 100) ++ str "." ++ [digitChar (n / 10 mod 10); digitChar (n mod 10)].

Definition significant (n : Z) : jsstring :=
  if n mod 100 =? 0 then toString (n / 100)
  else if n mod 10 =? 0 then
    toString (n / 100) ++ str "." ++ [digitChar (n / 10 mod 10)]
  else twoDecimals n.

Definition amountString (x : Q) : jsstring :=
  let sign := if Qle_bool 0 x then [] else str "-" in
  padStart 11 48 (sign ++ significant (hundredths (Qabs x))).

(** The checksum of a payload so far: the CRC of it with the placeholder
    ["6304"] appended. *)
Definition checksum (payloadSoFar : jsstring) : jsstring :=
  hex4 (computeCRC16 (map lowByte (payloadSoFar ++ str "6304"))).

Section Fields.
Context `{Engine}.
Variable now : Z.
Variable o : Options.t.

Definition currencyCode : jsstring :=
  if decide (toUpperCase (Options.currency o) = str "USD") then str "840"
  else str "116".

Definition timestampValue : jsstring :=
  str "00" ++ length2 (length (toString now)) ++ toString now.

Definition amountField : Field :=
  {| tag := str "54"; value := BakongKHQR.paddedAmountStr (Options.amount o) |}.

Definition currencyField : Field := {| tag := str "53"; value := currencyCode |}.

Definition additionalDataValue : jsstring :=
  serializeAll
    [ {| tag := str "01"; value := Options.billNumber o |};
      {| tag := str "02"; value := Options.phoneNumber o |};
      {| tag := str "03"; value := Options.storeLabel o |};
      {| tag := str "07"; value := Options.terminalLabel o |} ].

(** The eight fields that come first in the encoding order. *)
Definition headerFields : list Field :=
  [ {| tag := str "00"; value := str "01" |};
    {| tag := str "01";
       value := if Options.isStatic o then str "11" else str "12" |};
    {| tag := str "29";
       value := serialize {| tag := str "00"; value := Options.bankAccount o |} |};
    {| tag := str "52"; value := str "5999" |};
    {| tag := str "58"; value := str "KH" |};
    {| tag := str "59"; value := Options.merchantName o |};
    {| tag := str "60"; value := Options.merchantCity o |};
    {| tag := str "99"; value := timestampValue |} ].

Definition additionalDataField : Field :=
  {| tag := str "62"; value := additionalDataValue |}.

(** The fields before the checksum, in the encoding order. *)
Definition bodyFields : list Field :=
  headerFields
  ++ (if Options.isStatic o then [] else [amountField])
  ++ [currencyField; additionalDataField].

Definition checksumField : Field :=
  {| tag := str "63"; value := checksum (serializeAll bodyFields) |}.

Definition payloadFields : list Field := bodyFields ++ [checksumField].

(** The length ceilings, in the order the attributes are encoded: the name
    of the attribute, the length of its value and its ceiling. *)
Definition lengthChecks : list (jsstring * nat * Z) :=
  [ (str "Bank account", length (Options.bankAccount o), 32);
    (str "Merchant name", length (Options.merchantName o), 25);
    (str "Merchant city", length (Options.merchantCity o), 15) ]
  ++ (if Options.isStatic o then []
      else [ (str "Amount",
              length (BakongKHQR.paddedAmountStr (Options.amount o)), 14) ])
  ++ [ (str "Bill number", length (Options.billNumber o), 25);
       (str "Phone number", length (Options.phoneNumber o), 25);
       (str "Store label", length (Options.storeLabel o), 25);
       (str "Terminal label", length (Options.terminalLabel o), 25) ].

End Fields.

Definition exceeds (c : jsstring * nat * Z) : Prop := Z.of_nat (snd (fst c)) > snd c.

Definition exceedsb (c : jsstring * nat * Z) : bool := Z.of_nat (snd (fst c)) >? snd c.

(** The [FieldTooLong] condition: the name, the ceiling, the actual length. *)
Definition fieldTooLong (c : jsstring * nat * Z) : jsstring :=
  fst (fst c) ++ str " cannot exceed " ++ toString (snd c)
    ++ str " characters. Your input length: "
    ++ toString (Z.of_nat (snd (fst c))) ++ str " characters.".

End Design.

(** The [k] low hexadecimal digits of [v], uppercase, most significant first. *)
Fixpoint hexDigits (k : nat) (v : Z) : jsstring :=
  match k with
  | O => []
  | S k' => hexDigits k' (v / 16) ++ [Design.hexDigit (v mod 16)]
  end.

(** The payload of the sample payment at the clock 1700000000000. *)
Definition samplePayload : jsstring :=
  Eval vm_compute in
    match @BakongKHQR.createQR asciiEngine 1700000000000
            (sampleOptions false (21 # 2)) with
    | Returned p => p
    | Threw _ => []
    end.

(** * A sample run of the monitor *)

Module Sample.
Import AutoPaymentMonitor.

Definition payment (md5Hash : string) : PaymentData.t :=
  {| PaymentData.md5Hash := str md5Hash;
     PaymentData.billNumber := str "INV001";
     PaymentData.amount := 21 # 2;
     PaymentData.currency := str "USD";
     PaymentData.storeLabel := str "Store";
     PaymentData.qrCode := samplePayload;
     PaymentData.transactionId := str "t-1" |}.

Definition answer (status : string) : CheckResult.t :=
  {| CheckResult.identifier := str "F";
     CheckResult.md5Hash := str "F";
     CheckResult.status := str status;
     CheckResult.paymentDetails := None;
     CheckResult.checkedAt := str "2024-01-01T00:00:12.000Z" |}.

(** The service finds ["F"] paid and fails for every other fingerprint. *)
Definition paidChecker : StatusChecker := fun md5Hash =>
  if decide (md5Hash = str "F") then (Returned (answer "PAID"), 12000)
  else (Threw (str "Bakong server is busy, please try again later."), 12500).

(** The checks settle in the reverse of the order of issue. *)
Definition lastFirst : SettleOrder := @rev (jsstring * ref).

(** The monitor is started, then ["F"] and ["G"] are registered for the
    session ["S"] at the clocks 1000 and 1001. *)
Definition started : World :=
  {| monitor := exec start (monitor initial); inflight := inflight initial |}.

Definition withF : World :=
  {| monitor := exec (addPayment 1000 (payment "F") (str "S")) (monitor started);
     inflight := inflight started |}.

Definition withG : World :=
  {| monitor := exec (addPayment 1001 (payment "G") (str "S")) (monitor withF);
     inflight := inflight withF |}.

Definition registered : t := monitor withG.

(** The same after a check of ["F"] at the clock 5000 answered UNPAID. *)
Definition checkedOnce : t :=
  exec (checkSinglePayment 5000 5200 (Returned (answer "UNPAID")) (str "F") 0%nat)
    registered.

End Sample.

(** * A sample request to the payment service *)

Module SampleService.

Definition request : PaymentRequest.t :=
  {| PaymentRequest.amount := Value.number (21 # 2);
     PaymentRequest.currency := Some (str "usd");
     PaymentRequest.billNumber := Some (str "INV001");
     PaymentRequest.storeLabel := Some (str "Store");
     PaymentRequest.terminalLabel := Some (str "POS-01");
     PaymentRequest.merchantName := None;
     PaymentRequest.merchantCity := None;
     PaymentRequest.isStatic := false;
     PaymentRequest.callback := None;
     PaymentRequest.appIconUrl := None;
     PaymentRequest.appName := None;
     PaymentRequest.sessionId := None |}.

Definition env : Env.t :=
  {| Env.BAKONG_MERCHANT_ID := str "merchant@bank";
     Env.BAKONG_PHONE_NUMBER := str "85512345678";
     Env.DEFAULT_MERCHANT_NAME := str "Store Name";
     Env.DEFAULT_MERCHANT_CITY := str "Phnom Penh";
     Env.BAKONG_DEVELOPER_TOKEN := None;
     Env.BAKONG_API_URL := None |}.

End SampleService.

(** * Properties of the JavaScript primitives *)

Section Digits.
Variable radix : Z.
Hypothesis radix_ge_2 : 2 <= radix.

Lemma digitsFuel_enough (f1 f2 : nat) (n : Z) :
  0 <= n < 2 ^ Z.of_nat (S f1) -> n < 2 ^ Z.of_nat (S f2) ->
  digitsFuel (S f1) radix n = digitsFuel (S f2) radix n.
Proof using radix_ge_2.
  revert f2 n. induction f1 as [|f1 IH]; intros f2 n Hn1 Hn2.
  - change (2 ^ Z.of_nat 1) with 2 in Hn1.
    cbn [digitsFuel]. rewrite Z.div_small by lia. reflexivity.
  - cbn [digitsFuel]. destruct (n / radix =? 0) eqn:Hq; [reflexivity|].
    apply Z.eqb_neq in Hq. f_equal.
    assert (Hlt : n / radix <= n / 2).
    { apply Z.div_le_compat_l; lia. }
    assert (Hpos : 0 < n / radix).
    { pose proof (Z.div_pos n radix). lia. }
    destruct f2 as [|f2].
    { change (2 ^ Z.of_nat 1) with 2 in Hn2.
      rewrite Z.div_small in Hq; lia. }
    fold (digitsFuel (S f1) radix (n / radix)).
    fold (digitsFuel (S f2) radix (n / radix)).
    rewrite (Nat2Z.inj_succ (S f1)), Z.pow_succ_r in Hn1 by lia.
    rewrite (Nat2Z.inj_succ (S f2)), Z.pow_succ_r in Hn2 by lia.
    apply IH.
    + assert (n / 2 < 2 ^ Z.of_nat (S f1)) by (apply Z.div_lt_upper_bound; lia).
      lia.
    + assert (n / 2 < 2 ^ Z.of_nat (S f2)) by (apply Z.div_lt_upper_bound; lia).
      lia.
Qed.

Lemma log2_fuel (n : Z) : 0 <= n -> n < 2 ^ Z.of_nat (S (Z.to_nat (Z.log2 n))).
Proof.
  intros Hn. rewrite Nat2Z.inj_succ, Z2Nat.id by apply Z.log2_nonneg.
  destruct (Z.eq_dec n 0) as [->|Hne]; [reflexivity|].
  apply Z.log2_spec. lia.
Qed.

Lemma digits_fuel (f : nat) (n : Z) :
  0 <= n < 2 ^ Z.of_nat (S f) -> digits radix n = digitsFuel (S f) radix n.
Proof using radix_ge_2.
  intros Hn. unfold digits. apply digitsFuel_enough; [|lia].
  split; [lia|]. apply log2_fuel. lia.
Qed.

(** The digits of a number: those of the quotient, then the last one. *)
Lemma digits_step (n : Z) :
  0 <= n ->
  digits radix n =
    (if n / radix =? 0 then [] else digits radix (n / radix))
      ++ [digitChar (n mod radix)].
Proof using radix_ge_2.
  intros Hn. pose proof (log2_fuel n Hn) as Hb.
  unfold digits at 1.
  cbn [digitsFuel]. destruct (n / radix =? 0) eqn:Hq; [reflexivity|].
  f_equal. apply Z.eqb_neq in Hq.
  assert (0 < n / radix) by (pose proof (Z.div_pos n radix); lia).
  assert (n / radix <= n / 2) by (apply Z.div_le_compat_l; lia).
  destruct (Z.to_nat (Z.log2 n)) as [|f] eqn:Hf.
  { change (2 ^ Z.of_nat 1) with 2 in Hb. rewrite Z.div_small in Hq; lia. }
  symmetry. apply digits_fuel.
  rewrite (Nat2Z.inj_succ (S f)), Z.pow_succ_r in Hb by lia.
  assert (n / 2 < 2 ^ Z.of_nat (S f)) by (apply Z.div_lt_upper_bound; lia).
  lia.
Qed.

Lemma digits_small (n : Z) :
  0 <= n < radix -> digits radix n = [digitChar n].
Proof using radix_ge_2.
  intros Hn. rewrite digits_step by lia.
  rewrite Z.div_small, Z.mod_small by lia. reflexivity.
Qed.

Lemma digits_large (n : Z) :
  radix <= n ->
  digits radix n = digits radix (n / radix) ++ [digitChar (n mod radix)].
Proof using radix_ge_2.
  intros Hn. rewrite digits_step by lia.
  destruct (n / radix =? 0) eqn:Hq; [|reflexivity].
  apply Z.eqb_eq in Hq. apply Z.div_small_iff in Hq; lia.
Qed.

(** A number below [radix ^ k] has at most [k] digits, and at least one. *)
Lemma digits_length_le (k : nat) (n : Z) :
  0 <= n < radix ^ Z.of_nat (S k) -> (1 <= length (digits radix n) <= S k)%nat.
Proof using radix_ge_2.
  revert n. induction k as [|k IH]; intros n Hn.
  - rewrite digits_small; [simpl; lia|]. simpl in Hn. lia.
  - destruct (Z_lt_le_dec n radix) as [Hlt|Hge].
    + rewrite digits_small by lia. simpl. lia.
    + rewrite digits_large by lia. rewrite length_app. simpl.
      assert (0 <= n / radix < radix ^ Z.of_nat (S k)).
      { split; [apply Z.div_pos; lia|].
        apply Z.div_lt_upper_bound; [lia|].
        rewrite (Nat2Z.inj_succ (S k)), Z.pow_succ_r in Hn by lia. lia. }
      specialize (IH _ H). lia.
Qed.

(** A number from [radix ^ k] on has more than [k] digits. *)
Lemma digits_length_gt (k : nat) (n : Z) :
  radix ^ Z.of_nat k <= n -> (k < length (digits radix n))%nat.
Proof using radix_ge_2.
  revert n. induction k as [|k IH]; intros n Hn.
  - simpl in Hn. destruct (Z_lt_le_dec n radix).
    + rewrite digits_small by lia. simpl. lia.
    + rewrite digits_large by lia. rewrite length_app. simpl. lia.
  - rewrite Nat2Z.inj_succ, Z.pow_succ_r in Hn by lia.
    assert (0 < radix ^ Z.of_nat k) by (apply Z.pow_pos_nonneg; lia).
    rewrite digits_large by nia. rewrite length_app. simpl.
    assert (radix ^ Z.of_nat k <= n / radix).
    { apply Z.div_le_lower_bound; lia. }
    specialize (IH _ H0). lia.
Qed.

(** Every digit is the character of a value below the radix. *)
Lemma digits_Forall (n : Z) :
  0 <= n ->
  Forall (fun c => exists d, 0 <= d < radix /\ c = digitChar d) (digits radix n).
Proof using radix_ge_2.
  intros Hn.
  assert (Hk : exists k : nat, n < Z.of_nat k) by (exists (S (Z.to_nat n)); lia).
  destruct Hk as [k Hk]. revert n Hn Hk.
  induction k as [|k IH]; intros n Hn Hk; [lia|].
  rewrite digits_step by lia.
  apply Forall_app. split.
  - destruct (n / radix =? 0) eqn:Hq; [constructor|].
    apply IH; [apply Z.div_pos; lia|].
    apply Z.eqb_neq in Hq.
    assert (n <> 0) by (intros ->; apply Hq, Z.div_0_l; lia).
    assert (n / radix < n); [|lia].
    apply Z.div_lt; lia.
  - constructor; [|constructor]. exists (n mod radix). split; [|reflexivity].
    apply Z.mod_pos_bound. lia.
Qed.

End Digits.

Lemma length_padStart (target : nat) (fill : Z) (s : jsstring) :
  length (padStart target fill s) = Nat.max target (length s).
Proof. unfold padStart. rewrite length_app, repeat_length. lia. Qed.

Lemma padStart_long (target : nat) (fill : Z) (s : jsstring) :
  (target <= length s)%nat -> padStart target fill s = s.
Proof.
  intros Hlen. unfold padStart.
  replace (target - length s)%nat with 0%nat by lia. reflexivity.
Qed.

(** * The CRC engine *)

Section CRC.
Context `{Engine}.
Import BakongKHQR.

Lemma land_bit15 (x : Z) :
  (Z.land x 0x8000 =? 0) = negb (Z.testbit x 15).
Proof.
  change 0x8000 with (2 ^ 15).
  destruct (Z.testbit x 15) eqn:Hbit; simpl.
  - apply Z.eqb_neq. intros Hz.
    assert (Hb : Z.testbit (Z.land x (2 ^ 15)) 15 = true).
    { rewrite Z.land_spec, Hbit. reflexivity. }
    rewrite Hz in Hb. rewrite Z.bits_0 in Hb. discriminate.
  - apply Z.eqb_eq. apply Z.bits_inj'. intros n Hn.
    rewrite Z.land_spec, Z.bits_0, Z.pow2_bits_eqb by lia.
    destruct (Z.eqb_spec 15 n) as [<-|Hne].
    + rewrite Hbit. reflexivity.
    + apply andb_false_r.
Qed.

Lemma lxor_mod_pow2 (a b n : Z) :
  0 <= n -> Z.lxor a b mod 2 ^ n = Z.lxor (a mod 2 ^ n) (b mod 2 ^ n).
Proof.
  intros Hn. apply Z.bits_inj'. intros m Hm.
  rewrite Z.lxor_spec. destruct (Z_lt_le_dec m n) as [Hlt|Hge].
  - rewrite !Z.mod_pow2_bits_low by lia. apply Z.lxor_spec.
  - rewrite !Z.mod_pow2_bits_high by lia. reflexivity.
Qed.

Lemma lxor_below (a b : Z) :
  0 <= a < 2 ^ 16 -> 0 <= b < 2 ^ 16 -> 0 <= Z.lxor a b < 2 ^ 16.
Proof.
  intros Ha Hb.
  rewrite <- (Z.mod_small a (2 ^ 16)), <- (Z.mod_small b (2 ^ 16)) by lia.
  rewrite <- lxor_mod_pow2 by lia. apply Z.mod_pos_bound. lia.
Qed.

Lemma crcShift_range (r : Z) : 0 <= Design.crcShift r < 2 ^ 16.
Proof.
  unfold Design.crcShift.
  assert (0 <= (2 * r) mod 2 ^ 16 < 2 ^ 16) by (apply Z.mod_pos_bound; lia).
  destruct (Z.testbit r 15); [|lia].
  apply lxor_below; lia.
Qed.

(** A round of the source sees only the low 16 bits of its register. *)
Lemma crcRound_crcShift (x : Z) : crcRound x = Design.crcShift (x mod 2 ^ 16).
Proof.
  unfold crcRound, Design.crcShift, polynomial.
  rewrite land_bit15.
  rewrite Z.mod_pow2_bits_low by lia.
  change 0xFFFF with (Z.ones 16).
  rewrite Z.mul_mod_idemp_r by lia.
  destruct (Z.testbit x 15); simpl negb; cbv iota.
  - rewrite Z.land_ones, lxor_mod_pow2 by lia.
    rewrite Z.shiftl_mul_pow2 by lia.
    rewrite (Z.mul_comm x). reflexivity.
  - rewrite Z.land_ones, Z.shiftl_mul_pow2 by lia.
    rewrite (Z.mul_comm x). reflexivity.
Qed.

Lemma iter_crcShift_range (n : nat) (r : Z) :
  0 <= r < 2 ^ 16 -> 0 <= Nat.iter n Design.crcShift r < 2 ^ 16.
Proof.
  intros Hr. destruct n as [|n]; [exact Hr|]. simpl. apply crcShift_range.
Qed.

Lemma iter_crcRound (n : nat) (r : Z) :
  0 <= r < 2 ^ 16 -> Nat.iter n crcRound r = Nat.iter n Design.crcShift r.
Proof.
  intros Hr. induction n as [|n IH]; [reflexivity|].
  simpl. rewrite IH, crcRound_crcShift.
  rewrite Z.mod_small by (apply iter_crcShift_range; exact Hr). reflexivity.
Qed.

Lemma crcByte_range (r b : Z) : 0 <= Design.crcByte r b < 2 ^ 16.
Proof. unfold Design.crcByte. simpl. apply crcShift_range. Qed.

(** A turn of the outer loop is a step of the design on the low byte. *)
Lemma crcChar_crcByte (r c : Z) :
  0 <= r < 2 ^ 16 -> crcChar r c = Design.crcByte r (Design.lowByte c).
Proof.
  intros Hr. unfold crcChar, Design.crcByte, Design.lowByte.
  rewrite !(Nat.iter_succ_r 7).
  rewrite crcRound_crcShift, lxor_mod_pow2 by lia.
  rewrite (Z.mod_small r) by lia.
  rewrite Z.shiftl_mul_pow2 by lia.
  change (2 ^ 16) with (2 ^ 8 * 2 ^ 8) at 1.
  rewrite Z.mul_mod_distr_r by lia.
  change (2 ^ 8) with 256.
  apply iter_crcRound. apply crcShift_range.
Qed.

Lemma fold_crcChar (data : jsstring) (r : Z) :
  0 <= r < 2 ^ 16 ->
  fold_left crcChar data r =
    fold_left Design.crcByte (map Design.lowByte data) r.
Proof.
  revert r. induction data as [|c data IH]; intros r Hr; [reflexivity|].
  simpl. rewrite crcChar_crcByte by exact Hr. apply IH, crcByte_range.
Qed.

Lemma computeCRC16_range (bytes : list Z) :
  0 <= Design.computeCRC16 bytes < 2 ^ 16.
Proof.
  unfold Design.computeCRC16.
  assert (Hgen : forall r, 0 <= r < 2 ^ 16 ->
                           0 <= fold_left Design.crcByte bytes r < 2 ^ 16).
  { induction bytes as [|b bytes IH]; intros r Hr; [exact Hr|].
    simpl. apply IH, crcByte_range. }
  apply Hgen. lia.
Qed.

Lemma crcRegister_computeCRC16 (data : jsstring) :
  crcRegister data = Design.computeCRC16 (map Design.lowByte data).
Proof.
  unfold crcRegister, Design.computeCRC16. apply fold_crcChar. lia.
Qed.

Lemma digitChar_ascii (d : Z) : 0 <= d < 36 -> isAscii (digitChar d).
Proof. unfold isAscii, digitChar. destruct (d <? 10) eqn:E; lia. Qed.

Lemma digits_ascii (radix n : Z) :
  2 <= radix <= 36 -> 0 <= n -> Forall isAscii (digits radix n).
Proof.
  intros Hr Hn. eapply Forall_impl; [apply (digits_Forall radix); lia|].
  intros c (d & Hd & ->). apply digitChar_ascii. lia.
Qed.

Lemma upperAscii_digitChar (d : Z) :
  0 <= d < 16 -> upperAscii (digitChar d) = Design.hexDigit d.
Proof.
  intros Hd. unfold upperAscii, digitChar, Design.hexDigit.
  destruct (d <? 10) eqn:E.
  - destruct ((97 <=? 48 + d) && (48 + d <=? 122)) eqn:E'; [lia|reflexivity].
  - destruct ((97 <=? 87 + d) && (87 + d <=? 122)) eqn:E'; lia.
Qed.

Lemma hexDigits_0 (k : nat) : hexDigits k 0 = repeat 48 k.
Proof.
  induction k as [|k IH]; [reflexivity|].
  cbn [hexDigits]. change (0 / 16) with 0. rewrite IH.
  change (Design.hexDigit (0 mod 16)) with 48.
  symmetry. apply (repeat_cons k 48).
Qed.

Lemma padStart_snoc (k : nat) (fill x : Z) (s : jsstring) :
  padStart (S k) fill (s ++ [x]) = padStart k fill s ++ [x].
Proof.
  unfold padStart. rewrite length_app. simpl length.
  replace (S k - (length s + 1))%nat with (k - length s)%nat by lia.
  apply app_assoc.
Qed.

(** A value below [16 ^ k] rendered by the source with [padStart(k, '0')]. *)
Lemma render_hexDigits (k : nat) (v : Z) :
  0 <= v < 16 ^ Z.of_nat (S k) ->
  padStart (S k) 48 (map upperAscii (digits 16 v)) = hexDigits (S k) v.
Proof.
  revert v. induction k as [|k IH]; intros v Hv.
  - change (16 ^ Z.of_nat 1) with 16 in Hv.
    rewrite digits_small by lia. cbn [hexDigits map].
    rewrite upperAscii_digitChar, Z.mod_small by lia. reflexivity.
  - destruct (Z_lt_le_dec v 16) as [Hlt|Hge].
    + rewrite digits_small by lia. cbn [map].
      change [upperAscii (digitChar v)] with ([] ++ [upperAscii (digitChar v)]).
      rewrite padStart_snoc. cbn [hexDigits].
      rewrite (Z.div_small v 16), (Z.mod_small v 16) by lia.
      change (0 / 16) with 0. rewrite hexDigits_0.
      rewrite upperAscii_digitChar by lia.
      unfold padStart. simpl length. rewrite Nat.sub_0_r, app_nil_r.
      change (Design.hexDigit (0 mod 16)) with 48.
      f_equal. apply (repeat_cons k 48).
    + rewrite digits_large by lia.
      rewrite List.map_app. cbn [map]. rewrite padStart_snoc.
      rewrite upperAscii_digitChar by (apply Z.mod_pos_bound; lia).
      rewrite IH.
      * reflexivity.
      * split; [apply Z.div_pos; lia|].
        apply Z.div_lt_upper_bound; [lia|].
        rewrite (Nat2Z.inj_succ (S k)), Z.pow_succ_r in Hv by lia. lia.
Qed.

(** A 16-bit value rendered by the source: four uppercase digits. *)
Lemma render_hex4 (v : Z) :
  0 <= v < 2 ^ 16 ->
  padStart 4 48 (toUpperCase (toStringRadix 16 v)) = Design.hex4 v.
Proof.
  intros Hv. unfold toStringRadix.
  destruct (v <? 0) eqn:Hneg; [lia|].
  rewrite toUpperCase_ascii by (apply digits_ascii; lia).
  rewrite (render_hexDigits 3) by (change (16 ^ Z.of_nat 4) with (2 ^ 16); lia).
  cbn [hexDigits app]. unfold Design.hex4.
  rewrite !Z.div_div by lia. simpl Z.mul.
  rewrite (Z.mod_small (v / 4096)); [reflexivity|].
  split; [apply Z.div_pos; lia|]. apply Z.div_lt_upper_bound; lia.
Qed.

Lemma hexDigit_upper (d : Z) : 0 <= d < 16 -> Design.isUpperHex (Design.hexDigit d).
Proof.
  intros Hd. unfold Design.isUpperHex, Design.hexDigit.
  destruct (d <? 10) eqn:E; lia.
Qed.

Lemma hex4_upper (v : Z) :
  0 <= v < 2 ^ 16 -> Forall Design.isUpperHex (Design.hex4 v).
Proof.
  intros Hv. unfold Design.hex4.
  repeat apply Forall_cons_2; [..|apply Forall_nil_2]; apply hexDigit_upper.
  - split; [apply Z.div_pos; lia|]. apply Z.div_lt_upper_bound; lia.
  - apply Z.mod_pos_bound; lia.
  - apply Z.mod_pos_bound; lia.
  - apply Z.mod_pos_bound; lia.
Qed.

Lemma length_generateCRC16 (data : jsstring) : length (generateCRC16 data) = 4%nat.
Proof.
  unfold generateCRC16. rewrite crcRegister_computeCRC16.
  rewrite render_hex4 by apply computeCRC16_range. reflexivity.
Qed.

(** C3. The CRC engine is CRC-16/CCITT-FALSE, and a function of its input
    alone: for every string, [generateCRC16] is the register of the design
    (start [0xFFFF], polynomial [0x1021], each character XORed into the
    high byte, eight rounds of shift and conditional XOR kept to 16 bits,
    nothing reflected, no final XOR) after the low bytes of the code units,
    written as exactly four uppercase hexadecimal digits, zero-padded. *)
Theorem generateCRC16_ccitt_false (data : jsstring) :
  let register := Design.computeCRC16 (map Design.lowByte data) in
  generateCRC16 data = Design.hex4 register
  /\ 0 <= register < 2 ^ 16
  /\ length (generateCRC16 data) = 4%nat
  /\ Forall Design.isUpperHex (generateCRC16 data)
  /\ (Forall (fun c => 0 <= c < 256) data -> map Design.lowByte data = data).
Proof.
  intros register.
  assert (Hrange : 0 <= register < 2 ^ 16) by apply computeCRC16_range.
  assert (Heq : generateCRC16 data = Design.hex4 register).
  { unfold generateCRC16. rewrite crcRegister_computeCRC16.
    apply render_hex4, Hrange. }
  split; [exact Heq|]. split; [exact Hrange|].
  split; [apply length_generateCRC16|].
  split; [rewrite Heq; apply hex4_upper, Hrange|].
  clear. intros Hbytes. induction data as [|c l IH]; [reflexivity|].
  inversion Hbytes as [|? ? Hc Hl]; subst. cbn [map].
  rewrite IH by exact Hl. unfold Design.lowByte.
  rewrite Z.mod_small by lia. reflexivity.
Qed.

End CRC.

(** The check value of CRC-16/CCITT-FALSE. *)
Example generateCRC16_check_value :
  @BakongKHQR.generateCRC16 asciiEngine (str "123456789") = str "29B1".
Proof. vm_compute. reflexivity. Qed.

(** * The payload codec *)

Section CodecFacts.
Context `{Engine}.
Import BakongKHQR.

Lemma generateCRC16_hex4 (data : jsstring) :
  generateCRC16 data = Design.hex4 (Design.computeCRC16 (map Design.lowByte data)).
Proof.
  unfold generateCRC16. rewrite crcRegister_computeCRC16.
  apply render_hex4, computeCRC16_range.
Qed.

Lemma formatValue_serialize (t v : jsstring) :
  formatValue t v = Design.serialize {| Design.tag := t; Design.value := v |}.
Proof. reflexivity. Qed.

Lemma crc_checksumField (qrData : jsstring) :
  crc qrData =
    Design.serialize
      {| Design.tag := str "63"; Design.value := Design.checksum qrData |}.
Proof.
  unfold crc, Design.checksum. rewrite generateCRC16_hex4. reflexivity.
Qed.

Lemma validateLength_cases (v : jsstring) (ceiling : Z) (name : jsstring) :
  validateLength v ceiling name =
    if Design.exceedsb (name, length v, ceiling)
    then Threw (Design.fieldTooLong (name, length v, ceiling))
    else Returned tt.
Proof. reflexivity. Qed.

Lemma additionalDataValue_eq (o : Options.t) :
  Design.additionalDataValue o =
    formatValue EMV.BILLNUMBER_TAG (Options.billNumber o)
    ++ formatValue EMV.ADDITION_DATA_FIELD_MOBILE_NUMBER (Options.phoneNumber o)
    ++ formatValue EMV.STORE_LABEL (Options.storeLabel o)
    ++ formatValue EMV.TERMINAL_LABEL (Options.terminalLabel o).
Proof.
  unfold Design.additionalDataValue, Design.serializeAll.
  cbn [map concat]. rewrite app_nil_r. reflexivity.
Qed.

Lemma serializeAll_payloadFields (now : Z) (o : Options.t) :
  Design.serializeAll (Design.payloadFields now o) =
    Design.serializeAll (Design.bodyFields now o)
    ++ Design.serialize (Design.checksumField now o).
Proof.
  unfold Design.payloadFields, Design.serializeAll.
  rewrite List.map_app, concat_app. cbn [map concat].
  rewrite app_nil_r. reflexivity.
Qed.

(** What [createQR] does, in one equation: it throws for the first
    attribute over its ceiling, and otherwise returns the fields of the
    design, serialized in their order. *)
Lemma createQR_characterized (now : Z) (o : Options.t) :
  createQR now o =
    match List.find Design.exceedsb (Design.lengthChecks o) with
    | Some c => Threw (Design.fieldTooLong c)
    | None => Returned (Design.serializeAll (Design.payloadFields now o))
    end.
Proof.
  unfold createQR, globalUniqueIdentifier, merchantName, merchantCity, amount,
    additionalDataField, Design.lengthChecks.
  rewrite !validateLength_cases.
  unfold EMV.INVALID_LENGTH_BAKONG_ACCOUNT, EMV.INVALID_LENGTH_MERCHANT_NAME,
    EMV.INVALID_LENGTH_MERCHANT_CITY, EMV.INVALID_LENGTH_TRANSACTION_AMOUNT,
    EMV.INVALID_LENGTH_BILL_NUMBER, EMV.INVALID_LENGTH_MOBILE_NUMBER,
    EMV.INVALID_LENGTH_STORE_LABEL, EMV.INVALID_LENGTH_TERMINAL_LABEL.
  destruct (Options.isStatic o) eqn:Hstatic; cbn [negb app List.find];
    repeat match goal with
      | |- context [Design.exceedsb ?c] =>
          destruct (Design.exceedsb c) eqn:?; cbn [mbind outcome_bind mret outcome_ret List.find];
          [reflexivity|]
      end.
  all: f_equal; rewrite crc_checksumField;
    match goal with
    | |- ?body ++ Design.serialize
           {| Design.tag := _; Design.value := Design.checksum ?body |} = _ =>
        assert (Hbody : body = Design.serializeAll (Design.bodyFields now o));
        [|rewrite Hbody, serializeAll_payloadFields; reflexivity]
    end.
  all: unfold Design.bodyFields, Design.headerFields,
         Design.additionalDataField, Design.serializeAll;
    rewrite Hstatic; cbn [map concat app];
    rewrite app_nil_r, additionalDataValue_eq;
    rewrite <- !app_assoc; reflexivity.
Qed.

Lemma exceedsb_exceeds (c : jsstring * nat * Z) :
  Design.exceedsb c = true <-> Design.exceeds c.
Proof.
  unfold Design.exceedsb, Design.exceeds.
  rewrite Z.gtb_ltb, Z.ltb_lt. lia.
Qed.

Lemma find_first {A : Type} (f : A -> bool) (pre post : list A) (x : A) :
  List.Forall (fun y => f y = false) pre -> f x = true ->
  List.find f (pre ++ x :: post) = Some x.
Proof.
  intros Hpre Hx. induction Hpre as [|y pre Hy _ IH]; simpl.
  - rewrite Hx. reflexivity.
  - rewrite Hy. exact IH.
Qed.

Lemma find_nowhere {A : Type} (f : A -> bool) (l : list A) :
  (forall x, In x l -> f x = false) -> List.find f l = None.
Proof.
  intros Hall. induction l as [|y l IH]; [reflexivity|].
  simpl. rewrite (Hall y) by (left; reflexivity).
  apply IH. intros x Hx. apply Hall. right. exact Hx.
Qed.

(** C5. The length guard of the codec. The ceilings are those of
    [Design.lengthChecks]: bank account 32, merchant name 25, merchant city
    15, the padded amount string 14 (checked when the payload is dynamic),
    bill number 25, phone number 25, store label 25, terminal label 25.
    - The first attribute over its ceiling, in the encoding order, makes
      [createQR] throw the error that names the attribute, its ceiling and
      its actual length; nothing is returned and nothing is truncated.
    - Hence an attribute over its ceiling always makes [createQR] throw,
      and what it throws names an attribute that is over its ceiling.
    - When every attribute is within its ceiling (a value of exactly the
      ceiling included), [createQR] returns the payload. *)
Theorem createQR_length_guard (now : Z) (o : Options.t) :
  (forall pre c post,
      Design.lengthChecks o = pre ++ c :: post ->
      List.Forall (fun c' => ~ Design.exceeds c') pre -> Design.exceeds c ->
      createQR now o = Threw (Design.fieldTooLong c))
  /\ (forall c, In c (Design.lengthChecks o) -> Design.exceeds c ->
        exists c', In c' (Design.lengthChecks o) /\ Design.exceeds c'
                   /\ createQR now o = Threw (Design.fieldTooLong c'))
  /\ (forall m, createQR now o = Threw m ->
        exists c', In c' (Design.lengthChecks o) /\ Design.exceeds c'
                   /\ m = Design.fieldTooLong c')
  /\ ((forall c, In c (Design.lengthChecks o) -> ~ Design.exceeds c) ->
        createQR now o = Returned (Design.serializeAll (Design.payloadFields now o))).
Proof.
  rewrite createQR_characterized.
  split; [|split; [|split]].
  - intros pre c post Hsplit Hpre Hc. rewrite Hsplit.
    rewrite (find_first _ pre post c); [reflexivity| |].
    + eapply List.Forall_impl; [|exact Hpre].
      intros c' Hc'. simpl in Hc'.
      destruct (Design.exceedsb c') eqn:E; [|reflexivity].
      apply exceedsb_exceeds in E. contradiction.
    + apply exceedsb_exceeds, Hc.
  - intros c Hin Hc.
    destruct (List.find Design.exceedsb (Design.lengthChecks o)) as [c'|] eqn:Hfind.
    + apply List.find_some in Hfind. destruct Hfind as [Hin' Hc'].
      exists c'. split; [exact Hin'|]. split; [|reflexivity].
      apply exceedsb_exceeds, Hc'.
    + apply (List.find_none _ _ Hfind) in Hin.
      apply exceedsb_exceeds in Hc. congruence.
  - intros m Hm.
    destruct (List.find Design.exceedsb (Design.lengthChecks o)) as [c'|] eqn:Hfind;
      [|discriminate].
    apply List.find_some in Hfind. destruct Hfind as [Hin' Hc'].
    exists c'. split; [exact Hin'|]. split; [apply exceedsb_exceeds, Hc'|].
    congruence.
  - intros Hall. rewrite find_nowhere; [reflexivity|].
    intros c Hin. destruct (Design.exceedsb c) eqn:E; [|reflexivity].
    apply exceedsb_exceeds in E. exfalso. exact (Hall c Hin E).
Qed.

Lemma createQR_returned (now : Z) (o : Options.t) (p : jsstring) :
  createQR now o = Returned p ->
  p = Design.serializeAll (Design.payloadFields now o)
  /\ forall c, In c (Design.lengthChecks o) -> ~ Design.exceeds c.
Proof.
  rewrite createQR_characterized.
  destruct (List.find Design.exceedsb (Design.lengthChecks o)) as [c'|] eqn:Hfind;
    [discriminate|].
  intros [= <-]. split; [reflexivity|].
  intros c Hin Hc. apply (List.find_none _ _ Hfind) in Hin.
  apply exceedsb_exceeds in Hc. congruence.
Qed.

(** C6. The checksum of an encoded payload. The payload ends with the
    checksum field: the tag ["63"], the fixed length ["04"] and four
    hexadecimal digits; what precedes it is the payload so far (the fields
    of the design before the checksum), and the four digits are the CRC-16
    of the design (register [0xFFFF], polynomial [0x1021]) of that payload
    so far with the placeholder ["6304"] appended, which is what [crc]
    appends to the payload so far. *)
Theorem createQR_checksum (now : Z) (o : Options.t) (p : jsstring) :
  createQR now o = Returned p ->
  let payloadSoFar := firstn (length p - 8) p in
  let register :=
    Design.computeCRC16 (map Design.lowByte (payloadSoFar ++ str "6304")) in
  let crcValue := Design.checksum payloadSoFar in
  payloadSoFar = Design.serializeAll (Design.bodyFields now o)
  /\ p = payloadSoFar ++ str "63" ++ str "04" ++ crcValue
  /\ crc payloadSoFar = str "63" ++ str "04" ++ crcValue
  /\ crcValue = Design.hex4 register
  /\ 0 <= register < 2 ^ 16
  /\ length crcValue = 4%nat
  /\ Forall Design.isUpperHex crcValue.
Proof.
  intros Hp. apply createQR_returned in Hp. destruct Hp as [Hp _].
  rewrite serializeAll_payloadFields in Hp.
  remember (Design.serializeAll (Design.bodyFields now o)) as body eqn:Hbody.
  assert (Htail : Design.serialize (Design.checksumField now o) =
                    str "63" ++ str "04" ++ Design.checksum body).
  { subst body. reflexivity. }
  assert (Hrange : 0 <= Design.computeCRC16 (map Design.lowByte (body ++ str "6304"))
                   < 2 ^ 16) by apply computeCRC16_range.
  assert (Hupper : Forall Design.isUpperHex (Design.checksum body))
    by (apply hex4_upper, Hrange).
  assert (Hlen : length (Design.checksum body) = 4%nat).
  { rewrite <- (length_generateCRC16 (body ++ str "6304")), generateCRC16_hex4.
    reflexivity. }
  assert (Hfirst : firstn (length p - 8) p = body).
  { rewrite Hp, Htail. rewrite !length_app, Hlen.
    change (length (str "63")) with 2%nat. change (length (str "04")) with 2%nat.
    replace (length body + (2 + (2 + 4)) - 8)%nat with (length body) by lia.
    rewrite List.firstn_app, Nat.sub_diag, List.firstn_all.
    cbn [firstn]. apply app_nil_r. }
  intros payloadSoFar register crcValue. subst payloadSoFar register crcValue.
  rewrite Hfirst. split; [reflexivity|]. split; [rewrite Hp, Htail; reflexivity|].
  split; [apply crc_checksumField|]. split; [reflexivity|].
  split; [exact Hrange|]. split; [exact Hlen|exact Hupper].
Qed.

(** ** Reading a payload back *)

Lemma length2_two_digits (n : nat) :
  (n <= 99)%nat ->
  Design.length2 n = [48 + Z.of_nat n / 10; 48 + Z.of_nat n mod 10].
Proof.
  intros Hn. unfold Design.length2, toString, toStringRadix.
  destruct (Z.of_nat n <? 0) eqn:Hneg; [lia|].
  destruct (Z_lt_le_dec (Z.of_nat n) 10) as [Hlt|Hge].
  - rewrite digits_small by lia.
    rewrite Z.div_small, Z.mod_small by lia.
    unfold digitChar. destruct (Z.of_nat n <? 10) eqn:E; [reflexivity|lia].
  - rewrite digits_large by lia.
    assert (0 <= Z.of_nat n / 10 < 10).
    { split; [apply Z.div_pos; lia|]. apply Z.div_lt_upper_bound; lia. }
    assert (0 <= Z.of_nat n mod 10 < 10) by (apply Z.mod_pos_bound; lia).
    rewrite digits_small by lia.
    unfold digitChar.
    destruct (Z.of_nat n / 10 <? 10) eqn:E1; [|lia].
    destruct (Z.of_nat n mod 10 <? 10) eqn:E2; [|lia].
    reflexivity.
Qed.

Lemma decodeFuel_field (fuel : nat) (t1 t2 l1 l2 : Z) (rest : jsstring) :
  Design.decodeFuel (S fuel) (t1 :: t2 :: l1 :: l2 :: rest) =
    let n := Z.to_nat (10 * (l1 - 48) + (l2 - 48)) in
    if Design.isDigit l1 && Design.isDigit l2 && (n <=? length rest)%nat then
      fs ← Design.decodeFuel fuel (skipn n rest) ;
      Some ({| Design.tag := [t1; t2]; Design.value := firstn n rest |} :: fs)
    else None.
Proof. reflexivity. Qed.

Lemma serializeAll_cons (f : Design.Field) (fs : list Design.Field) :
  Design.serializeAll (f :: fs) =
    Design.tag f ++ Design.length2 (length (Design.value f))
      ++ Design.value f ++ Design.serializeAll fs.
Proof.
  unfold Design.serializeAll, Design.serialize. cbn [map concat].
  rewrite <- !app_assoc. reflexivity.
Qed.

Lemma decodeFuel_serializeAll (fs : list Design.Field) (fuel : nat) :
  Forall Design.scannable fs -> (length fs <= fuel)%nat ->
  Design.decodeFuel fuel (Design.serializeAll fs) = Some fs.
Proof.
  revert fuel. induction fs as [|f fs IH]; intros fuel Hfs Hfuel.
  - destruct fuel; reflexivity.
  - inversion Hfs as [|? ? [Htag Hval] Hrest]; subst.
    destruct fuel as [|fuel]; [cbn [length] in Hfuel; lia|].
    specialize (IH fuel Hrest ltac:(cbn [length] in Hfuel; lia)).
    rewrite serializeAll_cons.
    remember (Design.serializeAll fs) as rest eqn:Hrest'.
    destruct f as [t v]. cbn [Design.tag Design.value] in *.
    destruct t as [|t1 [|t2 [|? ?]]]; try discriminate Htag.
    rewrite length2_two_digits by exact Hval.
    cbn [app]. rewrite decodeFuel_field. cbv zeta.
    assert (Hq : 0 <= Z.of_nat (length v) / 10 < 10).
    { split; [apply Z.div_pos; lia|]. apply Z.div_lt_upper_bound; lia. }
    assert (Hr : 0 <= Z.of_nat (length v) mod 10 < 10)
      by (apply Z.mod_pos_bound; lia).
    replace (Z.to_nat (10 * (48 + Z.of_nat (length v) / 10 - 48)
                       + (48 + Z.of_nat (length v) mod 10 - 48)))
      with (length v).
    2:{ pose proof (Z.div_mod (Z.of_nat (length v)) 10). lia. }
    unfold Design.isDigit.
    destruct ((48 <=? 48 + Z.of_nat (length v) / 10)
              && (48 + Z.of_nat (length v) / 10 <=? 57)) eqn:E1; [|lia].
    destruct ((48 <=? 48 + Z.of_nat (length v) mod 10)
              && (48 + Z.of_nat (length v) mod 10 <=? 57)) eqn:E2; [|lia].
    cbn [andb].
    destruct (length v <=? length (v ++ rest))%nat eqn:E3.
    2:{ apply Nat.leb_gt in E3. rewrite length_app in E3. lia. }
    rewrite drop_app_length, take_app_length, IH. reflexivity.
Qed.

Lemma length_serialize_ge (f : Design.Field) :
  (length (Design.tag f) <= length (Design.serialize f))%nat.
Proof. unfold Design.serialize. rewrite length_app. lia. Qed.

Lemma length_serializeAll_ge (fs : list Design.Field) :
  Forall Design.scannable fs ->
  (length fs <= length (Design.serializeAll fs))%nat.
Proof.
  induction 1 as [|f fs [Htag _] _ IH]; [simpl; lia|].
  unfold Design.serializeAll in *. cbn [map concat length].
  rewrite length_app. pose proof (length_serialize_ge f). lia.
Qed.

(** A payload whose fields a scanner can read is read back as it was built. *)
Lemma decode_serializeAll (fs : list Design.Field) :
  Forall Design.scannable fs ->
  Design.decode (Design.serializeAll fs) = Some fs.
Proof.
  intros Hfs. apply decodeFuel_serializeAll; [exact Hfs|].
  apply length_serializeAll_ge, Hfs.
Qed.

Lemma length_length2 (n : nat) : (n <= 99)%nat -> length (Design.length2 n) = 2%nat.
Proof. intros Hn. rewrite length2_two_digits by exact Hn. reflexivity. Qed.

Lemma length_serialize (f : Design.Field) :
  (length (Design.value f) <= 99)%nat ->
  length (Design.serialize f) = (length (Design.tag f) + 2 + length (Design.value f))%nat.
Proof.
  intros Hf. unfold Design.serialize.
  rewrite !length_app, length_length2 by exact Hf. lia.
Qed.

Lemma length_currencyCode (o : Options.t) : length (Design.currencyCode o) = 3%nat.
Proof. unfold Design.currencyCode. case_decide; reflexivity. Qed.

(** The fields of an accepted payload can be read back when the timestamp
    and the additional data leave room for a two-digit length. *)
Lemma payloadFields_scannable (now : Z) (o : Options.t) :
  (forall c, In c (Design.lengthChecks o) -> ~ Design.exceeds c) ->
  (length (toString now) <= 95)%nat ->
  (length (Options.billNumber o) + length (Options.phoneNumber o)
   + length (Options.storeLabel o) + length (Options.terminalLabel o) <= 83)%nat ->
  Forall Design.scannable (Design.payloadFields now o).
Proof.
  intros Hall Hnow Hadd.
  assert (Hin : forall c, In c (Design.lengthChecks o) -> Z.of_nat (snd (fst c)) <= snd c).
  { intros c Hc. specialize (Hall c Hc). unfold Design.exceeds in Hall. lia. }
  unfold Design.lengthChecks in Hin.
  assert (Hbank := Hin (str "Bank account", length (Options.bankAccount o), 32)
                     ltac:(apply in_or_app; left; simpl; tauto)).
  assert (Hname := Hin (str "Merchant name", length (Options.merchantName o), 25)
                     ltac:(apply in_or_app; left; simpl; tauto)).
  assert (Hcity := Hin (str "Merchant city", length (Options.merchantCity o), 15)
                     ltac:(apply in_or_app; left; simpl; tauto)).
  cbn [fst snd] in Hbank, Hname, Hcity.
  unfold Design.payloadFields, Design.bodyFields, Design.headerFields.
  repeat first [apply Forall_app_2 | apply Forall_cons_2 | apply Forall_nil_2];
    try (split; cbn [Design.tag Design.value]; [reflexivity|]).
  - simpl. lia.
  - destruct (Options.isStatic o); simpl; lia.
  - rewrite length_serialize; cbn [Design.tag Design.value]; simpl length; lia.
  - simpl. lia.
  - simpl. lia.
  - lia.
  - lia.
  - unfold Design.timestampValue.
    rewrite !length_app, length_length2 by lia. simpl length. lia.
  - destruct (Options.isStatic o) eqn:Hstatic; [apply Forall_nil_2|].
    apply Forall_cons_2; [|apply Forall_nil_2].
    split; [reflexivity|]. cbn [Design.amountField Design.value].
    assert (Hamount := Hin (str "Amount",
                            length (BakongKHQR.paddedAmountStr (Options.amount o)), 14)
                         ltac:(apply in_or_app; right; apply in_or_app; left;
                               simpl; tauto)).
    cbn [fst snd] in Hamount. lia.
  - cbn [Design.currencyField Design.value].
    rewrite length_currencyCode. lia.
  - cbn [Design.additionalDataField Design.value].
    unfold Design.additionalDataValue, Design.serializeAll. cbn [map concat].
    rewrite !length_app, !length_serialize by (cbn [Design.value]; lia).
    cbn [Design.tag Design.value]. simpl length. lia.
  - unfold Design.checksumField. cbn [Design.value]. unfold Design.checksum.
    simpl length. lia.
Qed.

Lemma tag_differs (a b : string) :
  Design.tag {| Design.tag := str a; Design.value := [] |} <> str b ->
  forall v, Design.tag {| Design.tag := str a; Design.value := v |} <> str b.
Proof. intros Hne v. exact Hne. Qed.

(** C4. The field order of an encoded payload. The payload is the
    serialization, in their order, of the fields of the design, and is read
    back into exactly these fields (when the timestamp and the additional
    data fit a two-digit length). In a dynamic payload ([isStatic] false)
    there is a transaction-amount field (tag ["54"]), it is the only one,
    and the transaction-currency field (tag ["53"]) comes immediately after
    it; in a static payload ([isStatic] true) no field has the tag ["54"]. *)
Theorem createQR_field_order (now : Z) (o : Options.t) (p : jsstring) :
  createQR now o = Returned p ->
  let fields := Design.payloadFields now o in
  p = Design.serializeAll fields
  /\ ((length (toString now) <= 95)%nat ->
      (length (Options.billNumber o) + length (Options.phoneNumber o)
       + length (Options.storeLabel o) + length (Options.terminalLabel o) <= 83)%nat ->
      Design.decode p = Some fields)
  /\ (Options.isStatic o = false ->
      exists pre post,
        fields = pre ++ Design.amountField o :: Design.currencyField o :: post
        /\ Design.tag (Design.amountField o) = EMV.TRANSACTION_AMOUNT
        /\ Design.tag (Design.currencyField o) = EMV.TRANSACTION_CURRENCY
        /\ Forall (fun f => Design.tag f <> EMV.TRANSACTION_AMOUNT)
             (pre ++ Design.currencyField o :: post))
  /\ (Options.isStatic o = true ->
      Forall (fun f => Design.tag f <> EMV.TRANSACTION_AMOUNT) fields).
Proof.
  intros Hp fields. apply createQR_returned in Hp. destruct Hp as [Hp Hall].
  split; [exact Hp|]. split; [|split].
  - intros Hnow Hadd. rewrite Hp. apply decode_serializeAll.
    apply payloadFields_scannable; assumption.
  - intros Hstatic. subst fields.
    unfold Design.payloadFields, Design.bodyFields. rewrite Hstatic.
    exists (Design.headerFields now o),
           [Design.additionalDataField o; Design.checksumField now o].
    split; [rewrite <- !app_assoc; reflexivity|].
    split; [reflexivity|]. split; [reflexivity|].
    unfold Design.headerFields. cbn [app].
    repeat first [apply Forall_cons_2 | apply Forall_nil_2];
      cbn [Design.tag Design.currencyField Design.additionalDataField
             Design.checksumField];
      intros Heq; vm_compute in Heq; discriminate.
  - intros Hstatic. subst fields.
    unfold Design.payloadFields, Design.bodyFields, Design.headerFields.
    rewrite Hstatic. cbn [app].
    repeat first [apply Forall_cons_2 | apply Forall_nil_2];
      cbn [Design.tag Design.currencyField Design.additionalDataField
             Design.checksumField];
      intros Heq; vm_compute in Heq; discriminate.
Qed.

(** ** The amount of a dynamic payload *)

Lemma digitChar_decimal (d : Z) : 0 <= d < 10 -> digitChar d = 48 + d.
Proof. intros Hd. unfold digitChar. destruct (d <? 10) eqn:E; lia. Qed.

Lemma toString_nonneg (n : Z) : 0 <= n -> toString n = digits 10 n.
Proof.
  intros Hn. unfold toString, toStringRadix.
  destruct (n <? 0) eqn:E; [lia|reflexivity].
Qed.

Lemma toString_no_dot (n : Z) : 0 <= n -> Forall (fun c => c <> 46) (toString n).
Proof.
  intros Hn. rewrite toString_nonneg by exact Hn.
  eapply Forall_impl; [apply (digits_Forall 10); lia|].
  intros c (d & Hd & ->). rewrite digitChar_decimal by exact Hd. lia.
Qed.

Lemma hundredths_nonneg (x : Q) : (0 <= x)%Q -> 0 <= Design.hundredths x.
Proof.
  intros Hx. unfold Design.hundredths.
  change 0 with (Qfloor 0). apply Qfloor_resp_le.
  assert (H0 : (0 <= x * inject_Z 100)%Q).
  { apply Qmult_le_0_compat; [exact Hx|]. discriminate. }
  apply (Qle_trans _ (x * inject_Z 100 + 0)%Q).
  - rewrite Qplus_0_r. exact H0.
  - apply Qplus_le_r. discriminate.
Qed.

(** [toFixed(2)] writes the hundredths with two decimal places. *)
Lemma toFixed_twoDecimals (x : Q) :
  (Qabs x < inject_Z (10 ^ 21))%Q ->
  toFixed 2 x =
    (if Qle_bool 0 x then [] else str "-")
      ++ Design.twoDecimals (Design.hundredths (Qabs x)).
Proof.
  intros Hx. unfold toFixed.
  destruct (Qle_bool (inject_Z (10 ^ 21)) (Qabs x)) eqn:Hbig.
  { apply Qle_bool_iff in Hbig. exfalso. exact (Qlt_not_le _ _ Hx Hbig). }
  f_equal.
  change (Qfloor (Qabs x * inject_Z (10 ^ Z.of_nat 2) + (1 # 2)))
    with (Design.hundredths (Qabs x)).
  pose proof (hundredths_nonneg (Qabs x) (Qabs_nonneg x)) as Hn.
  set (n := Design.hundredths (Qabs x)) in *. clearbody n.
  assert (Hm : (if n =? 0 then str "0" else toString n) = digits 10 n).
  { destruct (Z.eqb_spec n 0) as [->|Hne]; [reflexivity|].
    apply toString_nonneg, Hn. }
  rewrite Hm. clear Hm. unfold Design.twoDecimals.
  assert (Hq : 0 <= n / 100) by (apply Z.div_pos; lia).
  rewrite (toString_nonneg (n / 100)) by exact Hq.
  assert (Hd10 : 0 <= n / 10) by (apply Z.div_pos; lia).
  destruct (Z_lt_le_dec n 10) as [Hlt10|Hge10].
  - rewrite (digits_small 10 ltac:(lia) n) by lia.
    rewrite (Z.div_small n 100), (Z.div_small n 10), (Z.mod_small n 10) by lia.
    reflexivity.
  - rewrite (digits_large 10 ltac:(lia) n) by lia.
    destruct (Z_lt_le_dec n 100) as [Hlt100|Hge100].
    + assert (n / 10 < 10) by (apply Z.div_lt_upper_bound; lia).
      rewrite (digits_small 10 ltac:(lia) (n / 10)) by lia.
      rewrite (Z.div_small n 100), (Z.mod_small (n / 10) 10) by lia.
      reflexivity.
    + assert (10 <= n / 10) by (apply Z.div_le_lower_bound; lia).
      rewrite (digits_large 10 ltac:(lia) (n / 10)) by lia.
      rewrite Z.div_div by lia. change (10 * 10) with 100.
      pose proof (digits_length_le 10 ltac:(lia) (Z.to_nat (n / 100)) (n / 100)) as Hlen.
      assert (Hlen1 : (1 <= length (digits 10 (n / 100)))%nat).
      { destruct (Z_lt_le_dec (n / 100) 10).
        - rewrite digits_small by lia. simpl. lia.
        - rewrite digits_large by lia. rewrite length_app. simpl. lia. }
      clear Hlen. set (ip := digits 10 (n / 100)) in *. clearbody ip.
      rewrite <- app_assoc. cbn [app].
      rewrite !length_app. cbn [length].
      destruct (length ip + 2 <=? 2)%nat eqn:E; [apply Nat.leb_le in E; lia|].
      rewrite !length_app. cbn [length].
      replace (length ip + 2 - 2)%nat with (length ip) by lia.
      rewrite take_app_length, drop_app_length. reflexivity.
Qed.

Lemma zeros1_with_dot (a tail : jsstring) : zeros1 (a ++ 46 :: tail) = false.
Proof.
  assert (Hall : forallb (Z.eqb 48) (a ++ 46 :: tail) = false).
  { rewrite forallb_app. cbn [forallb]. change (48 =? 46) with false.
    cbn [andb]. apply andb_false_r. }
  unfold zeros1. destruct (a ++ 46 :: tail); [reflexivity|exact Hall].
Qed.

Lemma replaceDotZeros_cons (c : Z) (r : jsstring) :
  replaceDotZeros (c :: r) =
    if matchDotZeros (c :: r) then [] else c :: replaceDotZeros r.
Proof. reflexivity. Qed.

Lemma matchDotZeros_before_dot (c : Z) (a tail : jsstring) :
  c <> 46 -> matchDotZeros (c :: a ++ 46 :: tail) = false.
Proof.
  intros Hc. unfold matchDotZeros.
  change (c :: a ++ 46 :: tail) with ((c :: a) ++ 46 :: tail).
  rewrite (zeros1_with_dot (c :: a) tail).
  destruct (Z.eqb_spec c 46) as [->|_]; [contradiction|reflexivity].
Qed.

(** Before a decimal point the expression finds nothing to remove. *)
Lemma replaceDotZeros_before_dot (a tail : jsstring) :
  Forall (fun c => c <> 46) a ->
  replaceDotZeros (a ++ 46 :: tail) = a ++ replaceDotZeros (46 :: tail).
Proof.
  induction 1 as [|c a Hc _ IH]; [reflexivity|].
  cbn [app]. rewrite replaceDotZeros_cons.
  rewrite matchDotZeros_before_dot by exact Hc.
  rewrite IH. reflexivity.
Qed.

(** After the decimal point: the two decimals when the last is not zero,
    one when only the last is zero, none, and no point, when both are. *)
Lemma replaceDotZeros_decimals (d1 d2 : Z) :
  0 <= d1 < 10 -> 0 <= d2 < 10 ->
  replaceDotZeros [46; digitChar d1; digitChar d2] =
    if (d1 =? 0) && (d2 =? 0) then []
    else if d2 =? 0 then [46; digitChar d1]
    else [46; digitChar d1; digitChar d2].
Proof.
  intros H1 H2. rewrite !digitChar_decimal by assumption.
  cbn [replaceDotZeros matchDotZeros zeros1 forallb].
  change (46 =? 46) with true. change (48 =? 46) with false.
  destruct (Z.eqb_spec d1 0) as [->|Hd1]; destruct (Z.eqb_spec d2 0) as [->|Hd2];
    cbn [andb orb];
    repeat match goal with
      | |- context [?a =? ?b] =>
          destruct (Z.eqb_spec a b); try lia; cbn [andb orb]
      end; reflexivity.
Qed.

Lemma replaceDotZeros_twoDecimals (sign : jsstring) (n : Z) :
  0 <= n -> Forall (fun c => c <> 46) sign ->
  replaceDotZeros (sign ++ Design.twoDecimals n) = sign ++ Design.significant n.
Proof.
  intros Hn Hsign. unfold Design.twoDecimals, Design.significant.
  assert (Hq : 0 <= n / 100) by (apply Z.div_pos; lia).
  assert (H1 : 0 <= n / 10 mod 10 < 10) by (apply Z.mod_pos_bound; lia).
  assert (H2 : 0 <= n mod 10 < 10) by (apply Z.mod_pos_bound; lia).
  rewrite app_assoc. change (str ".") with [46]. cbn [app].
  rewrite replaceDotZeros_before_dot
    by (apply Forall_app_2; [exact Hsign|apply toString_no_dot, Hq]).
  rewrite replaceDotZeros_decimals by assumption.
  rewrite <- app_assoc. f_equal.
  assert (Hmod : n mod 100 = 10 * (n / 10 mod 10) + n mod 10).
  { pose proof (Z.div_mod n 100). pose proof (Z.div_mod n 10).
    pose proof (Z.div_mod (n / 10) 10). pose proof (Z.mod_pos_bound n 100).
    rewrite Z.div_div in * by lia. change (10 * 10) with 100 in *. lia. }
  destruct (Z.eqb_spec (n / 10 mod 10) 0) as [E1|E1];
    destruct (Z.eqb_spec (n mod 10) 0) as [E2|E2];
    destruct (Z.eqb_spec (n mod 100) 0) as [E3|E3];
    cbn [andb]; try lia; try reflexivity.
  apply app_nil_r.
Qed.

(** The string of the source is the amount string of the design. *)
Lemma paddedAmountStr_amountString (x : Q) :
  (Qabs x < inject_Z (10 ^ 21))%Q ->
  paddedAmountStr x = Design.amountString x.
Proof.
  intros Hx. unfold paddedAmountStr, Design.amountString.
  rewrite toFixed_twoDecimals by exact Hx.
  rewrite replaceDotZeros_twoDecimals; [reflexivity| |].
  - apply hundredths_nonneg, Qabs_nonneg.
  - destruct (Qle_bool 0 x); [apply Forall_nil_2|].
    apply Forall_cons_2; [discriminate|apply Forall_nil_2].
Qed.

(** C1 (amended). The amount field of a dynamic payload. For an amount
    below [10^21] in magnitude (from there on [toFixed] leaves the decimal
    notation), the value of the amount field is the amount string of the
    design: the amount rounded to two decimal places, its trailing zeros
    removed, and the decimal point with them when no decimal is left, then
    padded on the left with ['0'] to eleven characters. The field is
    returned exactly when that string has at most 14 characters. In
    particular the amount 10.50 gives ["000000010.5"] (the decimal point
    stays before the 5) and the amount 10.00 gives ["00000000010"]. *)
Theorem amount_formatting (x : Q) :
  (Qabs x < inject_Z (10 ^ 21))%Q ->
  let field :=
    Design.serialize
      {| Design.tag := EMV.TRANSACTION_AMOUNT;
         Design.value := Design.amountString x |} in
  paddedAmountStr x = Design.amountString x
  /\ (forall f, amount x = Returned f -> f = field)
  /\ ((length (Design.amountString x) <= 14)%nat -> amount x = Returned field)
  /\ paddedAmountStr (21 # 2) = str "000000010.5"
  /\ paddedAmountStr (10 # 1) = str "00000000010".
Proof.
  intros Hx field.
  assert (Heq := paddedAmountStr_amountString x Hx).
  split; [exact Heq|].
  assert (Hcases : amount x =
            if Design.exceedsb (str "Amount", length (Design.amountString x), 14)
            then Threw (Design.fieldTooLong
                          (str "Amount", length (Design.amountString x), 14))
            else Returned field).
  { unfold amount. rewrite validateLength_cases, Heq.
    destruct (Design.exceedsb _); reflexivity. }
  split; [|split; [|split]].
  - intros f Hf. rewrite Hcases in Hf.
    destruct (Design.exceedsb _); [discriminate|]. congruence.
  - intros Hlen. rewrite Hcases.
    destruct (Design.exceedsb _) eqn:E; [|reflexivity].
    apply exceedsb_exceeds in E. unfold Design.exceeds in E.
    cbn [fst snd] in E. lia.
  - rewrite paddedAmountStr_amountString by (vm_compute; reflexivity).
    vm_compute. reflexivity.
  - rewrite paddedAmountStr_amountString by (vm_compute; reflexivity).
    vm_compute. reflexivity.
Qed.

End CodecFacts.

(** ** The codec on a sample payment *)

(** C1, as stated, fails: the amount 10.50 is not encoded as
    ["00000001050"]. *)
Lemma amount_10_50_not_1050 :
  @BakongKHQR.paddedAmountStr asciiEngine (21 # 2) <> str "00000001050".
Proof. vm_compute. discriminate. Qed.

Lemma amount_formatting_witness :
  (Qabs (21 # 2) < inject_Z (10 ^ 21))%Q
  /\ @BakongKHQR.paddedAmountStr asciiEngine (21 # 2) = Design.amountString (21 # 2).
Proof.
  assert (Hx : (Qabs (21 # 2) < inject_Z (10 ^ 21))%Q) by (vm_compute; reflexivity).
  split; [exact Hx|].
  exact (proj1 (@amount_formatting asciiEngine (21 # 2) Hx)).
Defined.

Lemma createQR_sample :
  @BakongKHQR.createQR asciiEngine 1700000000000 (sampleOptions false (21 # 2))
  = Returned samplePayload.
Proof. vm_compute. reflexivity. Qed.

Lemma createQR_field_order_witness :
  Design.decode samplePayload
  = Some (@Design.payloadFields asciiEngine 1700000000000
            (sampleOptions false (21 # 2))).
Proof.
  refine (proj1 (proj2 (@createQR_field_order asciiEngine 1700000000000
                          (sampleOptions false (21 # 2)) samplePayload
                          createQR_sample)) _ _);
    vm_compute; lia.
Defined.

Lemma createQR_checksum_witness :
  samplePayload =
    firstn (length samplePayload - 8) samplePayload ++ str "63" ++ str "04"
      ++ Design.checksum (firstn (length samplePayload - 8) samplePayload).
Proof.
  exact (proj1 (proj2 (@createQR_checksum asciiEngine 1700000000000
                         (sampleOptions false (21 # 2)) samplePayload
                         createQR_sample))).
Defined.

(** * The payment monitor *)

Section MonitorFacts.
Import AutoPaymentMonitor.

(** ** The [Map] of the registry *)

Lemma Map_get_cons {V : Type} (k k' : jsstring) (v : V) (m : list (jsstring * V)) :
  Map_get k ((k', v) :: m) = if decide (k' = k) then Some v else Map_get k m.
Proof.
  unfold Map_get. cbn [List.find fst]. case_decide as Hk.
  - rewrite bool_decide_eq_true_2 by exact Hk. reflexivity.
  - rewrite bool_decide_eq_false_2 by exact Hk. reflexivity.
Qed.

Lemma Map_get_set_eq {V : Type} (k : jsstring) (v : V) (m : list (jsstring * V)) :
  Map_get k (Map_set k v m) = Some v.
Proof.
  induction m as [|[k' v'] m IH]; cbn [Map_set].
  - rewrite Map_get_cons. case_decide; [reflexivity|contradiction].
  - case_decide as Hk; rewrite Map_get_cons.
    + case_decide; [reflexivity|contradiction].
    + case_decide; [contradiction|exact IH].
Qed.

Lemma Map_get_set_ne {V : Type} (k k0 : jsstring) (v : V) (m : list (jsstring * V)) :
  k <> k0 -> Map_get k0 (Map_set k v m) = Map_get k0 m.
Proof.
  intros Hne. induction m as [|[k' v'] m IH]; cbn [Map_set].
  - rewrite Map_get_cons. case_decide; [contradiction|reflexivity].
  - case_decide as Hk; rewrite !Map_get_cons.
    + subst k'. repeat case_decide; try contradiction; reflexivity.
    + case_decide; [reflexivity|exact IH].
Qed.

Lemma Map_delete_cons {V : Type} (k k' : jsstring) (v : V) (m : list (jsstring * V)) :
  Map_delete k ((k', v) :: m) =
    if decide (k' = k) then Map_delete k m else (k', v) :: Map_delete k m.
Proof.
  unfold Map_delete. cbn [List.filter fst]. case_decide as Hk.
  - rewrite bool_decide_eq_true_2 by exact Hk. reflexivity.
  - rewrite bool_decide_eq_false_2 by exact Hk. reflexivity.
Qed.

Lemma Map_get_delete_eq {V : Type} (k : jsstring) (m : list (jsstring * V)) :
  Map_get k (Map_delete k m) = None.
Proof.
  induction m as [|[k' v'] m IH]; [reflexivity|].
  rewrite Map_delete_cons. case_decide as Hk; [exact IH|].
  rewrite Map_get_cons. case_decide; [contradiction|exact IH].
Qed.

Lemma Map_get_delete_ne {V : Type} (k k0 : jsstring) (m : list (jsstring * V)) :
  k <> k0 -> Map_get k0 (Map_delete k m) = Map_get k0 m.
Proof.
  intros Hne. induction m as [|[k' v'] m IH]; [reflexivity|].
  rewrite Map_delete_cons, Map_get_cons. case_decide as Hk.
  - subst k'. case_decide; [contradiction|exact IH].
  - rewrite Map_get_cons. case_decide; [reflexivity|exact IH].
Qed.

Lemma Map_get_In {V : Type} (k : jsstring) (v : V) (m : list (jsstring * V)) :
  Map_get k m = Some v -> In (k, v) m.
Proof.
  induction m as [|[k' v'] m IH]; [discriminate|].
  rewrite Map_get_cons. case_decide as Hk.
  - intros [= ->]. subst k'. left. reflexivity.
  - intros Hget. right. apply IH, Hget.
Qed.

Lemma Map_get_None {V : Type} (k : jsstring) (m : list (jsstring * V)) :
  ~ In k (map fst m) -> Map_get k m = None.
Proof.
  induction m as [|[k' v'] m IH]; [reflexivity|].
  cbn [map fst In]. intros Hnot. rewrite Map_get_cons.
  case_decide as Hk; [exfalso; apply Hnot; left; exact Hk|].
  apply IH. intros Hin. apply Hnot. right. exact Hin.
Qed.

(** A registered key splits the registry around its one entry. *)
Lemma Map_get_split {V : Type} (k : jsstring) (v : V) (m : list (jsstring * V)) :
  NoDup (map fst m) -> Map_get k m = Some v ->
  exists pre post,
    m = pre ++ (k, v) :: post
    /\ ~ In k (map fst pre) /\ ~ In k (map fst post).
Proof.
  induction m as [|[k' v'] m IH]; [discriminate|].
  cbn [map fst]. intros Hnd Hget. apply NoDup_cons in Hnd.
  destruct Hnd as [Hk' Hnd]. rewrite Map_get_cons in Hget.
  case_decide as Hk.
  - injection Hget as ->. subst k'. exists [], m.
    split; [reflexivity|]. split; [intros []|].
    rewrite <- list_elem_of_In. exact Hk'.
  - destruct (IH Hnd Hget) as (pre & post & -> & Hpre & Hpost).
    exists ((k', v') :: pre), post. split; [reflexivity|].
    split; [|exact Hpost]. cbn [map fst In]. intros [Heq|Hin]; [|exact (Hpre Hin)].
    exact (Hk Heq).
Qed.

(** ** Methods that keep a relation *)

Lemma bind_run {A B : Type} (m : M A) (k : A -> M B) (s : t) :
  (m ≫= k) s =
    match m s with
    | (Returned a, s') => k a s'
    | (Threw e, s') => (Threw e, s')
    end.
Proof. reflexivity. Qed.

Lemma tryCatch_run {A : Type} (body : M A) (handler : jsstring -> M A) (s : t) :
  tryCatch body handler s =
    match body s with
    | (Returned a, s') => (Returned a, s')
    | (Threw e, s') => handler e s'
    end.
Proof. reflexivity. Qed.

#[local] Instance keeps_preorder (P : t -> Prop) : PreOrder (keeps P).
Proof. split; unfold keeps; [intros s; tauto|intros s1 s2 s3; tauto]. Qed.

#[local] Instance unchangedFor_preorder (F : jsstring) (l : ref) :
  PreOrder (unchangedFor F l).
Proof.
  split.
  - intros s. split; reflexivity.
  - intros s1 s2 s3 [] []. split; try (etransitivity; eassumption).
    intros sid. etransitivity; eauto.
Qed.

Section Preserves.
Context (R : relation t) `{!PreOrder R}.

Lemma preserves_mret {A : Type} (a : A) : preserves R (mret a).
Proof using PreOrder0. intros s. reflexivity. Qed.

Lemma preserves_gets {A : Type} (f : t -> A) : preserves R (gets f).
Proof using PreOrder0. intros s. reflexivity. Qed.

Lemma preserves_throw {A : Type} (e : jsstring) : preserves R (@throw A e).
Proof using PreOrder0. intros s. reflexivity. Qed.

Lemma preserves_await {A : Type} (answer : outcome A) : preserves R (await answer).
Proof using PreOrder0. intros s. reflexivity. Qed.

Lemma preserves_deref (r : ref) : preserves R (deref r).
Proof using PreOrder0.
  intros s. unfold exec, deref. destruct (objects s !! r); reflexivity.
Qed.

Lemma preserves_modify (f : t -> t) : (forall s, R s (f s)) -> preserves R (modify f).
Proof. intros Hf s. apply Hf. Qed.

Lemma preserves_bind {A B : Type} (m : M A) (k : A -> M B) :
  preserves R m -> (forall a, preserves R (k a)) -> preserves R (m ≫= k).
Proof using PreOrder0.
  intros Hm Hk s. unfold exec. rewrite bind_run.
  specialize (Hm s). unfold exec in Hm.
  destruct (m s) as [[a|e] s']; cbn [snd] in *; [|exact Hm].
  etransitivity; [exact Hm|]. apply Hk.
Qed.

Lemma preserves_tryCatch {A : Type} (body : M A) (handler : jsstring -> M A) :
  preserves R body -> (forall e, preserves R (handler e)) ->
  preserves R (tryCatch body handler).
Proof using PreOrder0.
  intros Hm Hk s. unfold exec. rewrite tryCatch_run.
  specialize (Hm s). unfold exec in Hm.
  destruct (body s) as [[a|e] s']; cbn [snd] in *; [exact Hm|].
  etransitivity; [exact Hm|]. apply Hk.
Qed.

Lemma preserves_logError (e : jsstring) : preserves R (logError e).
Proof using PreOrder0. intros s. reflexivity. Qed.

End Preserves.

(** ** What a turn about another entry leaves alone *)

Section Frame.
Variable F : jsstring.
Variable l : ref.

Lemma unchangedFor_emit (e : Event) :
  isSuccessOf F e = false -> isExpiryOf F e = false ->
  preserves (unchangedFor F l) (emit e).
Proof.
  intros Hs He s. unfold exec, emit, modify. cbn [snd].
  split; cbn; try reflexivity.
  - rewrite List.filter_app. cbn [List.filter]. rewrite Hs. apply app_nil_r.
  - rewrite List.filter_app. cbn [List.filter]. rewrite He. apply app_nil_r.
Qed.

Lemma unchangedFor_update (r : ref) (f : MonitorInfo.t -> MonitorInfo.t) :
  r <> l -> preserves (unchangedFor F l) (update r f).
Proof.
  intros Hr s. unfold exec, update, deref, modify. rewrite bind_run.
  destruct (objects s !! r) as [info|]; cbn [snd]; [|reflexivity].
  split; cbn; try reflexivity.
  apply list_lookup_insert_ne. exact Hr.
Qed.

Lemma inSession_insert (sid sid' : jsstring) (payments : gset jsstring) (s : t) :
  inSession F sid' (with_userSessions (<[sid := payments]> (userSessions s)) s)
  <-> (if decide (sid = sid') then F ∈ payments else inSession F sid' s).
Proof.
  unfold inSession. cbn [userSessions with_userSessions].
  case_decide as Hsid.
  - subst sid'. rewrite lookup_insert_eq. split.
    + intros (p & [= <-] & Hin). exact Hin.
    + intros Hin. exists payments. split; [reflexivity|exact Hin].
  - rewrite lookup_insert_ne by exact Hsid. reflexivity.
Qed.

Lemma inSession_delete (sid sid' : jsstring) (s : t) :
  inSession F sid' (with_userSessions (delete sid (userSessions s)) s)
  <-> sid <> sid' /\ inSession F sid' s.
Proof.
  unfold inSession. cbn [userSessions with_userSessions].
  destruct (decide (sid = sid')) as [->|Hsid].
  - rewrite lookup_delete_eq. split.
    + intros (p & [=] & _).
    + intros [Hne _]. contradiction.
  - rewrite lookup_delete_ne by exact Hsid. tauto.
Qed.

Lemma unchangedFor_removePayment (G : jsstring) :
  G <> F -> preserves (unchangedFor F l) (removePayment G).
Proof.
  intros HG s. unfold exec, removePayment, gets, modify, deref.
  rewrite bind_run. cbn [fst snd].
  destruct (Map_get G (activeMonitors s)) as [r|] eqn:Hget; [|reflexivity].
  rewrite !bind_run. cbn [fst snd objects with_paymentQueue with_activeMonitors].
  assert (Hbase : unchangedFor F l s
            (with_paymentQueue (delete G (paymentQueue s))
               (with_activeMonitors (Map_delete G (activeMonitors s)) s))).
  { split; cbn; try reflexivity.
    - apply Map_get_delete_ne, HG.
    - apply lookup_delete_ne, HG. }
  destruct (objects s !! r) as [info|]; cbn [fst snd]; [|exact Hbase].
  rewrite bind_run. cbn [fst snd userSessions with_paymentQueue with_activeMonitors].
  destruct (userSessions s !! MonitorInfo.sessionId info) as [payments|] eqn:Hsess;
    [|exact Hbase].
  rewrite bind_run. cbn [fst snd].
  etransitivity; [exact Hbase|].
  set (s1 := with_paymentQueue _ _).
  assert (Hs1 : userSessions s1 !! MonitorInfo.sessionId info = Some payments)
    by exact Hsess.
  clearbody s1.
  assert (Hmem : F ∈ payments ∖ {[G]} <-> F ∈ payments).
  { rewrite elem_of_difference, elem_of_singleton. split; [tauto|].
    intros Hin. split; [exact Hin|congruence]. }
  case_decide as Hsize; cbn [snd].
  - split; cbn; try reflexivity. intros sid.
    fold (with_userSessions (<[MonitorInfo.sessionId info := payments ∖ {[G]}]>
                                (userSessions s1)) s1).
    set (s2 := with_userSessions (<[_ := _]> _) s1).
    change (inSession F sid (with_userSessions (delete (MonitorInfo.sessionId info)
                                                 (userSessions s2)) s2)
            <-> inSession F sid s1).
    rewrite inSession_delete. subst s2. rewrite inSession_insert.
    apply size_empty_iff in Hsize.
    case_decide as Hsid.
    + subst sid. split; [intros [Hne _]; contradiction|].
      intros (p & Hp & Hin). rewrite Hs1 in Hp. injection Hp as <-.
      apply Hmem in Hin. rewrite Hsize in Hin.
      destruct (not_elem_of_empty (C:=gset jsstring) F Hin).
    + tauto.
  - split; cbn; try reflexivity. intros sid.
    change (inSession F sid
              (with_userSessions (<[MonitorInfo.sessionId info := payments ∖ {[G]}]>
                                    (userSessions s1)) s1)
            <-> inSession F sid s1).
    rewrite inSession_insert. case_decide as Hsid; [|reflexivity].
    subst sid. rewrite Hmem. unfold inSession. rewrite Hs1. split.
    + intros Hin. exists payments. split; [reflexivity|exact Hin].
    + intros (p & [= <-] & Hin). exact Hin.
Qed.

End Frame.

(** ** Turns about another entry *)

Section FrameTurns.
Variable F : jsstring.
Variable l : ref.

Lemma isSuccessOf_other (G : jsstring) info r d :
  G <> F -> isSuccessOf F (payment_success G info r d) = false.
Proof. intros HG. cbn. apply bool_decide_eq_false_2. exact HG. Qed.

Lemma isExpiryOf_other (G : jsstring) info d :
  G <> F -> isExpiryOf F (payment_expired G info d) = false.
Proof. intros HG. cbn. apply bool_decide_eq_false_2. exact HG. Qed.

Lemma unchangedFor_expirePayment (G : jsstring) (r : ref) :
  G <> F -> preserves (unchangedFor F l) (expirePayment G r).
Proof.
  intros HG. unfold expirePayment.
  apply preserves_bind; [typeclasses eauto|apply unchangedFor_removePayment, HG|].
  intros _. apply preserves_bind; [typeclasses eauto|apply preserves_deref; typeclasses eauto|].
  intros info. apply preserves_bind; [typeclasses eauto|apply preserves_gets; typeclasses eauto|].
  intros d. apply unchangedFor_emit; [reflexivity|apply isExpiryOf_other, HG].
Qed.

Lemma unchangedFor_handlePaymentSuccess (now : Z) (G : jsstring) (r : ref)
    (res : CheckResult.t) :
  G <> F -> preserves (unchangedFor F l) (handlePaymentSuccess now G r res).
Proof.
  intros HG. unfold handlePaymentSuccess.
  apply preserves_bind; [typeclasses eauto|apply unchangedFor_removePayment, HG|].
  intros _. apply preserves_bind; [typeclasses eauto|apply preserves_deref; typeclasses eauto|].
  intros info. apply unchangedFor_emit; [apply isSuccessOf_other, HG|reflexivity].
Qed.

Lemma unchangedFor_issue (now : Z) (G : jsstring) (r : ref) :
  G <> F -> r <> l -> preserves (unchangedFor F l) (checkSinglePayment_issue now G r).
Proof.
  intros HG Hr. unfold checkSinglePayment_issue.
  apply preserves_bind; [typeclasses eauto|apply preserves_deref; typeclasses eauto|].
  intros info. apply preserves_bind; [typeclasses eauto|apply preserves_gets; typeclasses eauto|].
  intros maxTime. destruct (now - MonitorInfo.startTime info >? maxTime).
  - apply preserves_bind; [typeclasses eauto|apply unchangedFor_expirePayment, HG|].
    intros _. apply preserves_mret. typeclasses eauto.
  - apply preserves_bind; [typeclasses eauto|apply unchangedFor_update, Hr|].
    intros _. apply preserves_bind; [typeclasses eauto|apply unchangedFor_update, Hr|].
    intros _. apply preserves_mret. typeclasses eauto.
Qed.

Lemma unchangedFor_settle (now : Z) (answer : outcome CheckResult.t)
    (G : jsstring) (r : ref) :
  G <> F -> r <> l -> preserves (unchangedFor F l) (checkSinglePayment_settle now answer G r).
Proof.
  intros HG Hr. unfold checkSinglePayment_settle.
  apply preserves_bind; [typeclasses eauto|apply preserves_await; typeclasses eauto|].
  intros res. case_decide.
  - apply unchangedFor_handlePaymentSuccess, HG.
  - apply unchangedFor_update, Hr.
Qed.

Lemma unchangedFor_issueOne (now : Z) (e : jsstring * ref) :
  fst e <> F -> snd e <> l -> preserves (unchangedFor F l) (issueOne now e).
Proof.
  intros HG Hr. unfold issueOne.
  apply preserves_tryCatch; [typeclasses eauto|apply unchangedFor_issue; assumption|].
  intros err. apply preserves_bind; [typeclasses eauto|apply preserves_logError; typeclasses eauto|].
  intros _. apply preserves_mret. typeclasses eauto.
Qed.

Lemma unchangedFor_settleOne (checker : StatusChecker) (e : jsstring * ref) :
  fst e <> F -> snd e <> l -> preserves (unchangedFor F l) (settleOne checker e).
Proof.
  intros HG Hr. unfold settleOne.
  apply preserves_tryCatch; [typeclasses eauto|apply unchangedFor_settle; assumption|].
  intros err. apply preserves_logError. typeclasses eauto.
Qed.

End FrameTurns.

(** ** The two passes of a tick *)

Lemma issueOne_returns (now : Z) (e : jsstring * ref) (s : t) :
  exists b, issueOne now e s = (Returned b, exec (issueOne now e) s).
Proof.
  unfold exec, issueOne. rewrite tryCatch_run.
  destruct (checkSinglePayment_issue now (fst e) (snd e) s) as [[b|err] s'].
  - exists b. reflexivity.
  - exists false. reflexivity.
Qed.

Lemma settleOne_returns (checker : StatusChecker) (e : jsstring * ref) (s : t) :
  settleOne checker e s = (Returned tt, exec (settleOne checker e) s).
Proof.
  unfold exec, settleOne. rewrite tryCatch_run.
  destruct (checkSinglePayment_settle _ _ (fst e) (snd e) s) as [[[]|err] s'];
    reflexivity.
Qed.

Lemma issueAll_cons (now : Z) (e : jsstring * ref) (es : list (jsstring * ref)) :
  issueAll now (e :: es) =
    (issuedNow ← issueOne now e ;
     pending ← issueAll now es ;
     mret (if issuedNow : bool then e :: pending else pending)).
Proof. destruct e. reflexivity. Qed.

Lemma settleAll_cons (checker : StatusChecker) (e : jsstring * ref)
    (es : list (jsstring * ref)) :
  settleAll checker (e :: es) = (settleOne checker e ;; settleAll checker es).
Proof. destruct e. reflexivity. Qed.

Lemma issueAll_returns (now : Z) (es : list (jsstring * ref)) (s : t) :
  issueAll now es s = (Returned (issued now es s), exec (issueAll now es) s).
Proof.
  unfold issued, result, exec. revert s.
  induction es as [|e es IH]; intros s; [reflexivity|].
  rewrite issueAll_cons, bind_run.
  destruct (issueOne_returns now e s) as [b ->].
  rewrite bind_run, IH. reflexivity.
Qed.

Lemma settleAll_returns (checker : StatusChecker) (es : list (jsstring * ref)) (s : t) :
  settleAll checker es s = (Returned tt, exec (settleAll checker es) s).
Proof.
  unfold exec. revert s. induction es as [|e es IH]; intros s; [reflexivity|].
  rewrite settleAll_cons, bind_run, settleOne_returns. apply IH.
Qed.

Lemma exec_issueAll_cons (now : Z) e es (s : t) :
  exec (issueAll now (e :: es)) s = exec (issueAll now es) (exec (issueOne now e) s).
Proof.
  unfold exec at 1. rewrite issueAll_cons, bind_run.
  destruct (issueOne_returns now e s) as [b ->].
  rewrite bind_run, issueAll_returns. reflexivity.
Qed.

Lemma issued_cons (now : Z) e es (s : t) :
  issued now (e :: es) s =
    (match result (issueOne now e) s with
     | Returned true => [e]
     | _ => []
     end) ++ issued now es (exec (issueOne now e) s).
Proof.
  unfold issued at 1, result. rewrite issueAll_cons, bind_run.
  destruct (issueOne_returns now e s) as [b Hb]. rewrite Hb.
  rewrite bind_run, issueAll_returns. cbn [fst]. destruct b; reflexivity.
Qed.

Lemma exec_issueAll_app (now : Z) es1 es2 (s : t) :
  exec (issueAll now (es1 ++ es2)) s =
    exec (issueAll now es2) (exec (issueAll now es1) s).
Proof.
  revert s. induction es1 as [|e es1 IH]; intros s; [reflexivity|].
  cbn [app]. rewrite !exec_issueAll_cons. apply IH.
Qed.

Lemma issued_app (now : Z) es1 es2 (s : t) :
  issued now (es1 ++ es2) s =
    issued now es1 s ++ issued now es2 (exec (issueAll now es1) s).
Proof.
  revert s. induction es1 as [|e es1 IH]; intros s; [reflexivity|].
  cbn [app]. rewrite !issued_cons, IH, exec_issueAll_cons, <- app_assoc.
  reflexivity.
Qed.

Lemma issued_incl (now : Z) es (s : t) :
  forall e, In e (issued now es s) -> In e es.
Proof.
  revert s. induction es as [|e0 es IH]; intros s e; [intros []|].
  rewrite issued_cons. intros Hin. apply in_app_or in Hin.
  destruct Hin as [Hin|Hin]; [|right; eapply IH; exact Hin].
  left. destruct (result (issueOne now e0) s) as [[|]|]; cbn in Hin; tauto.
Qed.

Lemma exec_settleAll_cons (checker : StatusChecker) e es (s : t) :
  exec (settleAll checker (e :: es)) s =
    exec (settleAll checker es) (exec (settleOne checker e) s).
Proof.
  unfold exec at 1. rewrite settleAll_cons, bind_run, settleOne_returns.
  reflexivity.
Qed.


(** The second pass consults the service for the checks in flight only. *)
Lemma settleAll_ext (checker checker' : StatusChecker) es :
  (forall e, In e es -> checker (fst e) = checker' (fst e)) ->
  settleAll checker es = settleAll checker' es.
Proof.
  induction es as [|e es IH]; intros Hext; [reflexivity|].
  rewrite !settleAll_cons. unfold settleOne.
  rewrite (Hext e) by (left; reflexivity).
  rewrite IH; [reflexivity|]. intros e' He'. apply Hext. right. exact He'.
Qed.

Lemma unchangedFor_issueAll (F : jsstring) (l : ref) (now : Z) es :
  awayFrom F l es -> preserves (unchangedFor F l) (issueAll now es).
Proof.
  intros Haway s. revert s. induction es as [|e es IH]; intros s; [reflexivity|].
  rewrite exec_issueAll_cons.
  destruct (Haway e ltac:(left; reflexivity)) as [HG Hr].
  etransitivity; [exact (unchangedFor_issueOne F l now e HG Hr s)|].
  apply IH. intros e' He'. apply Haway. right. exact He'.
Qed.

Lemma unchangedFor_settleAll (F : jsstring) (l : ref) (checker : StatusChecker) es :
  awayFrom F l es -> preserves (unchangedFor F l) (settleAll checker es).
Proof.
  intros Haway s. revert s. induction es as [|e es IH]; intros s; [reflexivity|].
  rewrite exec_settleAll_cons.
  destruct (Haway e ltac:(left; reflexivity)) as [HG Hr].
  etransitivity; [exact (unchangedFor_settleOne F l checker e HG Hr s)|].
  apply IH. intros e' He'. apply Haway. right. exact He'.
Qed.

(** ** The turns of a registered entry, in full *)

Lemma removePayment_registered (F : jsstring) (l : ref) (info : MonitorInfo.t) (s : t) :
  Map_get F (activeMonitors s) = Some l -> objects s !! l = Some info ->
  exists s', removePayment F s = (Returned tt, s') /\ removedFrom F info [] s s'.
Proof.
  intros Hget Hobj. unfold removePayment, gets, modify, deref.
  rewrite bind_run. cbn [fst snd]. rewrite Hget.
  rewrite !bind_run. cbn [fst snd objects with_paymentQueue with_activeMonitors].
  rewrite Hobj. rewrite bind_run.
  cbn [fst snd userSessions with_paymentQueue with_activeMonitors].
  set (s1 := with_paymentQueue _ _).
  assert (Hus : userSessions s1 = userSessions s) by reflexivity.
  assert (Hbase : forall us,
            (forall sid, inSession F sid (with_userSessions us s1)
                         <-> inSession F sid s /\ sid <> MonitorInfo.sessionId info) ->
            removedFrom F info [] s (with_userSessions us s1)).
  { intros us Hsess. split; try reflexivity; [exact Hsess|].
    cbn. symmetry. apply app_nil_r. }
  destruct (userSessions s !! MonitorInfo.sessionId info) as [payments|] eqn:Hsess.
  - rewrite bind_run. cbn [fst snd].
    assert (Hnot : F ∉ payments ∖ {[F]}).
    { rewrite elem_of_difference, elem_of_singleton. tauto. }
    case_decide as Hsize.
    + eexists. split; [reflexivity|].
      apply (Hbase (delete (MonitorInfo.sessionId info)
                      (<[MonitorInfo.sessionId info := payments ∖ {[F]}]>
                         (userSessions s1)))).
      intros sid.
      change (inSession F sid
                (with_userSessions
                   (delete (MonitorInfo.sessionId info)
                      (userSessions
                         (with_userSessions
                            (<[MonitorInfo.sessionId info := payments ∖ {[F]}]>
                               (userSessions s1)) s1)))
                   (with_userSessions
                      (<[MonitorInfo.sessionId info := payments ∖ {[F]}]>
                         (userSessions s1)) s1))
              <-> inSession F sid s /\ sid <> MonitorInfo.sessionId info).
      rewrite inSession_delete, inSession_insert.
      case_decide as Hsid; [subst sid; tauto|].
      assert (inSession F sid s1 <-> inSession F sid s) by reflexivity.
      split; [intros [_ Hin]|intros [Hin _]]; split; try tauto; congruence.
    + eexists. split; [reflexivity|].
      apply (Hbase (<[MonitorInfo.sessionId info := payments ∖ {[F]}]>
                      (userSessions s1))).
      intros sid. rewrite inSession_insert.
      case_decide as Hsid; [subst sid; tauto|].
      assert (inSession F sid s1 <-> inSession F sid s) by reflexivity.
      split; [intros Hin|intros [Hin _]]; [split|]; try tauto; congruence.
  - eexists. split; [reflexivity|].
    change s1 with (with_userSessions (userSessions s1) s1).
    apply Hbase. intros sid.
    change (inSession F sid s <-> inSession F sid s /\ sid <> MonitorInfo.sessionId info).
    split; [|tauto]. intros Hin. split; [exact Hin|].
    intros ->. destruct Hin as (p & Hp & _). congruence.
Qed.

Lemma expirePayment_registered (F : jsstring) (l : ref) (info : MonitorInfo.t) (s : t) :
  Map_get F (activeMonitors s) = Some l -> objects s !! l = Some info ->
  exists s', expirePayment F l s = (Returned tt, s')
             /\ removedFrom F info [payment_expired F info (maxMonitorTime s)] s s'.
Proof.
  intros Hget Hobj.
  destruct (removePayment_registered F l info s Hget Hobj) as (s1 & Hrun & Hrem).
  unfold expirePayment. rewrite bind_run, Hrun.
  unfold deref, gets, emit, modify. rewrite bind_run.
  destruct Hrem as [Hreg Hq Hobjs Hsess Hmax Hrun' Hem].
  rewrite Hobjs, Hobj. rewrite bind_run. cbn [fst snd].
  eexists. split; [reflexivity|].
  split; cbn; try assumption.
  rewrite Hem, app_nil_r, Hmax. reflexivity.
Qed.


Lemma update_run (r : ref) (f : MonitorInfo.t -> MonitorInfo.t)
    (info : MonitorInfo.t) (s : t) :
  objects s !! r = Some info ->
  update r f s = (Returned tt, with_objects (<[r := f info]> (objects s)) s).
Proof.
  intros Hobj. unfold update, deref, modify. rewrite bind_run, Hobj. reflexivity.
Qed.

(** The first part of a check of an entry that has not expired. *)
Lemma issue_not_expired (now : Z) (F : jsstring) (l : ref) (info : MonitorInfo.t) (s : t) :
  objects s !! l = Some info ->
  now - MonitorInfo.startTime info <= maxMonitorTime s ->
  checkSinglePayment_issue now F l s =
    (Returned true, with_objects (<[l := checkedAt now info]> (objects s)) s).
Proof.
  intros Hobj Hfresh. unfold checkSinglePayment_issue.
  rewrite bind_run. unfold deref at 1. rewrite Hobj.
  rewrite bind_run. unfold gets. cbn [fst snd].
  destruct (now - MonitorInfo.startTime info >? maxMonitorTime s) eqn:E; [lia|].
  rewrite bind_run, (update_run l _ info s Hobj).
  rewrite bind_run.
  erewrite update_run.
  2:{ cbn [objects with_objects]. apply list_lookup_insert_eq.
      eapply lookup_lt_Some, Hobj. }
  cbn [objects with_objects]. rewrite list_insert_insert_eq. reflexivity.
Qed.

(** The first part of a check of an entry that has expired. *)
Lemma issue_expired (now : Z) (F : jsstring) (l : ref) (info : MonitorInfo.t) (s : t) :
  objects s !! l = Some info ->
  now - MonitorInfo.startTime info > maxMonitorTime s ->
  checkSinglePayment_issue now F l s =
    (match expirePayment F l s with
     | (Returned _, s') => (Returned false, s')
     | (Threw e, s') => (Threw e, s')
     end).
Proof.
  intros Hobj Hold. unfold checkSinglePayment_issue.
  rewrite bind_run. unfold deref at 1. rewrite Hobj.
  rewrite bind_run. unfold gets. cbn [fst snd].
  destruct (now - MonitorInfo.startTime info >? maxMonitorTime s) eqn:E; [|lia].
  rewrite bind_run. destruct (expirePayment F l s) as [[[]|e] s']; reflexivity.
Qed.

(** ** One tick, around one entry *)

Lemma registry_around (F : jsstring) (l : ref) (s : t) :
  wellFormed s -> Map_get F (activeMonitors s) = Some l ->
  exists pre post,
    activeMonitors s = pre ++ (F, l) :: post
    /\ awayFrom F l pre /\ awayFrom F l post.
Proof.
  intros [Hnd Hkeyed] Hget.
  destruct (Map_get_split F l _ Hnd Hget) as (pre & post & Heq & Hpre & Hpost).
  exists pre, post. split; [exact Heq|].
  assert (Hl : exists info, objects s !! l = Some info /\ MonitorInfo.md5Hash info = F).
  { apply Hkeyed. rewrite Heq. apply in_or_app. right. left. reflexivity. }
  destruct Hl as (info & Hobj & Hkey).
  assert (Haway : forall part, (forall e, In e part -> In e (activeMonitors s)) ->
                               ~ In F (map fst part) -> awayFrom F l part).
  { intros part Hsub Hnot [G r] Hin. cbn [fst snd].
    assert (HG : G <> F).
    { intros ->. apply Hnot. apply in_map_iff. exists (F, r). split; [reflexivity|exact Hin]. }
    split; [exact HG|]. intros ->.
    destruct (Hkeyed G l (Hsub _ Hin)) as (info' & Hobj' & Hkey').
    rewrite Hobj in Hobj'. injection Hobj' as <-. congruence. }
  split; apply Haway; try assumption.
  - intros e He. rewrite Heq. apply in_or_app. left. exact He.
  - intros e He. rewrite Heq. apply in_or_app. right. right. exact He.
Qed.

Lemma checkAllPayments_run (now : Z) (checker : StatusChecker)
    (order : SettleOrder) (s : t) :
  isRunning s = true -> activeMonitors s <> [] ->
  checkAllPayments now checker order s =
    (Returned tt,
     exec (settleAll checker (order (issued now (activeMonitors s) s)))
       (exec (issueAll now (activeMonitors s)) s)).
Proof.
  intros Hrun Hne. unfold checkAllPayments, gets.
  rewrite bind_run. cbn [fst snd]. rewrite Hrun. cbn [negb].
  rewrite bind_run. cbn [fst snd].
  destruct (activeMonitors s) as [|e es] eqn:Hes; [contradiction|].
  cbn [length Nat.ltb Nat.leb].
  rewrite bind_run, issueAll_returns. apply settleAll_returns.
Qed.

(** The periodic check never throws. *)
Lemma checkAllPayments_returns (now : Z) (checker : StatusChecker)
    (order : SettleOrder) (s : t) :
  result (checkAllPayments now checker order) s = Returned tt.
Proof.
  unfold result, checkAllPayments, gets.
  rewrite bind_run. cbn [fst snd].
  destruct (isRunning s); cbn [negb]; [|reflexivity].
  rewrite bind_run. cbn [fst snd].
  destruct (0 <? length (activeMonitors s))%nat; [|reflexivity].
  rewrite bind_run, issueAll_returns, settleAll_returns. reflexivity.
Qed.

(** A tick around the entry [(F, l)]: the first parts of the checks of the
    entries before it, its own, those of the entries after it; then the
    second parts of the checks that were issued, as they settle. *)
Lemma tick_shape (now : Z) (checker : StatusChecker) (order : SettleOrder) (s : t)
    (F : jsstring) (l : ref) (pre post : list (jsstring * ref))
    (issuedNow : bool) (s2 : t) :
  isRunning s = true -> activeMonitors s = pre ++ (F, l) :: post ->
  issueOne now (F, l) (exec (issueAll now pre) s) = (Returned issuedNow, s2) ->
  let pending :=
    issued now pre s ++ (if issuedNow then [(F, l)] else [])
      ++ issued now post s2 in
  issued now (activeMonitors s) s = pending
  /\ checkAllPayments now checker order s =
       (Returned tt,
        exec (settleAll checker (order pending)) (exec (issueAll now post) s2)).
Proof.
  intros Hrun Hreg Hown. cbv zeta.
  assert (He : exec (issueOne now (F, l)) (exec (issueAll now pre) s) = s2)
    by (unfold exec at 1; rewrite Hown; reflexivity).
  assert (Hr : result (issueOne now (F, l)) (exec (issueAll now pre) s)
               = Returned issuedNow)
    by (unfold result; rewrite Hown; reflexivity).
  assert (Hpending : issued now (activeMonitors s) s =
            issued now pre s ++ (if issuedNow then [(F, l)] else [])
              ++ issued now post s2).
  { rewrite Hreg, issued_app, issued_cons, He, Hr. destruct issuedNow; reflexivity. }
  split; [exact Hpending|].
  rewrite checkAllPayments_run; [|exact Hrun|rewrite Hreg; intros Hnil;
    apply app_eq_nil in Hnil; destruct Hnil; discriminate].
  rewrite Hpending. f_equal.
  rewrite Hreg, exec_issueAll_app, exec_issueAll_cons, He. reflexivity.
Qed.

Lemma awayFrom_issued (F : jsstring) (l : ref) (now : Z) es (s : t) :
  awayFrom F l es -> awayFrom F l (issued now es s).
Proof. intros Haway e He. apply Haway. eapply issued_incl, He. Qed.

Lemma awayFrom_app (F : jsstring) (l : ref) es1 es2 :
  awayFrom F l es1 -> awayFrom F l es2 -> awayFrom F l (es1 ++ es2).
Proof.
  intros H1 H2 e He. apply in_app_or in He. destruct He; [apply H1|apply H2];
    assumption.
Qed.

Lemma awayFrom_Permutation (F : jsstring) (l : ref) es1 es2 :
  Permutation es1 es2 -> awayFrom F l es2 -> awayFrom F l es1.
Proof.
  intros Hperm Haway e He. apply Haway.
  eapply Permutation_in; [exact Hperm|exact He].
Qed.


Lemma exec_settleAll_one (checker : StatusChecker) e (s : t) :
  exec (settleAll checker [e]) s = exec (settleOne checker e) s.
Proof. rewrite exec_settleAll_cons. reflexivity. Qed.



(** C8 (amended). A tick that finds a registered entry expired. Let the
    monitor be running, [F] be registered with the object [info], and let
    more than the maximum watch duration have elapsed since its creation at
    the clock [now] of the tick. Then the tick returns, and after it [F] is
    in the registry no more, nor in the payment queue, nor in the index of
    the session of [info] (so in the index of no session, when it was
    registered for that session only); one expiry notification about [F]
    was emitted, and no success notification; no status check was issued
    for [F], and the tick is the same whatever the service would have
    answered for [F]; the object is as it was: its check counter is not
    incremented and its status is not changed (no status ['EXPIRED'] is
    written). *)
Theorem checkAllPayments_expired (now : Z) (checker : StatusChecker)
    (order : SettleOrder) (s : t)
    (F : jsstring) (l : ref) (info : MonitorInfo.t) :
  wellFormed s -> isRunning s = true -> rearranges order ->
  Map_get F (activeMonitors s) = Some l -> objects s !! l = Some info ->
  now - MonitorInfo.startTime info > maxMonitorTime s ->
  let s' := exec (checkAllPayments now checker order) s in
  result (checkAllPayments now checker order) s = Returned tt
  /\ Map_get F (activeMonitors s') = None
  /\ get F s' = None
  /\ paymentQueue s' !! F = None
  /\ (forall sid, inSession F sid s'
                  <-> inSession F sid s /\ sid <> MonitorInfo.sessionId info)
  /\ ((forall sid, inSession F sid s -> sid = MonitorInfo.sessionId info) ->
      forall sid, ~ inSession F sid s')
  /\ List.filter (isExpiryOf F) (emitted s')
     = List.filter (isExpiryOf F) (emitted s)
       ++ [payment_expired F info (maxMonitorTime s)]
  /\ List.filter (isSuccessOf F) (emitted s')
     = List.filter (isSuccessOf F) (emitted s)
  /\ objects s' !! l = Some info
  /\ ~ In F (map fst (issued now (activeMonitors s) s))
  /\ (forall checker' : StatusChecker,
        (forall G, G <> F -> checker' G = checker G) ->
        checkAllPayments now checker' order s = checkAllPayments now checker order s).
Proof.
  intros Hwf Hrun Horder Hget Hobj Hold.
  destruct (registry_around F l s Hwf Hget) as (pre & post & Hreg & Hpre & Hpost).
  (* the entries before F *)
  pose proof (unchangedFor_issueAll F l now pre Hpre s) as H01.
  set (s1 := exec (issueAll now pre) s) in *.
  assert (Hobj1 : objects s1 !! l = Some info)
    by (rewrite (uf_object _ _ _ _ H01); exact Hobj).
  assert (Hget1 : Map_get F (activeMonitors s1) = Some l)
    by (rewrite (uf_registry _ _ _ _ H01); exact Hget).
  (* the first part of the check of F *)
  destruct (expirePayment_registered F l info s1 Hget1 Hobj1) as (s2 & Hexpire & Hrem).
  assert (Hissue : issueOne now (F, l) s1 = (Returned false, s2)).
  { unfold issueOne. rewrite tryCatch_run. cbn [fst snd].
    rewrite (issue_expired now F l info s1 Hobj1), Hexpire; [reflexivity|].
    rewrite (uf_maxMonitorTime _ _ _ _ H01). exact Hold. }
  set (pending := issued now pre s ++ issued now post s2).
  assert (Hpending : issued now (activeMonitors s) s = pending).
  { exact (proj1 (tick_shape now checker order s F l pre post _ _ Hrun Hreg Hissue)). }
  assert (Htick : forall c : StatusChecker,
            checkAllPayments now c order s =
              (Returned tt,
               exec (settleAll c (order pending)) (exec (issueAll now post) s2))).
  { intros c. exact (proj2 (tick_shape now c order s F l pre post _ _ Hrun Hreg Hissue)). }
  (* the rest of the tick *)
  pose proof (unchangedFor_issueAll F l now post Hpost s2) as H23.
  set (s3 := exec (issueAll now post) s2) in *.
  assert (Hp : awayFrom F l pending).
  { apply awayFrom_app; apply awayFrom_issued; assumption. }
  assert (Hop : awayFrom F l (order pending)).
  { eapply awayFrom_Permutation; [apply Horder|exact Hp]. }
  pose proof (unchangedFor_settleAll F l checker _ Hop s3) as H36.
  set (s6 := exec (settleAll checker (order pending)) s3) in *.
  intros s'.
  assert (Hs' : s' = s6) by (subst s'; unfold exec; rewrite Htick; reflexivity).
  rewrite Hs'. clear Hs'.
  destruct Hrem as [Hreg2 Hq2 Hobjs2 Hsess2 Hmax2 Hrun2 Hem2].
  assert (Hnone : Map_get F (activeMonitors s6) = None).
  { rewrite (uf_registry _ _ _ _ H36), (uf_registry _ _ _ _ H23), Hreg2.
    apply Map_get_delete_eq. }
  split; [apply checkAllPayments_returns|].
  split; [exact Hnone|].
  split; [unfold get; rewrite Hnone; reflexivity|].
  split.
  { rewrite (uf_queue _ _ _ _ H36), (uf_queue _ _ _ _ H23), Hq2.
    apply lookup_delete_eq. }
  assert (Hindex : forall sid, inSession F sid s6
                               <-> inSession F sid s /\ sid <> MonitorInfo.sessionId info).
  { intros sid. rewrite (uf_sessions _ _ _ _ H36), (uf_sessions _ _ _ _ H23), Hsess2.
    rewrite (uf_sessions _ _ _ _ H01). reflexivity. }
  split; [exact Hindex|].
  split.
  { intros Honly sid Hin. apply Hindex in Hin. destruct Hin as [Hin Hsid].
    exact (Hsid (Honly sid Hin)). }
  split.
  { rewrite (uf_expiries _ _ _ _ H36), (uf_expiries _ _ _ _ H23), Hem2,
      List.filter_app.
    rewrite (uf_expiries _ _ _ _ H01), (uf_maxMonitorTime _ _ _ _ H01). f_equal.
    cbn [List.filter isExpiryOf]. rewrite bool_decide_eq_true_2 by reflexivity.
    reflexivity. }
  split.
  { rewrite (uf_successes _ _ _ _ H36), (uf_successes _ _ _ _ H23), Hem2,
      List.filter_app.
    rewrite (uf_successes _ _ _ _ H01). cbn [List.filter isSuccessOf].
    apply app_nil_r. }
  split.
  { rewrite (uf_object _ _ _ _ H36), (uf_object _ _ _ _ H23), Hobjs2. exact Hobj1. }
  split.
  { rewrite Hpending. intros Hin. apply in_map_iff in Hin.
    destruct Hin as (e & Hfst & He). apply Hp in He. destruct He as [Hne _].
    contradiction. }
  intros checker' Hext. rewrite !Htick. f_equal.
  rewrite (settleAll_ext checker' checker (order pending)); [reflexivity|].
  intros e He. apply Hext. apply (Hop e He).
Qed.

(** ** A check that stays inconclusive *)

Lemma checkSinglePayment_run (now settled : Z) (answer : outcome CheckResult.t)
    (F : jsstring) (l : ref) (info : MonitorInfo.t) (s : t) :
  objects s !! l = Some info ->
  now - MonitorInfo.startTime info <= maxMonitorTime s ->
  checkSinglePayment now settled answer F l s =
    tryCatch (checkSinglePayment_settle settled answer F l) logError
      (with_objects (<[l := checkedAt now info]> (objects s)) s).
Proof.
  intros Hobj Hfresh. unfold checkSinglePayment.
  rewrite !tryCatch_run, bind_run.
  rewrite (issue_not_expired now F l info s Hobj Hfresh). reflexivity.
Qed.

(** C9 (amended). A check that does not find the payment paid. For an
    entry that has not expired, when the status check is answered with a
    status other than ['PAID'] or fails with an error, [checkSinglePayment]
    returns (the error is caught), and only the object of the entry has
    changed: its check counter is incremented, its last-check time is the
    clock of the check, and its status is the status that was answered
    (['UNPAID'] for instance, not ['MONITORING']), or the status it had
    when the check failed. The registry, the queue, the session index and
    the events are as before, so the entry stays registered. The periodic
    check as a whole never throws either. *)
Theorem checkSinglePayment_inconclusive (now settled : Z)
    (answer : outcome CheckResult.t) (F : jsstring) (l : ref)
    (info : MonitorInfo.t) (s : t) :
  Map_get F (activeMonitors s) = Some l -> objects s !! l = Some info ->
  now - MonitorInfo.startTime info <= maxMonitorTime s ->
  (forall res, answer = Returned res -> CheckResult.status res <> str "PAID") ->
  let s' := exec (checkSinglePayment now settled answer F l) s in
  let info' :=
    match answer with
    | Returned res => MonitorInfo.with_status (CheckResult.status res) (checkedAt now info)
    | Threw _ => checkedAt now info
    end in
  result (checkSinglePayment now settled answer F l) s = Returned tt
  /\ s' = with_objects (<[l := info']> (objects s)) s
  /\ get F s' = Some info'
  /\ MonitorInfo.checkCount info' = S (MonitorInfo.checkCount info)
  /\ MonitorInfo.lastCheck info' = now
  /\ MonitorInfo.status info' =
       match answer with
       | Returned res => CheckResult.status res
       | Threw _ => MonitorInfo.status info
       end
  /\ activeMonitors s' = activeMonitors s
  /\ userSessions s' = userSessions s
  /\ paymentQueue s' = paymentQueue s
  /\ emitted s' = emitted s
  /\ (forall tick checker order s0,
        result (checkAllPayments tick checker order) s0 = Returned tt).
Proof.
  intros Hget Hobj Hfresh Hans s' info'.
  assert (Hlt : (l < length (objects s))%nat) by (eapply lookup_lt_Some, Hobj).
  assert (Hrun : checkSinglePayment now settled answer F l s =
                   (Returned tt, with_objects (<[l := info']> (objects s)) s)).
  { rewrite (checkSinglePayment_run now settled answer F l info s Hobj Hfresh).
    rewrite tryCatch_run. unfold checkSinglePayment_settle, await.
    rewrite bind_run. subst info'. destruct answer as [res|err]; [|reflexivity].
    rewrite decide_False by (apply Hans; reflexivity).
    erewrite update_run
      by (cbn [objects with_objects]; apply list_lookup_insert_eq, Hlt).
    cbn [objects with_objects]. rewrite list_insert_insert_eq. reflexivity. }
  assert (Hs' : s' = with_objects (<[l := info']> (objects s)) s)
    by (subst s'; unfold exec; rewrite Hrun; reflexivity).
  split; [unfold result; rewrite Hrun; reflexivity|].
  split; [exact Hs'|]. rewrite Hs'.
  split.
  { unfold get. cbn [activeMonitors objects with_objects]. rewrite Hget.
    cbn. apply list_lookup_insert_eq, Hlt. }
  split; [subst info'; destruct answer; reflexivity|].
  split; [subst info'; destruct answer; reflexivity|].
  split; [subst info'; destruct answer; reflexivity|].
  repeat (split; [reflexivity|]).
  intros tick checker order s0. apply checkAllPayments_returns.
Qed.

(** ** Registration *)

Lemma modify_run (f : t -> t) (s : t) : modify f s = (Returned tt, f s).
Proof. reflexivity. Qed.

Lemma gets_run {A : Type} (f : t -> A) (s : t) : gets f s = (Returned (f s), s).
Proof. reflexivity. Qed.

Lemma mret_run {A : Type} (a : A) (s : t) : (mret a : M A) s = (Returned a, s).
Proof. reflexivity. Qed.

Lemma alloc_run (info : MonitorInfo.t) (s : t) :
  alloc info s = (Returned (length (objects s)), with_objects (objects s ++ [info]) s).
Proof. reflexivity. Qed.

Lemma emit_run (e : Event) (s : t) :
  emit e s = (Returned tt, with_emitted (emitted s ++ [e]) s).
Proof. reflexivity. Qed.

Lemma deref_run (r : ref) (info : MonitorInfo.t) (s : t) :
  objects s !! r = Some info -> deref r s = (Returned info, s).
Proof. intros Hobj. unfold deref. rewrite Hobj. reflexivity. Qed.

Lemma addPayment_run (now : Z) (pd : PaymentData.t) (sid : jsstring) (s : t) :
  let F := PaymentData.md5Hash pd in
  exists s',
    addPayment now pd sid s = (Returned tt, s')
    /\ activeMonitors s' = Map_set F (length (objects s)) (activeMonitors s)
    /\ objects s' = objects s ++ [freshEntry now pd sid]
    /\ userSessions s' =
         alter (fun payments => payments ∪ {[F]}) sid
           (if decide (is_Some (userSessions s !! sid)) then userSessions s
            else <[sid := ∅]> (userSessions s))
    /\ paymentQueue s' = <[F := pd]> (paymentQueue s)
    /\ emitted s' = emitted s ++ [payment_added (freshEntry now pd sid)]
    /\ maxMonitorTime s' = maxMonitorTime s
    /\ isRunning s' = isRunning s.
Proof.
  intros F. unfold addPayment. fold (freshEntry now pd sid). fold F.
  rewrite bind_run, alloc_run.
  rewrite bind_run, modify_run.
  rewrite bind_run, gets_run.
  cbn [userSessions with_activeMonitors with_objects].
  assert (Hobj : forall s0, objects s0 = objects s ++ [freshEntry now pd sid] ->
                            deref (length (objects s)) s0
                            = (Returned (freshEntry now pd sid), s0)).
  { intros s0 Hs0. apply deref_run. rewrite Hs0.
    apply (list_lookup_middle (objects s) [] (freshEntry now pd sid)). reflexivity. }
  case_decide as Hsess.
  - rewrite bind_run, mret_run.
    rewrite bind_run, modify_run. rewrite bind_run, modify_run.
    rewrite bind_run, Hobj by reflexivity. rewrite emit_run.
    eexists. split; [reflexivity|]. cbn. repeat split; reflexivity.
  - rewrite bind_run, modify_run.
    rewrite bind_run, modify_run. rewrite bind_run, modify_run.
    rewrite bind_run, Hobj by reflexivity. rewrite emit_run.
    eexists. split; [reflexivity|]. cbn. repeat split; reflexivity.
Qed.

(** C2 (amended). Registration. [addPayment] never fails, whether the
    fingerprint is registered already or not (there is no
    [DuplicateFingerprint] error): it registers for the fingerprint a new
    entry with check counter zero and status ['MONITORING'], in the place
    of the entry that was registered for it, if any; it adds the
    fingerprint to the index of the owning session, stores the payment in
    the queue and emits [payment_added]. The entries of the other
    fingerprints stay registered with the same objects. *)
Theorem addPayment_registers (now : Z) (pd : PaymentData.t) (sid : jsstring) (s : t) :
  let F := PaymentData.md5Hash pd in
  let s' := exec (addPayment now pd sid) s in
  let entry := freshEntry now pd sid in
  result (addPayment now pd sid) s = Returned tt
  /\ get F s' = Some entry
  /\ MonitorInfo.checkCount entry = 0%nat
  /\ MonitorInfo.status entry = str "MONITORING"
  /\ MonitorInfo.sessionId entry = sid
  /\ inSession F sid s'
  /\ paymentQueue s' !! F = Some pd
  /\ emitted s' = emitted s ++ [payment_added entry]
  /\ (forall G, G <> F ->
        Map_get G (activeMonitors s') = Map_get G (activeMonitors s)).
Proof.
  intros F s' entry.
  destruct (addPayment_run now pd sid s)
    as (s1 & Hrun & Hreg & Hobjs & Hsess & Hq & Hem & _ & _).
  assert (Hs' : s' = s1) by (subst s'; unfold exec; rewrite Hrun; reflexivity).
  rewrite Hs'. clear Hs'.
  split; [unfold result; rewrite Hrun; reflexivity|].
  split.
  { unfold get. rewrite Hreg, Map_get_set_eq, Hobjs. cbn.
    apply (list_lookup_middle (objects s) [] entry). reflexivity. }
  split; [reflexivity|]. split; [reflexivity|]. split; [reflexivity|].
  split.
  { unfold inSession. rewrite Hsess, lookup_alter.
    rewrite decide_True by reflexivity.
    case_decide as Hsome.
    - destruct Hsome as [payments Hp]. rewrite Hp. cbn.
      exists (payments ∪ {[PaymentData.md5Hash pd]}). split; [reflexivity|].
      apply elem_of_union_r, elem_of_singleton. reflexivity.
    - rewrite lookup_insert_eq. cbn.
      exists (∅ ∪ {[PaymentData.md5Hash pd]}). split; [reflexivity|].
      apply elem_of_union_r, elem_of_singleton. reflexivity. }
  split; [rewrite Hq; apply lookup_insert_eq|].
  split; [exact Hem|].
  intros G HG. rewrite Hreg. apply Map_get_set_ne.
  intros Heq. exact (HG (eq_sym Heq)).
Qed.

(** ** No entry is ever PAID *)

#[local] Instance sameObjects_preorder : PreOrder sameObjects.
Proof.
  split; unfold sameObjects; [intros s; reflexivity|].
  intros s1 s2 s3 H12 H23. congruence.
Qed.

Lemma sameObjects_noPaid {A : Type} (m : M A) :
  preserves sameObjects m -> preserves (keeps noPaid) m.
Proof. intros Hm s Hs. unfold noPaid. rewrite (Hm s). exact Hs. Qed.

Lemma sameObjects_emit (e : Event) : preserves sameObjects (emit e).
Proof. intros s. reflexivity. Qed.

Ltac same_objects_steps :=
  repeat first
    [ apply preserves_mret; typeclasses eauto
    | apply preserves_gets; typeclasses eauto
    | apply preserves_deref; typeclasses eauto
    | apply sameObjects_emit
    | apply preserves_modify; intros ?; reflexivity
    | apply preserves_bind; [typeclasses eauto| |intros ?] ].

Lemma sameObjects_start : preserves sameObjects start.
Proof.
  unfold start. apply preserves_bind; [typeclasses eauto| |intros b].
  - same_objects_steps.
  - destruct b; same_objects_steps.
Qed.

Lemma sameObjects_stop : preserves sameObjects stop.
Proof. unfold stop. same_objects_steps. Qed.

Lemma sameObjects_removePayment (F : jsstring) : preserves sameObjects (removePayment F).
Proof.
  unfold removePayment. apply preserves_bind; [typeclasses eauto| |intros monitors].
  - same_objects_steps.
  - destruct (Map_get F monitors); [|same_objects_steps].
    same_objects_steps.
    match goal with |- context [?m !! ?k] => destruct (m !! k) end;
      [|same_objects_steps].
    same_objects_steps. case_decide; same_objects_steps.
Qed.

Lemma sameObjects_expirePayment (F : jsstring) (l : ref) :
  preserves sameObjects (expirePayment F l).
Proof.
  unfold expirePayment.
  apply preserves_bind; [typeclasses eauto|apply sameObjects_removePayment|intros _].
  same_objects_steps.
Qed.

Lemma sameObjects_handlePaymentSuccess (now : Z) (F : jsstring) (l : ref)
    (res : CheckResult.t) :
  preserves sameObjects (handlePaymentSuccess now F l res).
Proof.
  unfold handlePaymentSuccess.
  apply preserves_bind; [typeclasses eauto|apply sameObjects_removePayment|intros _].
  same_objects_steps.
Qed.

Lemma noPaid_update (r : ref) (f : MonitorInfo.t -> MonitorInfo.t) :
  (forall info, MonitorInfo.status info <> str "PAID" ->
                MonitorInfo.status (f info) <> str "PAID") ->
  preserves (keeps noPaid) (update r f).
Proof.
  intros Hf s Hs. unfold exec, update, deref, modify. rewrite bind_run.
  destruct (objects s !! r) as [info|] eqn:Hobj; cbn [snd]; [|exact Hs].
  unfold noPaid. cbn [objects with_objects].
  apply Forall_insert; [exact Hs|].
  apply Hf. exact (Forall_lookup_1 _ _ _ _ Hs Hobj).
Qed.

Lemma noPaid_addPayment (now : Z) (pd : PaymentData.t) (sid : jsstring) :
  preserves (keeps noPaid) (addPayment now pd sid).
Proof.
  intros s Hs.
  destruct (addPayment_run now pd sid s) as (s1 & Hrun & _ & Hobjs & _).
  unfold exec. rewrite Hrun. cbn [snd]. unfold noPaid. rewrite Hobjs.
  apply Forall_app_2; [exact Hs|].
  apply Forall_cons_2; [|apply Forall_nil_2].
  cbn. intros Heq. vm_compute in Heq. discriminate.
Qed.

Lemma noPaid_issue (now : Z) (F : jsstring) (l : ref) :
  preserves (keeps noPaid) (checkSinglePayment_issue now F l).
Proof.
  unfold checkSinglePayment_issue.
  apply preserves_bind; [typeclasses eauto|apply preserves_deref; typeclasses eauto|].
  intros info.
  apply preserves_bind; [typeclasses eauto|apply preserves_gets; typeclasses eauto|].
  intros maxTime. destruct (now - MonitorInfo.startTime info >? maxTime).
  - apply preserves_bind; [typeclasses eauto| |intros _; apply preserves_mret; typeclasses eauto].
    apply sameObjects_noPaid, sameObjects_expirePayment.
  - apply preserves_bind; [typeclasses eauto| |intros _].
    { apply noPaid_update. intros i Hi. exact Hi. }
    apply preserves_bind; [typeclasses eauto| |intros _; apply preserves_mret; typeclasses eauto].
    apply noPaid_update. intros i Hi. exact Hi.
Qed.

Lemma noPaid_settle (now : Z) (answer : outcome CheckResult.t) (F : jsstring) (l : ref) :
  preserves (keeps noPaid) (checkSinglePayment_settle now answer F l).
Proof.
  unfold checkSinglePayment_settle.
  apply preserves_bind; [typeclasses eauto|apply preserves_await; typeclasses eauto|].
  intros res. case_decide as Hpaid.
  - apply sameObjects_noPaid, sameObjects_handlePaymentSuccess.
  - apply noPaid_update. intros i _. exact Hpaid.
Qed.

Lemma noPaid_step (w w' : World) :
  step w w' -> noPaid (monitor w) -> noPaid (monitor w').
Proof.
  intros Hstep. destruct Hstep; cbn [monitor].
  - apply (sameObjects_noPaid _ sameObjects_start).
  - apply (sameObjects_noPaid _ sameObjects_stop).
  - apply noPaid_addPayment.
  - apply (sameObjects_noPaid _ (sameObjects_removePayment md5Hash)).
  - subst call. apply preserves_tryCatch; [typeclasses eauto|apply noPaid_issue|].
    intros e. apply preserves_bind; [typeclasses eauto| |intros _];
      [apply preserves_logError|apply preserves_mret]; typeclasses eauto.
  - subst call. apply preserves_tryCatch; [typeclasses eauto|apply noPaid_settle|].
    intros e. apply preserves_logError. typeclasses eauto.
Qed.

Lemma reachable_noPaid (w : World) : reachable w -> noPaid (monitor w).
Proof.
  unfold reachable. revert w.
  apply (rtc_ind_r (fun w => noPaid (monitor w)) initial).
  - apply Forall_nil_2.
  - intros y z _ Hstep IH. eapply noPaid_step; eassumption.
Qed.

Lemma noPaid_values (s : t) :
  noPaid s -> Forall (fun info => MonitorInfo.status info <> str "PAID") (values s).
Proof.
  intros Hs. unfold values.
  induction (activeMonitors s) as [|[k r] m IH]; [apply Forall_nil_2|].
  cbn [omap list_omap snd]. destruct (objects s !! r) as [info|] eqn:Hobj.
  - apply Forall_cons_2; [|exact IH]. exact (Forall_lookup_1 _ _ _ _ Hs Hobj).
  - exact IH.
Qed.

Lemma removePayment_gone (F : jsstring) (s : t) :
  Map_get F (activeMonitors (exec (removePayment F) s)) = None.
Proof.
  unfold exec, removePayment, gets, modify, deref.
  rewrite bind_run. cbn [fst snd].
  destruct (Map_get F (activeMonitors s)) as [r|] eqn:Hget; [|exact Hget].
  rewrite !bind_run. cbn [fst snd objects with_paymentQueue with_activeMonitors].
  destruct (objects s !! r) as [info|]; cbn [fst snd];
    [|cbn; apply Map_get_delete_eq].
  rewrite bind_run. cbn [fst snd userSessions with_paymentQueue with_activeMonitors].
  destruct (userSessions s !! MonitorInfo.sessionId info) as [payments|];
    [|cbn; apply Map_get_delete_eq].
  rewrite bind_run. cbn [fst snd].
  case_decide; cbn; apply Map_get_delete_eq.
Qed.

(** The second part of a check answered PAID: the fingerprint leaves the
    registry and no object is written to. *)
Lemma settle_paid (now : Z) (res : CheckResult.t) (F : jsstring) (l : ref) (s : t) :
  CheckResult.status res = str "PAID" ->
  let s' := exec (tryCatch (checkSinglePayment_settle now (Returned res) F l)
                    logError) s in
  objects s' = objects s /\ Map_get F (activeMonitors s') = None.
Proof.
  intros Hpaid s'. subst s'. unfold exec. rewrite tryCatch_run.
  unfold checkSinglePayment_settle, await. rewrite bind_run.
  rewrite decide_True by exact Hpaid.
  pose proof (sameObjects_handlePaymentSuccess now F l res s) as Hsame.
  unfold exec in Hsame. split.
  - destruct (handlePaymentSuccess now F l res s) as [[[]|e] s1]; exact Hsame.
  - clear Hsame. unfold handlePaymentSuccess. rewrite bind_run.
    pose proof (removePayment_gone F s) as Hgone. unfold exec in Hgone.
    destruct (removePayment F s) as [[[]|e] s1]; cbn [snd] in *; [|exact Hgone].
    unfold deref, emit, modify. rewrite bind_run.
    destruct (objects s1 !! l); cbn; exact Hgone.
Qed.

(** C10. No entry of the registry is ever PAID. In every state the monitor
    can reach (whatever methods are called, whatever checks are issued and
    however the service answers, in any interleaving), no [monitorInfo]
    object has the status ['PAID'], so no registered entry has it and
    [getCompletedPayments()] is 0. An entry is created with the status
    ['MONITORING']; a check answered PAID removes the fingerprint from the
    registry in the same turn and writes to no object. *)
Theorem no_entry_is_paid (w : World) :
  reachable w ->
  noPaid (monitor w)
  /\ (forall F info, get F (monitor w) = Some info ->
        MonitorInfo.status info <> str "PAID")
  /\ getCompletedPayments (monitor w) = 0%nat
  /\ (forall now pd sid,
        MonitorInfo.status (freshEntry now pd sid) = str "MONITORING")
  /\ (forall now res F l s,
        CheckResult.status res = str "PAID" ->
        let s' := exec (tryCatch (checkSinglePayment_settle now (Returned res) F l)
                          logError) s in
        objects s' = objects s /\ Map_get F (activeMonitors s') = None).
Proof.
  intros Hreach. pose proof (reachable_noPaid w Hreach) as Hno.
  split; [exact Hno|]. split; [|split; [|split]].
  - intros F info Hget. unfold get in Hget.
    destruct (Map_get F (activeMonitors (monitor w))) as [r|]; [|discriminate].
    cbn in Hget. exact (Forall_lookup_1 _ _ _ _ Hno Hget).
  - unfold getCompletedPayments.
    pose proof (noPaid_values _ Hno) as Hvals.
    induction Hvals as [|info vals Hinfo _ IH]; [reflexivity|].
    cbn [List.filter]. rewrite bool_decide_eq_false_2 by exact Hinfo. exact IH.
  - reflexivity.
  - intros now res F l s Hpaid. apply settle_paid, Hpaid.
Qed.

(** ** The registry stays well formed *)

#[local] Instance settles_preorder : PreOrder settles.
Proof.
  split.
  - intros s. split; [reflexivity|]. intros r info Hobj. exists info. tauto.
  - intros s1 s2 s3 [Hreg12 Hobj12] [Hreg23 Hobj23]. split.
    + etransitivity; eassumption.
    + intros r info Hobj. destruct (Hobj12 r info Hobj) as (info2 & Hobj2 & Hkey2).
      destruct (Hobj23 r info2 Hobj2) as (info3 & Hobj3 & Hkey3).
      exists info3. split; [exact Hobj3|congruence].
Qed.

Lemma sublist_map {A B : Type} (f : A -> B) (l1 l2 : list A) :
  sublist l1 l2 -> sublist (map f l1) (map f l2).
Proof.
  induction 1; cbn [map]; [constructor|apply sublist_skip|apply sublist_cons];
    assumption.
Qed.

Lemma Map_delete_sublist {V : Type} (k : jsstring) (m : list (jsstring * V)) :
  sublist (Map_delete k m) m.
Proof.
  induction m as [|[k' v] m IH]; [constructor|].
  rewrite Map_delete_cons. case_decide; [apply sublist_cons|apply sublist_skip];
    exact IH.
Qed.

Lemma settles_wellFormed (s s' : t) : settles s s' -> wellFormed s -> wellFormed s'.
Proof.
  intros [Hreg Hobjs] [Hnd Hkeyed]. split.
  - eapply sublist_NoDup; [exact Hnd|]. apply sublist_map, Hreg.
  - intros k r Hin.
    assert (Hin0 : In (k, r) (activeMonitors s)).
    { apply list_elem_of_In. eapply elem_of_sublist; [|exact Hreg].
      apply list_elem_of_In, Hin. }
    destruct (Hkeyed k r Hin0) as (info & Hobj & Hkey).
    destruct (Hobjs r info Hobj) as (info' & Hobj' & Hkey').
    exists info'. split; [exact Hobj'|congruence].
Qed.

Lemma settles_same (f : t -> t) :
  (forall s, activeMonitors (f s) = activeMonitors s) ->
  (forall s, objects (f s) = objects s) ->
  preserves settles (modify f).
Proof.
  intros Hreg Hobjs. apply preserves_modify. intros s. split.
  - rewrite Hreg. reflexivity.
  - intros r info Hobj. exists info. rewrite Hobjs. tauto.
Qed.

Lemma settles_delete (k : jsstring) :
  preserves settles
    (modify (fun s => with_activeMonitors (Map_delete k (activeMonitors s)) s)).
Proof.
  apply preserves_modify. intros s. split.
  - apply Map_delete_sublist.
  - intros r info Hobj. exists info. tauto.
Qed.

Lemma settles_update (r : ref) (f : MonitorInfo.t -> MonitorInfo.t) :
  (forall info, MonitorInfo.md5Hash (f info) = MonitorInfo.md5Hash info) ->
  preserves settles (update r f).
Proof.
  intros Hf s. unfold exec, update, deref, modify. rewrite bind_run.
  destruct (objects s !! r) as [info|] eqn:Hobj; cbn [snd]; [|reflexivity].
  split; [reflexivity|].
  intros r' info' Hobj'.
  change (objects (with_objects (<[r:=f info]> (objects s)) s))
    with (<[r:=f info]> (objects s)).
  destruct (decide (r = r')) as [Heq|Hne].
  - subst r'. exists (f info). split.
    + apply list_lookup_insert_eq. eapply lookup_lt_Some, Hobj.
    + rewrite Hf. congruence.
  - exists info'. split; [|reflexivity].
    rewrite list_lookup_insert_ne by exact Hne. exact Hobj'.
Qed.

Ltac settles_steps :=
  repeat first
    [ apply preserves_mret; typeclasses eauto
    | apply preserves_gets; typeclasses eauto
    | apply preserves_deref; typeclasses eauto
    | apply preserves_await; typeclasses eauto
    | apply preserves_logError; typeclasses eauto
    | apply settles_delete
    | apply settles_same; intros ?; reflexivity
    | apply settles_update; intros ?; reflexivity
    | apply preserves_bind; [typeclasses eauto| |intros ?] ].

Lemma settles_emit (e : Event) : preserves settles (emit e).
Proof. unfold emit. settles_steps. Qed.

Lemma settles_start : preserves settles start.
Proof.
  unfold start. apply preserves_bind; [typeclasses eauto| |intros b].
  - settles_steps.
  - destruct b; settles_steps.
Qed.

Lemma settles_removePayment (F : jsstring) : preserves settles (removePayment F).
Proof.
  unfold removePayment. apply preserves_bind; [typeclasses eauto| |intros monitors].
  - settles_steps.
  - destruct (Map_get F monitors); [|settles_steps].
    settles_steps.
    match goal with |- context [?m !! ?k] => destruct (m !! k) end;
      [|settles_steps].
    settles_steps. case_decide; settles_steps.
Qed.

Lemma settles_expirePayment (F : jsstring) (l : ref) :
  preserves settles (expirePayment F l).
Proof.
  unfold expirePayment.
  apply preserves_bind; [typeclasses eauto|apply settles_removePayment|intros _].
  apply preserves_bind; [typeclasses eauto| |intros info]; [settles_steps|].
  apply preserves_bind; [typeclasses eauto| |intros d]; [settles_steps|].
  apply settles_emit.
Qed.

Lemma settles_handlePaymentSuccess (now : Z) (F : jsstring) (l : ref)
    (res : CheckResult.t) :
  preserves settles (handlePaymentSuccess now F l res).
Proof.
  unfold handlePaymentSuccess.
  apply preserves_bind; [typeclasses eauto|apply settles_removePayment|intros _].
  apply preserves_bind; [typeclasses eauto| |intros info]; [settles_steps|].
  apply settles_emit.
Qed.

Lemma settles_issue (now : Z) (F : jsstring) (l : ref) :
  preserves settles (checkSinglePayment_issue now F l).
Proof.
  unfold checkSinglePayment_issue.
  apply preserves_bind; [typeclasses eauto| |intros info]; [settles_steps|].
  apply preserves_bind; [typeclasses eauto| |intros maxTime]; [settles_steps|].
  destruct (now - MonitorInfo.startTime info >? maxTime).
  - apply preserves_bind; [typeclasses eauto|apply settles_expirePayment|intros _].
    settles_steps.
  - settles_steps.
Qed.

Lemma settles_settle (now : Z) (answer : outcome CheckResult.t) (F : jsstring) (l : ref) :
  preserves settles (checkSinglePayment_settle now answer F l).
Proof.
  unfold checkSinglePayment_settle.
  apply preserves_bind; [typeclasses eauto| |intros res]; [settles_steps|].
  case_decide; [apply settles_handlePaymentSuccess|settles_steps].
Qed.

Lemma Map_set_keys {V : Type} (k : jsstring) (v : V) (m : list (jsstring * V)) :
  NoDup (map fst m) -> NoDup (map fst (Map_set k v m)).
Proof.
  induction m as [|[k' v'] m IH]; cbn [Map_set map fst].
  - intros _. apply NoDup_singleton.
  - intros Hnd. apply NoDup_cons in Hnd. destruct Hnd as [Hk' Hnd].
    case_decide as Hk; cbn [map fst].
    + subst k'. apply NoDup_cons. split; assumption.
    + apply NoDup_cons. split; [|apply IH, Hnd].
      intros Hin. apply Hk'. clear IH Hnd Hk'.
      apply list_elem_of_In in Hin. apply list_elem_of_In.
      induction m as [|[k2 v2] m IHm]; cbn [Map_set map fst In] in *.
      * destruct Hin as [Heq|[]]. congruence.
      * case_decide; cbn [map fst In] in Hin; [subst k2|]; tauto.
Qed.

Lemma Map_set_In {V : Type} (k k0 : jsstring) (v v0 : V) (m : list (jsstring * V)) :
  In (k0, v0) (Map_set k v m) -> (k0, v0) = (k, v) \/ In (k0, v0) m.
Proof.
  induction m as [|[k' v'] m IH]; cbn [Map_set In].
  - intros [Heq|[]]. left. congruence.
  - case_decide; cbn [In]; intros [Heq|Hin]; try tauto.
    left. congruence.
Qed.

Lemma addPayment_wellFormed (now : Z) (pd : PaymentData.t) (sid : jsstring) (s : t) :
  wellFormed s -> wellFormed (exec (addPayment now pd sid) s).
Proof.
  intros [Hnd Hkeyed].
  destruct (addPayment_run now pd sid s) as (s1 & Hrun & Hreg & Hobjs & _).
  unfold exec. rewrite Hrun. cbn [snd]. split.
  - rewrite Hreg. apply Map_set_keys, Hnd.
  - intros k r Hin. rewrite Hreg in Hin. rewrite Hobjs.
    apply Map_set_In in Hin. destruct Hin as [[= -> ->]|Hin].
    + exists (freshEntry now pd sid). split; [|reflexivity].
      apply (list_lookup_middle (objects s) [] (freshEntry now pd sid)). reflexivity.
    + destruct (Hkeyed k r Hin) as (info & Hobj & Hkey).
      exists info. split; [|exact Hkey].
      rewrite lookup_app_l by (eapply lookup_lt_Some, Hobj). exact Hobj.
Qed.

Lemma stop_wellFormed (s : t) : wellFormed (exec stop s).
Proof. split; [apply NoDup_nil_2|intros k r []]. Qed.

Lemma wellFormed_step (w w' : World) :
  step w w' -> wellFormed (monitor w) -> wellFormed (monitor w').
Proof.
  intros Hstep. destruct Hstep; cbn [monitor].
  - apply settles_wellFormed, settles_start.
  - intros _. apply stop_wellFormed.
  - apply addPayment_wellFormed.
  - apply settles_wellFormed, settles_removePayment.
  - subst call. apply settles_wellFormed.
    apply preserves_tryCatch; [typeclasses eauto|apply settles_issue|].
    intros e. settles_steps.
  - subst call. apply settles_wellFormed.
    apply preserves_tryCatch; [typeclasses eauto|apply settles_settle|].
    intros e. settles_steps.
Qed.

(** In every state the monitor can reach, the registry is well formed. *)
Lemma reachable_wellFormed (w : World) : reachable w -> wellFormed (monitor w).
Proof.
  unfold reachable. revert w.
  apply (rtc_ind_r (fun w => wellFormed (monitor w)) initial).
  - split; [apply NoDup_nil_2|intros k r []].
  - intros y z _ Hstep IH. eapply wellFormed_step; eassumption.
Qed.

End MonitorFacts.

(** ** The monitor on a sample run *)

Section SampleRun.
Import AutoPaymentMonitor.

Lemma registered_reachable : reachable Sample.withG.
Proof.
  unfold reachable.
  apply (rtc_l step initial Sample.started); [exact (step_start initial)|].
  apply (rtc_l step Sample.started Sample.withF);
    [exact (step_addPayment 1000 (Sample.payment "F") (str "S") Sample.started)|].
  apply (rtc_l step Sample.withF Sample.withG);
    [exact (step_addPayment 1001 (Sample.payment "G") (str "S") Sample.withF)|].
  apply rtc_refl.
Defined.

Lemma registered_wellFormed : wellFormed Sample.registered.
Proof. exact (reachable_wellFormed _ registered_reachable). Qed.

Lemma registered_sessions :
  userSessions Sample.registered = {[ str "S" := {[ str "F"; str "G" ]} ]}.
Proof. vm_compute. reflexivity. Qed.

Lemma registered_index (F : jsstring) (sid : jsstring) :
  inSession F sid Sample.registered -> sid = str "S".
Proof.
  intros (payments & Hlookup & _). rewrite registered_sessions in Hlookup.
  apply lookup_singleton_Some in Hlookup. symmetry. apply Hlookup.
Qed.

(** C2, as stated, fails: registering ["F"] again is not rejected, and the
    entry that had been checked once is replaced by a new one. *)
Lemma addPayment_again_replaces :
  let again := addPayment 9000 (Sample.payment "F") (str "T") in
  result again Sample.checkedOnce = Returned tt
  /\ (MonitorInfo.checkCount <$> get (str "F") Sample.checkedOnce) = Some 1%nat
  /\ (MonitorInfo.checkCount <$> get (str "F") (exec again Sample.checkedOnce))
     = Some 0%nat
  /\ get (str "F") (exec again Sample.checkedOnce)
     <> get (str "F") Sample.checkedOnce.
Proof.
  vm_compute. repeat split; try reflexivity. discriminate.
Qed.

Lemma lastFirst_rearranges : rearranges Sample.lastFirst.
Proof. intros pending. symmetry. apply Permutation_rev. Qed.


Lemma checkAllPayments_expired_witness :
  get (str "F")
    (exec (checkAllPayments 1801001 Sample.paidChecker Sample.lastFirst)
       Sample.registered)
  = None.
Proof.
  refine (proj1 (proj2 (proj2
    (checkAllPayments_expired 1801001 Sample.paidChecker Sample.lastFirst
       Sample.registered
       (str "F") 0%nat (freshEntry 1000 (Sample.payment "F") (str "S"))
       registered_wellFormed _ lastFirst_rearranges _ _ _)))).
  - vm_compute. reflexivity.
  - vm_compute. reflexivity.
  - vm_compute. reflexivity.
  - vm_compute. reflexivity.
Defined.

(** C8, as stated, fails: the entry that expires keeps the status it had;
    the status ['EXPIRED'] is written nowhere. *)
Lemma expired_entry_keeps_its_status :
  let s' := exec (checkAllPayments 1801001 Sample.paidChecker Sample.lastFirst)
              Sample.registered in
  let info := freshEntry 1000 (Sample.payment "F") (str "S") in
  List.filter (isExpiryOf (str "F")) (emitted s')
  = [payment_expired (str "F") info 1800000]
  /\ objects s' !! 0%nat = Some info
  /\ MonitorInfo.status info = str "MONITORING"
  /\ MonitorInfo.status info <> str "EXPIRED".
Proof.
  vm_compute. repeat split; try reflexivity. discriminate.
Qed.

Lemma checkSinglePayment_inconclusive_witness :
  MonitorInfo.status <$> get (str "F") Sample.checkedOnce = Some (str "UNPAID").
Proof.
  assert (H1 : Map_get (str "F") (activeMonitors Sample.registered) = Some 0%nat)
    by (vm_compute; reflexivity).
  assert (H2 : objects Sample.registered !! 0%nat
               = Some (freshEntry 1000 (Sample.payment "F") (str "S")))
    by (vm_compute; reflexivity).
  pose proof (checkSinglePayment_inconclusive 5000 5200
                (Returned (Sample.answer "UNPAID")) (str "F") 0%nat
                (freshEntry 1000 (Sample.payment "F") (str "S"))
                Sample.registered H1 H2) as Hcheck.
  cbv zeta in Hcheck.
  destruct Hcheck as (_ & _ & Hget & _).
  - vm_compute. discriminate.
  - intros res [= <-]. vm_compute. discriminate.
  - unfold Sample.checkedOnce. rewrite Hget. vm_compute. reflexivity.
Defined.

(** C9, as stated, fails: after a check answered UNPAID the status of the
    entry is ['UNPAID'], not ['MONITORING']. *)
Lemma unpaid_answer_is_the_new_status :
  MonitorInfo.status <$> get (str "F") Sample.registered = Some (str "MONITORING")
  /\ MonitorInfo.status <$> get (str "F") Sample.checkedOnce = Some (str "UNPAID")
  /\ str "UNPAID" <> str "MONITORING".
Proof.
  vm_compute. repeat split; try reflexivity. discriminate.
Qed.

Lemma no_entry_is_paid_witness : getCompletedPayments Sample.registered = 0%nat.
Proof.
  exact (proj1 (proj2 (proj2 (no_entry_is_paid _ registered_reachable)))).
Defined.

End SampleRun.

(** * More of the payload codec *)

Section CodecMore.
Context `{Engine}.
Import BakongKHQR.

(** ** The checksum tells payloads apart *)

Lemma crcShift_odd (r : Z) : Z.odd (Design.crcShift r) = Z.testbit r 15.
Proof.
  unfold Design.crcShift.
  assert (Hshift : (2 * r) mod 2 ^ 16 = 2 * (r mod 2 ^ 15)).
  { change (2 ^ 16) with (2 * 2 ^ 15). apply Z.mul_mod_distr_l; lia. }
  rewrite Hshift. rewrite <- Z.bit0_odd.
  destruct (Z.testbit r 15).
  - rewrite Z.lxor_spec, Z.testbit_even_0. reflexivity.
  - apply Z.testbit_even_0.
Qed.

Lemma lxor_cancel_r (a b k : Z) : Z.lxor a k = Z.lxor b k -> a = b.
Proof.
  intros Heq. apply (f_equal (fun x => Z.lxor x k)) in Heq.
  rewrite !Z.lxor_assoc, Z.lxor_nilpotent, !Z.lxor_0_r in Heq. exact Heq.
Qed.

Lemma lxor_cancel_l (a b k : Z) : Z.lxor k a = Z.lxor k b -> a = b.
Proof. rewrite !(Z.lxor_comm k). apply lxor_cancel_r. Qed.

Lemma testbit_15 (r : Z) :
  0 <= r < 2 ^ 16 -> r = 2 ^ 15 * (if Z.testbit r 15 then 1 else 0) + r mod 2 ^ 15.
Proof.
  intros Hr. rewrite Z.testbit_odd, Z.shiftr_div_pow2 by lia.
  pose proof (Z.div_mod r (2 ^ 15) ltac:(lia)) as Hdiv.
  assert (Hq : 0 <= r / 2 ^ 15 < 2).
  { split; [apply Z.div_pos; lia|apply Z.div_lt_upper_bound; lia]. }
  assert (Hcases : r / 2 ^ 15 = 0 \/ r / 2 ^ 15 = 1) by lia.
  destruct Hcases as [Hc|Hc]; rewrite Hc in *; cbn [Z.odd]; lia.
Qed.

Lemma crcShift_inj (r1 r2 : Z) :
  0 <= r1 < 2 ^ 16 -> 0 <= r2 < 2 ^ 16 ->
  Design.crcShift r1 = Design.crcShift r2 -> r1 = r2.
Proof.
  intros Hr1 Hr2 Heq.
  assert (Hbit : Z.testbit r1 15 = Z.testbit r2 15)
    by (rewrite <- !crcShift_odd, Heq; reflexivity).
  assert (Hlow : r1 mod 2 ^ 15 = r2 mod 2 ^ 15).
  { unfold Design.crcShift in Heq. rewrite <- Hbit in Heq.
    assert (Hshift : forall r, (2 * r) mod 2 ^ 16 = 2 * (r mod 2 ^ 15)).
    { intros r. change (2 ^ 16) with (2 * 2 ^ 15). apply Z.mul_mod_distr_l; lia. }
    rewrite !Hshift in Heq.
    destruct (Z.testbit r1 15); [apply lxor_cancel_r in Heq|]; lia. }
  rewrite (testbit_15 r1 Hr1), (testbit_15 r2 Hr2), Hbit, Hlow. reflexivity.
Qed.

Lemma iter_crcShift_inj (n : nat) (r1 r2 : Z) :
  0 <= r1 < 2 ^ 16 -> 0 <= r2 < 2 ^ 16 ->
  Nat.iter n Design.crcShift r1 = Nat.iter n Design.crcShift r2 -> r1 = r2.
Proof.
  intros Hr1 Hr2. induction n as [|n IH]; [intros Heq; exact Heq|].
  cbn [Nat.iter]. intros Heq. apply IH.
  apply crcShift_inj; [apply iter_crcShift_range, Hr1|apply iter_crcShift_range, Hr2|].
  exact Heq.
Qed.

Lemma byte_shifted (b : Z) : 0 <= b < 256 -> 0 <= b * 2 ^ 8 < 2 ^ 16.
Proof. intros Hb. change (2 ^ 8) with 256. change (2 ^ 16) with 65536. lia. Qed.

Lemma crcByte_inj_register (r1 r2 b : Z) :
  0 <= r1 < 2 ^ 16 -> 0 <= r2 < 2 ^ 16 -> 0 <= b < 256 ->
  Design.crcByte r1 b = Design.crcByte r2 b -> r1 = r2.
Proof.
  intros Hr1 Hr2 Hb Heq. unfold Design.crcByte in Heq.
  apply iter_crcShift_inj in Heq;
    [|apply lxor_below; [assumption|apply byte_shifted, Hb]..].
  exact (lxor_cancel_r _ _ _ Heq).
Qed.

Lemma crcByte_inj_byte (r b1 b2 : Z) :
  0 <= r < 2 ^ 16 -> 0 <= b1 < 256 -> 0 <= b2 < 256 ->
  Design.crcByte r b1 = Design.crcByte r b2 -> b1 = b2.
Proof.
  intros Hr Hb1 Hb2 Heq. unfold Design.crcByte in Heq.
  apply iter_crcShift_inj in Heq;
    [|apply lxor_below; [assumption|apply byte_shifted; assumption]..].
  apply lxor_cancel_l in Heq. change (2 ^ 8) with 256 in Heq. lia.
Qed.

Lemma lowByte_range (c : Z) : 0 <= Design.lowByte c < 256.
Proof. unfold Design.lowByte. apply Z.mod_pos_bound. lia. Qed.

Lemma fold_crcByte_range (bytes : list Z) (r : Z) :
  0 <= r < 2 ^ 16 -> 0 <= fold_left Design.crcByte bytes r < 2 ^ 16.
Proof.
  revert r. induction bytes as [|b bytes IH]; intros r Hr; [exact Hr|].
  cbn [fold_left]. apply IH, crcByte_range.
Qed.

Lemma fold_crcByte_inj (data : jsstring) (r1 r2 : Z) :
  0 <= r1 < 2 ^ 16 -> 0 <= r2 < 2 ^ 16 ->
  fold_left Design.crcByte (map Design.lowByte data) r1
  = fold_left Design.crcByte (map Design.lowByte data) r2 ->
  r1 = r2.
Proof.
  revert r1 r2. induction data as [|c data IH]; intros r1 r2 Hr1 Hr2 Heq;
    [exact Heq|].
  cbn [map fold_left] in Heq.
  apply IH in Heq; [|apply crcByte_range..].
  exact (crcByte_inj_register _ _ _ Hr1 Hr2 (lowByte_range c) Heq).
Qed.

Lemma hexDigit_inj (d1 d2 : Z) :
  0 <= d1 < 16 -> 0 <= d2 < 16 -> Design.hexDigit d1 = Design.hexDigit d2 -> d1 = d2.
Proof.
  unfold Design.hexDigit. intros Hd1 Hd2.
  destruct (d1 <? 10) eqn:E1, (d2 <? 10) eqn:E2; lia.
Qed.

Lemma hex4_inj (v1 v2 : Z) :
  0 <= v1 < 2 ^ 16 -> 0 <= v2 < 2 ^ 16 -> Design.hex4 v1 = Design.hex4 v2 -> v1 = v2.
Proof.
  intros Hv1 Hv2 Heq. unfold Design.hex4 in Heq.
  assert (Hparts : forall v, 0 <= v < 2 ^ 16 ->
            v = 4096 * (v / 4096) + 256 * (v / 256 mod 16) + 16 * (v / 16 mod 16)
                + v mod 16
            /\ 0 <= v / 4096 < 16 /\ 0 <= v / 256 mod 16 < 16
            /\ 0 <= v / 16 mod 16 < 16 /\ 0 <= v mod 16 < 16).
  { intros v Hv. change (2 ^ 16) with 65536 in Hv.
    pose proof (Z.div_mod v 16 ltac:(lia)).
    pose proof (Z.div_mod (v / 16) 16 ltac:(lia)).
    pose proof (Z.div_mod (v / 16 / 16) 16 ltac:(lia)).
    rewrite !Z.div_div in * by lia. change (16 * 16) with 256 in *.
    change (256 * 16) with 4096 in *.
    pose proof (Z.mod_pos_bound v 16 ltac:(lia)).
    pose proof (Z.mod_pos_bound (v / 16) 16 ltac:(lia)).
    pose proof (Z.mod_pos_bound (v / 256) 16 ltac:(lia)).
    assert (0 <= v / 4096 < 16)
      by (split; [apply Z.div_pos; lia|apply Z.div_lt_upper_bound; lia]).
    lia. }
  destruct (Hparts v1 Hv1) as (E1 & ? & ? & ? & ?).
  destruct (Hparts v2 Hv2) as (E2 & ? & ? & ? & ?).
  injection Heq as Hd3 Hd2 Hd1 Hd0.
  apply hexDigit_inj in Hd3, Hd2, Hd1, Hd0; try assumption.
  rewrite E1, E2, Hd3, Hd2, Hd1, Hd0. reflexivity.
Qed.

(** X1. The checksum detects a change of one character: two texts that
    differ in one character, by its low byte, have different checksums. *)
Theorem generateCRC16_detects_one_change (before after : jsstring) (c c' : Z) :
  c mod 256 <> c' mod 256 ->
  generateCRC16 (before ++ c :: after) <> generateCRC16 (before ++ c' :: after).
Proof.
  intros Hc Heq. rewrite !generateCRC16_hex4 in Heq.
  apply hex4_inj in Heq; [|apply computeCRC16_range..].
  unfold Design.computeCRC16 in Heq.
  rewrite !map_app, !fold_left_app in Heq. cbn [map fold_left] in Heq.
  set (r := fold_left Design.crcByte (map Design.lowByte before) 65535) in *.
  assert (Hr : 0 <= r < 2 ^ 16) by (apply fold_crcByte_range; lia).
  apply fold_crcByte_inj in Heq; [|apply crcByte_range..].
  apply crcByte_inj_byte in Heq; [|exact Hr|apply lowByte_range..].
  exact (Hc Heq).
Qed.

(** ** The timestamp field *)

Lemma length_toString_13 (now : Z) :
  10 ^ 12 <= now < 10 ^ 13 -> length (toString now) = 13%nat.
Proof.
  intros Hnow. rewrite toString_nonneg by lia.
  pose proof (digits_length_le 10 ltac:(lia) 12 now ltac:(split; [lia|apply Hnow])).
  pose proof (digits_length_gt 10 ltac:(lia) 12 now ltac:(apply Hnow)).
  lia.
Qed.

Lemma timestamp_13 (now : Z) :
  10 ^ 12 <= now < 10 ^ 13 -> timestamp now = str "99170013" ++ toString now.
Proof.
  intros Hnow. unfold timestamp.
  rewrite !length_app, (length_toString_13 now Hnow). reflexivity.
Qed.

Lemma digitChar_inj (d1 d2 : Z) :
  0 <= d1 < 10 -> 0 <= d2 < 10 -> digitChar d1 = digitChar d2 -> d1 = d2.
Proof.
  unfold digitChar. intros Hd1 Hd2.
  destruct (d1 <? 10) eqn:E1, (d2 <? 10) eqn:E2; lia.
Qed.

Lemma digits_nonempty (n : Z) : 0 <= n -> digits 10 n <> [].
Proof.
  intros Hn. rewrite (digits_step 10) by lia. intros Heq.
  apply app_eq_nil in Heq. destruct Heq as [_ Heq]. discriminate.
Qed.

Lemma digits_inj (n m : Z) :
  0 <= n -> 0 <= m -> digits 10 n = digits 10 m -> n = m.
Proof.
  intros Hn. revert m.
  assert (Hk : exists k : nat, n < Z.of_nat k) by (exists (S (Z.to_nat n)); lia).
  destruct Hk as [k Hk]. revert n Hn Hk.
  induction k as [|k IH]; intros n Hn Hk m Hm Heq; [lia|].
  rewrite (digits_step 10 ltac:(lia) n), (digits_step 10 ltac:(lia) m) in Heq by lia.
  apply app_inj_tail in Heq. destruct Heq as [Hinit Hlast].
  apply digitChar_inj in Hlast; [|apply Z.mod_pos_bound; lia..].
  assert (Hq : n / 10 = m / 10).
  { assert (0 <= n / 10) by (apply Z.div_pos; lia).
    assert (0 <= m / 10) by (apply Z.div_pos; lia).
    destruct (n / 10 =? 0) eqn:En, (m / 10 =? 0) eqn:Em.
    - lia.
    - symmetry in Hinit. apply digits_nonempty in Hinit; [contradiction|lia].
    - apply digits_nonempty in Hinit; [contradiction|lia].
    - apply Z.eqb_neq in En.
      assert (0 < n) by (destruct (Z.eq_dec n 0) as [->|]; [contradiction En; reflexivity|lia]).
      assert (n / 10 < n) by (apply Z.div_lt; lia).
      apply (IH (n / 10)); [lia|lia|lia|exact Hinit]. }
  pose proof (Z.div_mod n 10 ltac:(lia)).
  pose proof (Z.div_mod m 10 ltac:(lia)). lia.
Qed.

(** X2. The timestamp field of a clock of thirteen digits (any time from
    September 2001 to November 2286), and payloads made at different
    clocks: the field is ["99170013"] and the thirteen digits, and two
    payloads of the same options made at different milliseconds differ. *)
Theorem createQR_clock_apart (now now' : Z) (o : Options.t) (p p' : jsstring) :
  10 ^ 12 <= now < 10 ^ 13 -> 10 ^ 12 <= now' < 10 ^ 13 ->
  createQR now o = Returned p -> createQR now' o = Returned p' ->
  timestamp now = str "99170013" ++ toString now
  /\ length (timestamp now) = 21%nat
  /\ (now <> now' -> p <> p').
Proof.
  intros Hnow Hnow' Hp Hp'.
  split; [apply timestamp_13, Hnow|].
  split; [rewrite timestamp_13, length_app, length_toString_13 by exact Hnow; reflexivity|].
  intros Hne Heq. apply Hne.
  apply createQR_returned in Hp, Hp'. destruct Hp as [-> _], Hp' as [-> _].
  unfold Design.payloadFields, Design.bodyFields, Design.headerFields,
    Design.serializeAll in Heq.
  cbn [map concat app] in Heq.
  do 7 (apply app_inv_head in Heq).
  assert (Hts : forall t, 10 ^ 12 <= t < 10 ^ 13 ->
            Design.serialize
              {| Design.tag := str "99"; Design.value := Design.timestampValue t |}
            = str "99170013" ++ toString t).
  { intros t Ht. rewrite <- formatValue_serialize.
    unfold formatValue, Design.timestampValue, Design.length2.
    rewrite !length_app, (length_toString_13 t Ht). reflexivity. }
  rewrite (Hts now Hnow), (Hts now' Hnow') in Heq.
  rewrite <- !app_assoc in Heq. apply app_inv_head in Heq.
  apply (f_equal (firstn 13)) in Heq.
  rewrite !firstn_app, !length_toString_13 in Heq by assumption.
  rewrite Nat.sub_diag in Heq. cbn [firstn] in Heq. rewrite !app_nil_r in Heq.
  rewrite <- (length_toString_13 now Hnow) in Heq at 1.
  rewrite <- (length_toString_13 now' Hnow') in Heq at 1.
  rewrite !firstn_all in Heq.
  rewrite !toString_nonneg in Heq by lia.
  apply digits_inj in Heq; lia.
Qed.

(** ** The width of the amount field *)

Lemma hundredths_below (x c : Q) (n : Z) :
  (x < c)%Q -> (c * inject_Z 100 + (1 # 2) <= inject_Z n)%Q ->
  Design.hundredths x < n.
Proof.
  intros Hx Hc. unfold Design.hundredths.
  rewrite Zlt_Qlt.
  apply (Qle_lt_trans _ (x * inject_Z 100 + (1 # 2))); [apply Qfloor_le|].
  apply (Qlt_le_trans _ (c * inject_Z 100 + (1 # 2))); [|exact Hc].
  apply Qplus_lt_l. apply Qmult_lt_r; [reflexivity|exact Hx].
Qed.

Lemma length_significant (h : Z) (k : nat) :
  0 <= h < 100 * 10 ^ Z.of_nat (S k) ->
  (1 <= length (Design.significant h) <= S k + 3)%nat.
Proof.
  intros Hh.
  assert (Hq : 0 <= h / 100 < 10 ^ Z.of_nat (S k)).
  { split; [apply Z.div_pos; lia|apply Z.div_lt_upper_bound; lia]. }
  pose proof (digits_length_le 10 ltac:(lia) k (h / 100) Hq) as Hlen.
  rewrite <- toString_nonneg in Hlen by lia.
  unfold Design.significant, Design.twoDecimals.
  destruct (h mod 100 =? 0); [lia|].
  destruct (h mod 10 =? 0); rewrite !length_app; cbn [length str]; 
    change (length (str ".")) with 1%nat; lia.
Qed.

Lemma amountString_nonneg (x : Q) :
  (0 <= x)%Q ->
  Design.amountString x = padStart 11 48 (Design.significant (Design.hundredths x)).
Proof.
  intros Hx. unfold Design.amountString.
  assert (Hle : Qle_bool 0 x = true) by (apply Qle_bool_iff; exact Hx).
  rewrite Hle. cbn [app].
  assert (Habs : Design.hundredths (Qabs x) = Design.hundredths x).
  { unfold Design.hundredths. apply Qfloor_comp.
    rewrite Qabs_pos by exact Hx. reflexivity. }
  rewrite Habs. reflexivity.
Qed.

(** X3. The amount field has a fixed width for every amount from zero up
    to 99,999,999.99 (when rounded to cents): it is ["5411"] and a value of
    eleven characters, and [amount] does not reject it. *)
Theorem amount_field_width (x : Q) :
  (0 <= x)%Q -> (x < 99999999995 # 1000)%Q ->
  amount x = Returned (str "5411" ++ paddedAmountStr x)
  /\ length (paddedAmountStr x) = 11%nat.
Proof.
  intros Hx Hmax.
  assert (Habs : (Qabs x < inject_Z (10 ^ 21))%Q).
  { rewrite Qabs_pos by exact Hx.
    apply (Qlt_trans _ (99999999995 # 1000)); [exact Hmax|reflexivity]. }
  assert (Hh : 0 <= Design.hundredths x < 100 * 10 ^ Z.of_nat 8).
  { split; [apply hundredths_nonneg, Hx|].
    apply (hundredths_below x (99999999995 # 1000)); [exact Hmax|].
    vm_compute. discriminate. }
  pose proof (length_significant _ 7 Hh) as Hlen.
  assert (Hwidth : length (paddedAmountStr x) = 11%nat).
  { rewrite (paddedAmountStr_amountString x Habs), (amountString_nonneg x Hx).
    rewrite length_padStart. lia. }
  split; [|exact Hwidth].
  unfold amount. rewrite validateLength_cases.
  destruct (Design.exceedsb _) eqn:E.
  - apply exceedsb_exceeds in E. unfold Design.exceeds in E. cbn [fst snd] in E.
    unfold EMV.INVALID_LENGTH_TRANSACTION_AMOUNT in E. lia.
  - cbn [mbind outcome_bind mret outcome_ret]. unfold formatValue.
    rewrite Hwidth. reflexivity.
Qed.

(** X4. The amount is rounded to cents before it is written: an amount
    below half a cent, positive or not, is written as zero, and two
    amounts with the same number of cents are written alike. *)
Theorem amount_rounds_to_cents (x y : Q) :
  (0 <= x)%Q -> (0 <= y)%Q ->
  (x < inject_Z (10 ^ 21))%Q -> (y < inject_Z (10 ^ 21))%Q ->
  (Design.hundredths x = Design.hundredths y -> paddedAmountStr x = paddedAmountStr y)
  /\ ((x < 1 # 200)%Q -> paddedAmountStr x = str "00000000000").
Proof.
  intros Hx Hy Hxmax Hymax.
  assert (Hstr : forall z, (0 <= z)%Q -> (z < inject_Z (10 ^ 21))%Q ->
            paddedAmountStr z
            = padStart 11 48 (Design.significant (Design.hundredths z))).
  { intros z Hz Hzmax. rewrite paddedAmountStr_amountString.
    - apply amountString_nonneg, Hz.
    - rewrite Qabs_pos by exact Hz. exact Hzmax. }
  split.
  - intros Heq. rewrite (Hstr x Hx Hxmax), (Hstr y Hy Hymax), Heq. reflexivity.
  - intros Hsmall. rewrite (Hstr x Hx Hxmax).
    assert (Hzero : Design.hundredths x = 0).
    { pose proof (hundredths_nonneg x Hx).
      assert (Design.hundredths x < 1).
      { apply (hundredths_below x (1 # 200)); [exact Hsmall|]. vm_compute. discriminate. }
      lia. }
    rewrite Hzero. reflexivity.
Qed.

(** ** The additional data field *)

Lemma length_toString_3 (n : Z) : 100 <= n < 1000 -> length (toString n) = 3%nat.
Proof.
  intros Hn. rewrite toString_nonneg by lia.
  pose proof (digits_length_le 10 ltac:(lia) 2 n ltac:(split; [lia|apply Hn])).
  pose proof (digits_length_gt 10 ltac:(lia) 2 n ltac:(apply Hn)).
  lia.
Qed.

(** X5. The additional data field is accepted whenever each of its four
    attributes is within its ceiling of 25 characters; nothing bounds
    their sum, and from 84 characters on the length of the field is
    written with three digits instead of two. *)
Theorem additionalDataField_length (storeLabel phoneNumber billNumber
    terminalLabel : jsstring) :
  (length storeLabel <= 25)%nat -> (length phoneNumber <= 25)%nat ->
  (length billNumber <= 25)%nat -> (length terminalLabel <= 25)%nat ->
  let total := (length billNumber + length phoneNumber + length storeLabel
                + length terminalLabel)%nat in
  let combined :=
    formatValue (str "01") billNumber ++ formatValue (str "02") phoneNumber
      ++ formatValue (str "03") storeLabel ++ formatValue (str "07") terminalLabel in
  length combined = (16 + total)%nat
  /\ additionalDataField storeLabel phoneNumber billNumber terminalLabel
     = Returned (str "62" ++ padStart 2 48 (toString (Z.of_nat (16 + total)))
                   ++ combined)
  /\ ((84 <= total)%nat ->
      additionalDataField storeLabel phoneNumber billNumber terminalLabel
      = Returned (str "62" ++ toString (Z.of_nat (16 + total)) ++ combined)
      /\ length (toString (Z.of_nat (16 + total))) = 3%nat).
Proof.
  intros Hs Hp Hb Ht total combined.
  assert (Hfield : forall t v, length t = 2%nat -> (length v <= 25)%nat ->
            length (formatValue t v) = (4 + length v)%nat).
  { intros t v Htag Hv. rewrite formatValue_serialize, length_serialize; cbn; lia. }
  assert (Hlen : length combined = (16 + total)%nat).
  { subst combined total. rewrite !length_app, !Hfield by (assumption || reflexivity). lia. }
  assert (Hrun : additionalDataField storeLabel phoneNumber billNumber terminalLabel
                 = Returned (str "62" ++ padStart 2 48 (toString (Z.of_nat (16 + total)))
                               ++ combined)).
  { assert (Hin : forall (name v : jsstring), (length v <= 25)%nat ->
              Design.exceedsb (name, length v, 25) = false).
    { intros name v Hv. unfold Design.exceedsb. cbn [fst snd]. lia. }
    unfold additionalDataField. rewrite !validateLength_cases.
    unfold EMV.INVALID_LENGTH_BILL_NUMBER, EMV.INVALID_LENGTH_MOBILE_NUMBER,
      EMV.INVALID_LENGTH_STORE_LABEL, EMV.INVALID_LENGTH_TERMINAL_LABEL.
    rewrite !Hin by assumption.
    cbn [mbind outcome_bind mret outcome_ret].
    change (Returned (EMV.ADDITION_DATA_TAG
                        ++ padStart 2 48 (toString (Z.of_nat (length combined)))
                        ++ combined)
            = Returned (str "62" ++ padStart 2 48 (toString (Z.of_nat (16 + total)))
                          ++ combined)).
    rewrite Hlen. reflexivity. }
  split; [exact Hlen|]. split; [exact Hrun|].
  intros Hlong.
  assert (Hthree : length (toString (Z.of_nat (16 + total))) = 3%nat)
    by (apply length_toString_3; lia).
  split; [|exact Hthree].
  rewrite Hrun, padStart_long by lia. reflexivity.
Qed.
End CodecMore.

(** ** The codec on sample texts and amounts *)

Lemma generateCRC16_detects_one_change_witness :
  98 mod 256 <> 99 mod 256
  /\ @BakongKHQR.generateCRC16 asciiEngine (str "ab")
     <> @BakongKHQR.generateCRC16 asciiEngine (str "ac").
Proof.
  assert (Hc : 98 mod 256 <> 99 mod 256) by (vm_compute; discriminate).
  split; [exact Hc|].
  exact (@generateCRC16_detects_one_change asciiEngine (str "a") [] 98 99 Hc).
Defined.

Lemma createQR_clock_apart_witness :
  let later :=
    match @BakongKHQR.createQR asciiEngine 1700000000001
            (sampleOptions false (21 # 2)) with
    | Returned p => p
    | Threw _ => []
    end in
  @BakongKHQR.timestamp 1700000000000 = str "99170013" ++ toString 1700000000000
  /\ samplePayload <> later.
Proof.
  intros later.
  assert (Hclock : forall t, (10 ^ 12 <=? t) && (t <? 10 ^ 13) = true ->
                             10 ^ 12 <= t < 10 ^ 13).
  { intros t Ht. apply andb_true_iff in Ht. destruct Ht as [Hle Hlt].
    split; [apply Z.leb_le, Hle|apply Z.ltb_lt, Hlt]. }
  assert (Hlater : @BakongKHQR.createQR asciiEngine 1700000000001
                     (sampleOptions false (21 # 2)) = Returned later)
    by (vm_compute; reflexivity).
  pose proof (@createQR_clock_apart asciiEngine 1700000000000 1700000000001
                (sampleOptions false (21 # 2)) samplePayload later
                (Hclock 1700000000000 eq_refl) (Hclock 1700000000001 eq_refl)
                createQR_sample Hlater)
    as (Hstamp & _ & Hapart).
  split; [exact Hstamp|]. apply Hapart. discriminate.
Defined.

Lemma amount_field_width_witness :
  length (@BakongKHQR.paddedAmountStr asciiEngine (21 # 2)) = 11%nat.
Proof.
  refine (proj2 (@amount_field_width asciiEngine (21 # 2) _ _)).
  - vm_compute. discriminate.
  - vm_compute. reflexivity.
Defined.

Lemma amount_rounds_to_cents_witness :
  (1 # 1000 < 1 # 200)%Q
  /\ @BakongKHQR.paddedAmountStr asciiEngine (1 # 1000) = str "00000000000".
Proof.
  assert (Hsmall : (1 # 1000 < 1 # 200)%Q) by (vm_compute; reflexivity).
  split; [exact Hsmall|].
  refine (proj2 (@amount_rounds_to_cents asciiEngine (1 # 1000) (1 # 1000) _ _ _ _)
            Hsmall).
  - vm_compute. discriminate.
  - vm_compute. discriminate.
  - vm_compute. reflexivity.
  - vm_compute. reflexivity.
Defined.

Lemma additionalDataField_length_witness :
  let label := str "1234567890123456789012345" in
  exists combined,
    BakongKHQR.additionalDataField label label label label
    = Returned (str "62116" ++ combined)
    /\ length combined = 116%nat.
Proof.
  intros label.
  pose proof (additionalDataField_length label label label label
                ltac:(vm_compute; lia) ltac:(vm_compute; lia)
                ltac:(vm_compute; lia) ltac:(vm_compute; lia))
    as (Hlen & _ & Hlong).
  destruct (Hlong ltac:(vm_compute; lia)) as [Hrun _].
  eexists. split; [exact Hrun|exact Hlen].
Defined.

(** * More of the payment monitor *)

Section MonitorQueries.
Import AutoPaymentMonitor.

(** ** Durations *)

(** X6. [formatDuration] prints the whole seconds of a duration in hours,
    minutes and seconds. *)
Theorem formatDuration_units (milliseconds : Z) :
  0 <= milliseconds ->
  let total := milliseconds / 1000 in
  let h := total / 3600 in
  let m := total / 60 mod 60 in
  let s := total mod 60 in
  total = 3600 * h + 60 * m + s
  /\ 0 <= h /\ 0 <= m < 60 /\ 0 <= s < 60
  /\ formatDuration milliseconds =
       if 0 <? h then
         toString h ++ str "h " ++ toString m ++ str "m " ++ toString s ++ str "s"
       else if 0 <? m then toString m ++ str "m " ++ toString s ++ str "s"
       else toString s ++ str "s".
Proof.
  intros Hms total h m s.
  assert (Htotal : 0 <= total) by (apply Z.div_pos; lia).
  assert (Hmin : 0 <= total / 60) by (apply Z.div_pos; lia).
  assert (Hh : total / 60 / 60 = h) by (subst h; rewrite Z.div_div by lia; reflexivity).
  pose proof (Z.mod_pos_bound total 60 ltac:(lia)) as Hs.
  pose proof (Z.mod_pos_bound (total / 60) 60 ltac:(lia)) as Hm.
  pose proof (Z.div_mod total 60 ltac:(lia)) as Hdiv.
  pose proof (Z.div_mod (total / 60) 60 ltac:(lia)) as Hdiv'.
  assert (0 <= h) by (subst h; apply Z.div_pos; lia).
  split; [subst h m s; lia|].
  split; [assumption|]. split; [exact Hm|]. split; [exact Hs|].
  unfold formatDuration. fold total. rewrite Hh.
  rewrite !Z.rem_mod_nonneg by lia. fold m s.
  rewrite !Z.gtb_ltb.
  destruct (0 <? h) eqn:Eh; [reflexivity|].
  apply Z.ltb_ge in Eh.
  assert (Hm' : total / 60 = m) by (subst m; lia).
  rewrite Hm'.
  destruct (0 <? m) eqn:Em; [reflexivity|].
  apply Z.ltb_ge in Em.
  assert (Hs' : total = s) by (subst s; lia).
  rewrite Hs' at 1. reflexivity.
Qed.

(** ** What [removePayment] does, in every case *)

#[local] Existing Instance keeps_preorder.
#[local] Existing Instance unchangedFor_preorder.

Lemma removePayment_unregistered (G : jsstring) (s : t) :
  Map_get G (activeMonitors s) = None -> removePayment G s = (Returned tt, s).
Proof.
  intros Hget. unfold removePayment, gets. rewrite bind_run. cbn [fst snd].
  rewrite Hget. reflexivity.
Qed.

Lemma removePayment_books (G : jsstring) (s : t) :
  let s' := exec (removePayment G) s in
  objects s' = objects s /\ emitted s' = emitted s
  /\ maxMonitorTime s' = maxMonitorTime s /\ isRunning s' = isRunning s
  /\ ((Map_get G (activeMonitors s) = None /\ s' = s)
      \/ (activeMonitors s' = Map_delete G (activeMonitors s)
          /\ paymentQueue s' = delete G (paymentQueue s)
          /\ (userSessions s' = userSessions s
              \/ exists sid payments,
                   userSessions s !! sid = Some payments
                   /\ userSessions s' =
                        if decide (size (payments ∖ {[G]}) = 0%nat)
                        then delete sid (<[sid := payments ∖ {[G]}]> (userSessions s))
                        else <[sid := payments ∖ {[G]}]> (userSessions s)))).
Proof.
  intros s'. subst s'. unfold exec, removePayment, gets, modify, deref.
  rewrite bind_run. cbn [fst snd].
  destruct (Map_get G (activeMonitors s)) as [r|] eqn:Hget.
  2:{ cbn [snd]. repeat (split; [reflexivity|]). left. split; reflexivity. }
  rewrite !bind_run. cbn [fst snd objects with_paymentQueue with_activeMonitors].
  destruct (objects s !! r) as [info|]; cbn [fst snd].
  2:{ repeat (split; [reflexivity|]). right. cbn.
      split; [reflexivity|]. split; [reflexivity|]. left. reflexivity. }
  rewrite bind_run. cbn [fst snd userSessions with_paymentQueue with_activeMonitors].
  destruct (userSessions s !! MonitorInfo.sessionId info) as [payments|] eqn:Hsess.
  2:{ repeat (split; [reflexivity|]). right. cbn.
      split; [reflexivity|]. split; [reflexivity|]. left. reflexivity. }
  rewrite bind_run. cbn [fst snd].
  case_decide as Hsize; cbn [snd].
  - repeat (split; [reflexivity|]). right. cbn.
    split; [reflexivity|]. split; [reflexivity|]. right.
    exists (MonitorInfo.sessionId info), payments. split; [exact Hsess|].
    rewrite decide_True by exact Hsize. reflexivity.
  - repeat (split; [reflexivity|]). right. cbn.
    split; [reflexivity|]. split; [reflexivity|]. right.
    exists (MonitorInfo.sessionId info), payments. split; [exact Hsess|].
    rewrite decide_False by exact Hsize. reflexivity.
Qed.

(** ** Invariants through the two parts of a check *)

Section KeptByChecks.
Variable P : t -> Prop.
Hypothesis kept_removePayment : forall G, preserves (keeps P) (removePayment G).
Hypothesis kept_update :
  forall r f,
    (forall info, MonitorInfo.sessionId (f info) = MonitorInfo.sessionId info) ->
    preserves (keeps P) (update r f).
Hypothesis kept_emit : forall e, preserves (keeps P) (emit e).

Lemma kept_expirePayment (F : jsstring) (l : ref) :
  preserves (keeps P) (expirePayment F l).
Proof using kept_removePayment kept_emit.
  unfold expirePayment.
  apply preserves_bind; [typeclasses eauto|apply kept_removePayment|intros _].
  apply preserves_bind; [typeclasses eauto|apply preserves_deref; typeclasses eauto|].
  intros info.
  apply preserves_bind; [typeclasses eauto|apply preserves_gets; typeclasses eauto|].
  intros d. apply kept_emit.
Qed.

Lemma kept_handlePaymentSuccess (now : Z) (F : jsstring) (l : ref)
    (res : CheckResult.t) :
  preserves (keeps P) (handlePaymentSuccess now F l res).
Proof using kept_removePayment kept_emit.
  unfold handlePaymentSuccess.
  apply preserves_bind; [typeclasses eauto|apply kept_removePayment|intros _].
  apply preserves_bind; [typeclasses eauto|apply preserves_deref; typeclasses eauto|].
  intros info. apply kept_emit.
Qed.

Lemma kept_issue (now : Z) (F : jsstring) (l : ref) :
  preserves (keeps P)
    (tryCatch (checkSinglePayment_issue now F l)
       (fun error => logError error ;; mret false)).
Proof using kept_removePayment kept_update kept_emit.
  apply preserves_tryCatch; [typeclasses eauto| |].
  - unfold checkSinglePayment_issue.
    apply preserves_bind; [typeclasses eauto|apply preserves_deref; typeclasses eauto|].
    intros info.
    apply preserves_bind; [typeclasses eauto|apply preserves_gets; typeclasses eauto|].
    intros maxTime. destruct (now - MonitorInfo.startTime info >? maxTime).
    + apply preserves_bind; [typeclasses eauto|apply kept_expirePayment|].
      intros _. apply preserves_mret. typeclasses eauto.
    + apply preserves_bind; [typeclasses eauto|apply kept_update; reflexivity|].
      intros _.
      apply preserves_bind; [typeclasses eauto|apply kept_update; reflexivity|].
      intros _. apply preserves_mret. typeclasses eauto.
  - intros e.
    apply preserves_bind; [typeclasses eauto|apply preserves_logError; typeclasses eauto|].
    intros _. apply preserves_mret. typeclasses eauto.
Qed.

Lemma kept_settle (now : Z) (answer : outcome CheckResult.t) (F : jsstring) (l : ref) :
  preserves (keeps P)
    (tryCatch (checkSinglePayment_settle now answer F l) logError).
Proof using kept_removePayment kept_update kept_emit.
  apply preserves_tryCatch; [typeclasses eauto| |].
  - unfold checkSinglePayment_settle.
    apply preserves_bind; [typeclasses eauto|apply preserves_await; typeclasses eauto|].
    intros res. case_decide.
    + apply kept_handlePaymentSuccess.
    + apply kept_update. reflexivity.
  - intros e. apply preserves_logError. typeclasses eauto.
Qed.

End KeptByChecks.

(** ** The queue and the registry hold the same fingerprints *)

Lemma queueMatches_removePayment (G : jsstring) :
  preserves (keeps queueMatches) (removePayment G).
Proof.
  intros s Hs F.
  destruct (removePayment_books G s) as (_ & _ & _ & _ & [[_ ->]|(Hreg & Hq & _)]);
    [apply Hs|].
  rewrite Hreg, Hq. destruct (decide (G = F)) as [->|HG].
  - rewrite lookup_delete_eq, Map_get_delete_eq. split; intros [x Hx]; discriminate.
  - rewrite lookup_delete_ne, Map_get_delete_ne by exact HG. apply Hs.
Qed.

Lemma queueMatches_update (r : ref) (f : MonitorInfo.t -> MonitorInfo.t) :
  preserves (keeps queueMatches) (update r f).
Proof.
  intros s Hs. unfold exec, update, deref, modify. rewrite bind_run.
  destruct (objects s !! r); exact Hs.
Qed.

Lemma queueMatches_emit (e : Event) : preserves (keeps queueMatches) (emit e).
Proof. intros s Hs. exact Hs. Qed.

Lemma queueMatches_addPayment (now : Z) (pd : PaymentData.t) (sid : jsstring) :
  preserves (keeps queueMatches) (addPayment now pd sid).
Proof.
  intros s Hs F.
  destruct (addPayment_run now pd sid s) as (s1 & Hrun & Hreg & _ & _ & Hq & _).
  unfold exec. rewrite Hrun. cbn [snd]. rewrite Hreg, Hq.
  destruct (decide (PaymentData.md5Hash pd = F)) as [<-|HF].
  - rewrite lookup_insert_eq, Map_get_set_eq. split; intros _; eexists; reflexivity.
  - rewrite lookup_insert_ne, Map_get_set_ne by exact HF. apply Hs.
Qed.

Lemma queueMatches_step (w w' : World) :
  step w w' -> queueMatches (monitor w) -> queueMatches (monitor w').
Proof.
  intros Hstep. destruct Hstep; cbn [monitor].
  - unfold exec, start, gets, modify. rewrite bind_run. cbn [fst snd].
    destruct (isRunning (monitor w)); intros Hs; exact Hs.
  - intros _ F.
    change (is_Some ((∅ : gmap jsstring PaymentData.t) !! F)
            <-> is_Some (Map_get F ([] : list (jsstring * ref)))).
    rewrite lookup_empty. split; intros [x Hx]; discriminate.
  - apply queueMatches_addPayment.
  - apply queueMatches_removePayment.
  - subst call.
    apply (kept_issue queueMatches queueMatches_removePayment
             (fun r f _ => queueMatches_update r f) queueMatches_emit).
  - subst call.
    apply (kept_settle queueMatches queueMatches_removePayment
             (fun r f _ => queueMatches_update r f) queueMatches_emit).
Qed.

Lemma Map_get_is_Some {V : Type} (k : jsstring) (m : list (jsstring * V)) :
  is_Some (Map_get k m) <-> k ∈ map fst m.
Proof.
  induction m as [|[k' v'] m IH].
  - cbn. split; [intros [x Hx]; discriminate|intros Hin; inversion Hin].
  - rewrite Map_get_cons. cbn [map fst]. rewrite elem_of_cons.
    case_decide as Hk.
    + subst k'. split; [intros _; left; reflexivity|intros _; eexists; reflexivity].
    + rewrite IH. split; [intros Hin; right; exact Hin|].
      intros [Heq|Hin]; [congruence|exact Hin].
Qed.

(** X7. The payment queue and the registry hold the same fingerprints in
    every state the monitor can reach, and as many of them. *)
Theorem queue_matches_registry (w : World) :
  reachable w ->
  (forall F, is_Some (paymentQueue (monitor w) !! F)
             <-> is_Some (get F (monitor w)))
  /\ size (paymentQueue (monitor w)) = getTotalPayments (monitor w).
Proof.
  intros Hreach.
  assert (Hq : queueMatches (monitor w)).
  { revert w Hreach. unfold reachable.
    apply (rtc_ind_r (fun w => queueMatches (monitor w)) initial).
    - intros F.
      change (is_Some ((∅ : gmap jsstring PaymentData.t) !! F)
              <-> is_Some (Map_get F ([] : list (jsstring * ref)))).
      rewrite lookup_empty. split; intros [x Hx]; discriminate.
    - intros y z _ Hstep IH. eapply queueMatches_step; eassumption. }
  destruct (reachable_wellFormed w Hreach) as [Hnd Hkeyed].
  split.
  - intros F. rewrite (Hq F). unfold get.
    destruct (Map_get F (activeMonitors (monitor w))) as [r|] eqn:Hget; cbn.
    + destruct (Hkeyed F r (Map_get_In _ _ _ Hget)) as (info & Hobj & _).
      rewrite Hobj. split; intros _; eexists; reflexivity.
    + split; intros [x Hx]; discriminate.
  - unfold getTotalPayments.
    rewrite <- (length_map fst (activeMonitors (monitor w))).
    rewrite <- (size_list_to_set (C:=gset jsstring) (map fst (activeMonitors (monitor w))))
      by exact Hnd.
    rewrite <- size_dom. f_equal. apply set_eq. intros F.
    rewrite elem_of_dom, elem_of_list_to_set, (Hq F). apply Map_get_is_Some.
Qed.

(** ** Every registered entry is in the index of its session *)

Lemma In_Map_get {V : Type} (k : jsstring) (v : V) (m : list (jsstring * V)) :
  NoDup (map fst m) -> In (k, v) m -> Map_get k m = Some v.
Proof.
  induction m as [|[k' v'] m IH]; [intros _ []|].
  cbn [map fst]. intros Hnd Hin. apply NoDup_cons in Hnd. destruct Hnd as [Hk' Hnd].
  rewrite Map_get_cons. destruct Hin as [[= -> ->]|Hin].
  - rewrite decide_True by reflexivity. reflexivity.
  - case_decide as Hk; [|apply IH; assumption].
    subst k'. exfalso. apply Hk'. apply list_elem_of_In, in_map_iff.
    exists (k, v). split; [reflexivity|exact Hin].
Qed.

Lemma indexed_removePayment (G : jsstring) :
  preserves (keeps indexed) (removePayment G).
Proof.
  intros s [Hin Hne]. split.
  - intros F info Hget.
    destruct (decide (G = F)) as [->|HG].
    { unfold get in Hget. rewrite removePayment_gone in Hget. discriminate. }
    unfold get in Hget.
    destruct (Map_get F (activeMonitors (exec (removePayment G) s))) as [l|] eqn:Hreg;
      [|discriminate].
    cbn in Hget.
    pose proof (unchangedFor_removePayment F l G HG s) as Hsame.
    rewrite (uf_registry _ _ _ _ Hsame) in Hreg.
    rewrite (uf_object _ _ _ _ Hsame) in Hget.
    apply (uf_sessions _ _ _ _ Hsame). apply Hin.
    unfold get. rewrite Hreg. exact Hget.
  - intros sid' p' Hp'.
    destruct (removePayment_books G s)
      as (_ & _ & _ & _ & [[_ Heq]|(_ & _ & [Heq|(sid & payments & Hp & Heq)])]).
    + rewrite Heq in Hp'. exact (Hne _ _ Hp').
    + rewrite Heq in Hp'. exact (Hne _ _ Hp').
    + rewrite Heq in Hp'. case_decide as Hsize.
      * destruct (decide (sid = sid')) as [->|Hsid].
        { rewrite lookup_delete_eq in Hp'. discriminate. }
        rewrite lookup_delete_ne, lookup_insert_ne in Hp' by exact Hsid.
        exact (Hne _ _ Hp').
      * destruct (decide (sid = sid')) as [->|Hsid].
        { rewrite lookup_insert_eq in Hp'. injection Hp' as <-.
          intros Hempty. apply Hsize. rewrite Hempty. apply size_empty. }
        rewrite lookup_insert_ne in Hp' by exact Hsid. exact (Hne _ _ Hp').
Qed.

Lemma indexed_update (r : ref) (f : MonitorInfo.t -> MonitorInfo.t) :
  (forall info, MonitorInfo.sessionId (f info) = MonitorInfo.sessionId info) ->
  preserves (keeps indexed) (update r f).
Proof.
  intros Hf s [Hin Hne]. unfold exec, update, deref, modify. rewrite bind_run.
  destruct (objects s !! r) as [old|] eqn:Hobj; cbn [snd]; [|split; assumption].
  split; [|exact Hne].
  intros F info Hget. unfold get in Hget. cbn [activeMonitors objects with_objects] in Hget.
  destruct (Map_get F (activeMonitors s)) as [l|] eqn:Hreg; [|discriminate].
  cbn in Hget.
  change (inSession F (MonitorInfo.sessionId info) s).
  destruct (decide (l = r)) as [->|Hl].
  - rewrite list_lookup_insert_eq in Hget by (eapply lookup_lt_Some, Hobj).
    injection Hget as <-. rewrite Hf. apply Hin. unfold get. rewrite Hreg. exact Hobj.
  - rewrite list_lookup_insert_ne in Hget by (intros Heq; exact (Hl (eq_sym Heq))).
    apply Hin. unfold get. rewrite Hreg. exact Hget.
Qed.

Lemma indexed_emit (e : Event) : preserves (keeps indexed) (emit e).
Proof. intros s Hs. exact Hs. Qed.

Lemma addPayment_sessions (now : Z) (pd : PaymentData.t) (sid sid' : jsstring) (s : t) :
  userSessions (exec (addPayment now pd sid) s) !! sid' =
    if decide (sid = sid')
    then Some (default ∅ (userSessions s !! sid) ∪ {[PaymentData.md5Hash pd]})
    else userSessions s !! sid'.
Proof.
  destruct (addPayment_run now pd sid s) as (s1 & Hrun & _ & _ & Hsess & _).
  unfold exec. rewrite Hrun. cbn [snd]. rewrite Hsess, lookup_alter.
  destruct (decide (sid = sid')) as [Heq|Hsid].
  - destruct (decide (is_Some (userSessions s !! sid))) as [[p Hp]|Hnone].
    + rewrite Hp. reflexivity.
    + rewrite lookup_insert_eq.
      destruct (userSessions s !! sid) as [p|] eqn:Hp; [|reflexivity].
      exfalso. apply Hnone. eexists. reflexivity.
  - destruct (decide (is_Some (userSessions s !! sid))); [reflexivity|].
    apply lookup_insert_ne. exact Hsid.
Qed.

Lemma addPayment_inSession (now : Z) (pd : PaymentData.t) (sid : jsstring)
    (G sid' : jsstring) (s : t) :
  inSession G sid' (exec (addPayment now pd sid) s)
  <-> inSession G sid' s \/ (G = PaymentData.md5Hash pd /\ sid' = sid).
Proof.
  unfold inSession. rewrite addPayment_sessions. case_decide as Hsid.
  - subst sid'. split.
    + intros (p & [= <-] & Hmem). apply elem_of_union in Hmem.
      destruct Hmem as [Hmem|Hmem].
      * left. destruct (userSessions s !! sid) as [p|]; cbn in Hmem.
        -- exists p. split; [reflexivity|exact Hmem].
        -- destruct (not_elem_of_empty (C:=gset jsstring) G Hmem).
      * right. apply elem_of_singleton in Hmem. split; [exact Hmem|reflexivity].
    + intros [(p & Hp & Hmem)|[-> _]]; eexists; (split; [reflexivity|]).
      * rewrite Hp. cbn. apply elem_of_union_l. exact Hmem.
      * apply elem_of_union_r, elem_of_singleton. reflexivity.
  - split; [intros Hin; left; exact Hin|].
    intros [Hin|[_ ->]]; [exact Hin|contradiction].
Qed.

Lemma indexed_addPayment (now : Z) (pd : PaymentData.t) (sid : jsstring) (s : t) :
  wellFormed s -> indexed s -> indexed (exec (addPayment now pd sid) s).
Proof.
  intros [Hnd Hkeyed] [Hin Hne]. split.
  - intros F info Hget. apply addPayment_inSession.
    destruct (addPayment_run now pd sid s) as (s1 & Hrun & Hreg & Hobjs & _).
    unfold exec in Hget. rewrite Hrun in Hget. cbn [snd] in Hget.
    unfold get in Hget. rewrite Hreg, Hobjs in Hget.
    destruct (decide (PaymentData.md5Hash pd = F)) as [<-|HF].
    + right. split; [reflexivity|].
      rewrite Map_get_set_eq in Hget. cbn in Hget.
      rewrite (list_lookup_middle (objects s) [] (freshEntry now pd sid))
        in Hget by reflexivity.
      injection Hget as <-. reflexivity.
    + left. rewrite Map_get_set_ne in Hget by exact HF.
      destruct (Map_get F (activeMonitors s)) as [l|] eqn:HregF; [|discriminate].
      cbn in Hget.
      destruct (Hkeyed F l (Map_get_In _ _ _ HregF)) as (info' & Hobj & _).
      rewrite (lookup_app_l_Some _ _ _ _ Hobj) in Hget. injection Hget as <-.
      apply Hin. unfold get. rewrite HregF. exact Hobj.
  - intros sid' p' Hp'. rewrite addPayment_sessions in Hp'.
    case_decide as Hsid; [|exact (Hne _ _ Hp')].
    injection Hp' as <-. intros Hempty.
    apply (not_elem_of_empty (C:=gset jsstring) (PaymentData.md5Hash pd)).
    rewrite <- Hempty. apply elem_of_union_r, elem_of_singleton. reflexivity.
Qed.

Lemma indexed_step (w w' : World) :
  step w w' -> wellFormed (monitor w) -> indexed (monitor w) -> indexed (monitor w').
Proof.
  intros Hstep Hwf. destruct Hstep; cbn [monitor].
  - unfold exec, start, gets, modify. rewrite bind_run. cbn [fst snd].
    destruct (isRunning (monitor w)); intros Hs; exact Hs.
  - intros _. split.
    + intros F info Hget. discriminate.
    + intros sid p Hp.
      change ((∅ : gmap jsstring (gset jsstring)) !! sid = Some p) in Hp.
      rewrite lookup_empty in Hp. discriminate.
  - apply indexed_addPayment, Hwf.
  - apply indexed_removePayment.
  - subst call.
    apply (kept_issue indexed indexed_removePayment indexed_update indexed_emit).
  - subst call.
    apply (kept_settle indexed indexed_removePayment indexed_update indexed_emit).
Qed.

Lemma reachable_indexed (w : World) : reachable w -> indexed (monitor w).
Proof.
  unfold reachable. revert w.
  apply (rtc_ind_r (fun w => indexed (monitor w)) initial).
  - split.
    + intros F info Hget. discriminate.
    + intros sid p Hp.
      change ((∅ : gmap jsstring (gset jsstring)) !! sid = Some p) in Hp.
      rewrite lookup_empty in Hp. discriminate.
  - intros y z Hreach Hstep IH.
    exact (indexed_step y z Hstep (reachable_wellFormed y Hreach) IH).
Qed.

Lemma entries_get (k : jsstring) (info : MonitorInfo.t) (s : t) :
  wellFormed s -> (k, info) ∈ entries s -> get k s = Some info.
Proof.
  intros [Hnd _] Hin. unfold entries in Hin. apply list_elem_of_omap in Hin.
  destruct Hin as ([k' r] & Hin & Hobj). cbn [fst snd] in Hobj.
  destruct (objects s !! r) as [info'|] eqn:Hr; [|discriminate].
  injection Hobj as -> ->.
  unfold get. rewrite (In_Map_get k r _ Hnd) by (apply list_elem_of_In; exact Hin).
  exact Hr.
Qed.

Lemma values_get (info : MonitorInfo.t) (s : t) :
  wellFormed s -> info ∈ values s -> exists k, get k s = Some info.
Proof.
  intros [Hnd _] Hin. unfold values in Hin. apply list_elem_of_omap in Hin.
  destruct Hin as ([k r] & Hin & Hobj). cbn [snd] in Hobj. exists k.
  unfold get. rewrite (In_Map_get k r _ Hnd) by (apply list_elem_of_In; exact Hin).
  exact Hobj.
Qed.

(** X8. In every state the monitor can reach, a registered entry is in the
    index of its session: the payments that [getUserPayments(userId)] lists
    are in the index of [userId], and [getUserCount()] is at most the
    number of sessions of the index. *)
Theorem registry_indexed (w : World) :
  reachable w ->
  (forall F info, get F (monitor w) = Some info ->
     inSession F (MonitorInfo.sessionId info) (monitor w))
  /\ (forall toISOString userId row,
        In row (getUserPayments toISOString userId (monitor w)) ->
        inSession (UserPayment.hash row) userId (monitor w)
        /\ is_Some (get (UserPayment.hash row) (monitor w)))
  /\ (getUserCount (monitor w) <= size (userSessions (monitor w)))%nat.
Proof.
  intros Hreach.
  pose proof (reachable_wellFormed w Hreach) as Hwf.
  destruct (reachable_indexed w Hreach) as [Hin _].
  split; [exact Hin|]. split.
  - intros toISOString userId row Hrow. unfold getUserPayments in Hrow.
    apply in_map_iff in Hrow. destruct Hrow as ([k info] & <- & Hrow).
    apply filter_In in Hrow. destruct Hrow as [Hrow Hsid].
    apply bool_decide_eq_true in Hsid. cbn [fst snd] in *.
    apply list_elem_of_In in Hrow.
    pose proof (entries_get k info _ Hwf Hrow) as Hget.
    split; [|eexists; exact Hget]. subst userId. apply Hin, Hget.
  - unfold getUserCount. rewrite <- (size_dom (userSessions (monitor w))).
    apply subseteq_size. intros sid Hsid.
    apply elem_of_list_to_set, list_elem_of_fmap in Hsid.
    destruct Hsid as (info & -> & Hinfo).
    destruct (values_get info _ Hwf Hinfo) as (k & Hget).
    destruct (Hin k info Hget) as (p & Hp & _).
    apply elem_of_dom. eexists. exact Hp.
Qed.

(** ** Registering a payment and removing it again *)

Lemma removePayment_run (F : jsstring) (l : ref) (info : MonitorInfo.t)
    (payments : gset jsstring) (s : t) :
  Map_get F (activeMonitors s) = Some l -> objects s !! l = Some info ->
  userSessions s !! MonitorInfo.sessionId info = Some payments ->
  removePayment F s =
    (Returned tt,
     let sid := MonitorInfo.sessionId info in
     let s1 := with_paymentQueue (delete F (paymentQueue s))
                 (with_activeMonitors (Map_delete F (activeMonitors s)) s) in
     with_userSessions
       (if decide (size (payments ∖ {[F]}) = 0%nat)
        then delete sid (<[sid := payments ∖ {[F]}]> (userSessions s))
        else <[sid := payments ∖ {[F]}]> (userSessions s)) s1).
Proof.
  intros Hget Hobj Hsess. unfold removePayment, gets, modify, deref.
  rewrite bind_run. cbn [fst snd]. rewrite Hget.
  rewrite !bind_run. cbn [fst snd objects with_paymentQueue with_activeMonitors].
  rewrite Hobj. rewrite bind_run.
  cbn [fst snd userSessions with_paymentQueue with_activeMonitors].
  rewrite Hsess. rewrite bind_run. cbn [fst snd].
  case_decide as Hsize; reflexivity.
Qed.

Lemma Map_delete_set_fresh {V : Type} (k : jsstring) (v : V) (m : list (jsstring * V)) :
  Map_get k m = None -> Map_delete k (Map_set k v m) = m.
Proof.
  induction m as [|[k' v'] m IH]; intros Hget.
  - cbn [Map_set]. rewrite Map_delete_cons, decide_True by reflexivity. reflexivity.
  - rewrite Map_get_cons in Hget. cbn [Map_set].
    case_decide as Hk; [discriminate|].
    rewrite Map_delete_cons, decide_False by exact Hk. f_equal. apply IH, Hget.
Qed.

(** X9. A payment that is registered and then removed leaves the registry,
    the queue and the session index as they were, when the fingerprint was
    in none of them before; the removal emits no event. *)
Theorem addPayment_removePayment (now : Z) (pd : PaymentData.t) (sid : jsstring)
    (s : t) :
  let F := PaymentData.md5Hash pd in
  Map_get F (activeMonitors s) = None ->
  paymentQueue s !! F = None ->
  (forall payments, userSessions s !! sid = Some payments ->
     (F ∉ payments) /\ payments <> ∅) ->
  let added := exec (addPayment now pd sid) s in
  let s' := exec (removePayment F) added in
  result (removePayment F) added = Returned tt
  /\ activeMonitors s' = activeMonitors s
  /\ paymentQueue s' = paymentQueue s
  /\ userSessions s' = userSessions s
  /\ maxMonitorTime s' = maxMonitorTime s
  /\ isRunning s' = isRunning s
  /\ objects s' = objects s ++ [freshEntry now pd sid]
  /\ emitted s' = emitted s ++ [payment_added (freshEntry now pd sid)].
Proof.
  intros F Hreg Hq Hsess added s'.
  destruct (addPayment_run now pd sid s)
    as (s1 & Hrun & Hreg1 & Hobjs1 & _ & Hq1 & Hem1 & Hmax1 & Hrun1).
  fold F in Hreg1, Hq1.
  assert (Hadded : added = s1) by (subst added; unfold exec; rewrite Hrun; reflexivity).
  pose proof (addPayment_sessions now pd sid sid s) as Hsid.
  fold added in Hsid. rewrite decide_True in Hsid by reflexivity. fold F in Hsid.
  set (p0 := default ∅ (userSessions s !! sid)) in *.
  assert (Hfresh : F ∉ p0).
  { subst p0. destruct (userSessions s !! sid) as [p|] eqn:Hp; cbn.
    - apply (Hsess p eq_refl).
    - apply not_elem_of_empty. }
  assert (Hset : (p0 ∪ {[F]}) ∖ {[F]} = p0).
  { apply set_eq. intros x.
    rewrite elem_of_difference, elem_of_union, elem_of_singleton. split.
    - intros [[Hx|Hx] Hne]; [exact Hx|contradiction].
    - intros Hx. split; [left; exact Hx|]. intros ->. exact (Hfresh Hx). }
  assert (Hremove := removePayment_run F (length (objects s)) (freshEntry now pd sid)
                       (p0 ∪ {[F]}) added).
  rewrite Hset in Hremove. cbv zeta in Hremove.
  change (MonitorInfo.sessionId (freshEntry now pd sid)) with sid in Hremove.
  specialize (Hremove ltac:(rewrite Hadded, Hreg1; apply Map_get_set_eq)
                      ltac:(rewrite Hadded, Hobjs1;
                            apply (list_lookup_middle (objects s) []); reflexivity)
                      Hsid).
  assert (Hs' : s' = snd (removePayment F added)) by reflexivity.
  rewrite Hremove in Hs'. cbn [snd] in Hs'.
  split; [unfold result; rewrite Hremove; reflexivity|].
  rewrite Hs'. cbn [activeMonitors paymentQueue userSessions maxMonitorTime isRunning
                      objects emitted with_userSessions with_paymentQueue
                      with_activeMonitors].
  rewrite Hadded, Hreg1, Hq1, Hobjs1, Hem1, Hmax1, Hrun1.
  split; [apply Map_delete_set_fresh, Hreg|].
  split; [apply delete_insert_id, Hq|].
  split; [|repeat split; reflexivity].
  rewrite <- Hadded.
  apply map_eq. intros j.
  destruct (userSessions s !! sid) as [p|] eqn:Hp.
  - assert (Hp0 : p0 = p) by reflexivity.
    rewrite decide_False.
    2:{ rewrite Hp0. intros Hsize. apply size_empty_iff in Hsize.
        apply (proj2 (Hsess p eq_refl)). apply leibniz_equiv. exact Hsize. }
    destruct (decide (sid = j)) as [<-|Hj].
    + rewrite lookup_insert_eq, Hp0, Hp. reflexivity.
    + rewrite lookup_insert_ne by exact Hj.
      pose proof (addPayment_sessions now pd sid j s) as Hj'.
      rewrite decide_False in Hj' by exact Hj. exact Hj'.
  - assert (Hp0 : p0 = ∅) by reflexivity.
    rewrite decide_True by (rewrite Hp0; apply size_empty).
    destruct (decide (sid = j)) as [<-|Hj].
    + rewrite lookup_delete_eq, Hp. reflexivity.
    + rewrite lookup_delete_ne, lookup_insert_ne by exact Hj.
      pose proof (addPayment_sessions now pd sid j s) as Hj'.
      rewrite decide_False in Hj' by exact Hj. exact Hj'.
Qed.

(** ** A check answered PAID, whatever has become of the entry *)

Lemma removePayment_total (F : jsstring) (s : t) :
  wellFormed s -> removePayment F s = (Returned tt, exec (removePayment F) s).
Proof.
  intros [_ Hkeyed]. unfold exec.
  destruct (Map_get F (activeMonitors s)) as [r|] eqn:Hget.
  - destruct (Hkeyed F r (Map_get_In _ _ _ Hget)) as (info & Hobj & _).
    destruct (removePayment_registered F r info s Hget Hobj) as (s' & -> & _).
    reflexivity.
  - rewrite removePayment_unregistered by exact Hget. reflexivity.
Qed.

Lemma settle_paid_run (now : Z) (res : CheckResult.t) (F : jsstring) (l : ref)
    (info : MonitorInfo.t) (s : t) :
  removePayment F s = (Returned tt, exec (removePayment F) s) ->
  objects s !! l = Some info -> CheckResult.status res = str "PAID" ->
  tryCatch (checkSinglePayment_settle now (Returned res) F l) logError s =
    (Returned tt,
     with_emitted
       (emitted s ++ [payment_success F info res (now - MonitorInfo.startTime info)])
       (exec (removePayment F) s)).
Proof.
  intros Hremove Hobj Hpaid. rewrite tryCatch_run.
  unfold checkSinglePayment_settle, await. rewrite bind_run.
  rewrite decide_True by exact Hpaid.
  unfold handlePaymentSuccess. rewrite bind_run, Hremove.
  destruct (removePayment_books F s) as (Hobjs & Hem & _).
  rewrite bind_run, (deref_run l info) by (rewrite Hobjs; exact Hobj).
  rewrite emit_run, Hem. reflexivity.
Qed.

(** X10. A check answered PAID notifies [payment_success], whether the
    fingerprint is still registered when the answer arrives or not; two
    checks of one entry that are in flight together, both answered PAID,
    notify twice. *)
Theorem paid_answer_always_notifies (now now' : Z) (res res' : CheckResult.t)
    (F : jsstring) (l : ref) (info : MonitorInfo.t) (s : t) :
  wellFormed s -> objects s !! l = Some info ->
  CheckResult.status res = str "PAID" -> CheckResult.status res' = str "PAID" ->
  let first := tryCatch (checkSinglePayment_settle now (Returned res) F l) logError in
  let second := tryCatch (checkSinglePayment_settle now' (Returned res') F l) logError in
  let notified t r := payment_success F info r (t - MonitorInfo.startTime info) in
  emitted (exec first s) = emitted s ++ [notified now res]
  /\ get F (exec first s) = None
  /\ emitted (exec second (exec first s))
     = emitted s ++ [notified now res; notified now' res'].
Proof.
  intros Hwf Hobj Hpaid Hpaid' first second notified.
  assert (Hfirst := settle_paid_run now res F l info s
                      (removePayment_total F s Hwf) Hobj Hpaid).
  fold first in Hfirst.
  destruct (removePayment_books F s) as (Hobjs & _).
  set (s1 := exec first s).
  assert (Hs1 : s1 = with_emitted (emitted s ++ [notified now res])
                       (exec (removePayment F) s))
    by (subst s1; unfold exec at 1; rewrite Hfirst; reflexivity).
  assert (Hgone : Map_get F (activeMonitors s1) = None)
    by (rewrite Hs1; apply removePayment_gone).
  assert (Hobj1 : objects s1 !! l = Some info)
    by (rewrite Hs1; cbn [objects with_emitted]; rewrite Hobjs; exact Hobj).
  split; [rewrite Hs1; reflexivity|].
  split; [unfold get; rewrite Hgone; reflexivity|].
  assert (Hsecond := settle_paid_run now' res' F l info s1).
  rewrite (removePayment_unregistered F s1 Hgone) in Hsecond.
  specialize (Hsecond ltac:(unfold exec; rewrite (removePayment_unregistered F s1 Hgone);
                            reflexivity) Hobj1 Hpaid').
  fold second in Hsecond. unfold exec at 1. rewrite Hsecond. cbn [snd emitted with_emitted].
  rewrite Hs1. cbn [emitted with_emitted]. rewrite <- app_assoc. reflexivity.
Qed.

(** ** Forced checks *)

Lemma checkSinglePayment_returns (now settled : Z) (answer : outcome CheckResult.t)
    (F : jsstring) (l : ref) (s : t) :
  checkSinglePayment now settled answer F l s =
    (Returned tt, exec (checkSinglePayment now settled answer F l) s).
Proof.
  unfold exec, checkSinglePayment. rewrite tryCatch_run.
  match goal with |- context [match ?b s with _ => _ end] =>
    destruct (b s) as [[[]|e] s'] end; reflexivity.
Qed.

(** X11. A forced check of a fingerprint that is not registered throws and
    leaves the monitor as it is; a forced check of a registered fingerprint
    returns its object, whatever the status service answers, errors
    included. *)
Theorem forceCheck_outcome (now settled : Z) (answer : outcome CheckResult.t)
    (F : jsstring) (s : t) :
  match Map_get F (activeMonitors s) with
  | None =>
      forceCheck now settled answer F s
      = (Threw (str "Payment " ++ F ++ str " is not being monitored"), s)
      /\ forceCheckPayment now settled answer F s
         = (Threw (str "Payment with hash " ++ F ++ str " not found"), s)
  | Some l =>
      forceCheck now settled answer F s
      = (Returned l, exec (checkSinglePayment now settled answer F l) s)
      /\ forceCheckPayment now settled answer F s
         = (Returned l, exec (checkSinglePayment now settled answer F l) s)
  end.
Proof.
  unfold forceCheck, forceCheckPayment, gets. rewrite !bind_run. cbn [fst snd].
  destruct (Map_get F (activeMonitors s)) as [l|]; [|split; reflexivity].
  rewrite tryCatch_run, !bind_run, checkSinglePayment_returns. split; reflexivity.
Qed.

Lemma forceCheckEach_returns (clock : jsstring -> Z) (checker : StatusChecker)
    (monitors : list (jsstring * ref)) (s : t) :
  result (forceCheckEach clock checker monitors) s
  = Returned (map (fun entry => checked (fst entry) (snd entry)) monitors).
Proof.
  unfold result. revert s.
  induction monitors as [|[hash monitor] rest IH]; intros s; [reflexivity|].
  cbn [forceCheckEach]. rewrite bind_run, tryCatch_run, bind_run.
  rewrite checkSinglePayment_returns. rewrite mret_run, bind_run.
  specialize (IH (exec (checkSinglePayment (clock hash) (snd (checker hash))
                          (fst (checker hash)) hash monitor) s)).
  destruct (forceCheckEach clock checker rest _) as [[rows|e] s']; cbn [fst] in IH;
    [|discriminate].
  injection IH as ->. reflexivity.
Qed.

(** X12. [forceCheckAllPayments] reports a successful check for every
    registered entry, in the order of registration: no row reports a
    failure, whatever the status service answers. *)
Theorem forceCheckAllPayments_rows (clock : jsstring -> Z) (checker : StatusChecker)
    (s : t) :
  let rows := map (fun entry => checked (fst entry) (snd entry)) (activeMonitors s) in
  result (forceCheckAllPayments clock checker) s = Returned rows
  /\ length rows = getTotalPayments s
  /\ Forall (fun row => exists hash data, row = checked hash data) rows.
Proof.
  intros rows. split; [|split].
  - unfold result, forceCheckAllPayments, gets. rewrite bind_run. cbn [fst snd].
    apply forceCheckEach_returns.
  - apply length_map.
  - apply Forall_forall. intros row Hin. apply list_elem_of_In, in_map_iff in Hin.
    destruct Hin as (e & <- & _). eexists _, _. reflexivity.
Qed.

(** ** The checks that a tick issues *)






(** ** The monitor when it is stopped *)

(** X14. [stop] drops every watched payment without a notification, and
    a payment that is registered while the monitor is stopped is neither
    checked nor expired by a tick. *)
Theorem stopped_monitor_checks_nothing (s : t) (now : Z) (pd : PaymentData.t)
    (sid : jsstring) (tick : Z) (checker : StatusChecker) (order : SettleOrder) :
  let stopped := exec stop s in
  let added := exec (addPayment now pd sid) stopped in
  getTotalPayments stopped = 0%nat
  /\ userSessions stopped = ∅ /\ paymentQueue stopped = ∅
  /\ emitted stopped = emitted s
  /\ get (PaymentData.md5Hash pd) added = Some (freshEntry now pd sid)
  /\ checkAllPayments tick checker order added = (Returned tt, added).
Proof.
  intros stopped added.
  split; [reflexivity|]. split; [reflexivity|]. split; [reflexivity|].
  split; [reflexivity|].
  destruct (addPayment_run now pd sid stopped)
    as (s1 & Hrun & Hreg & Hobjs & _ & _ & _ & _ & Hrunning).
  assert (Hadded : added = s1) by (subst added; unfold exec; rewrite Hrun; reflexivity).
  split.
  - rewrite Hadded. unfold get. rewrite Hreg, Map_get_set_eq, Hobjs. cbn.
    apply (list_lookup_middle (objects stopped) []). reflexivity.
  - unfold checkAllPayments, gets. rewrite bind_run. cbn [fst snd].
    rewrite Hadded, Hrunning. reflexivity.
Qed.
End MonitorQueries.

(** ** The other methods on the sample run *)

Section SampleQueries.
Import AutoPaymentMonitor.

Lemma formatDuration_units_witness : formatDuration 3725000 = str "1h 2m 5s".
Proof.
  pose proof (formatDuration_units 3725000 ltac:(lia)) as (_ & _ & _ & _ & Hrun).
  rewrite Hrun. vm_compute. reflexivity.
Defined.

Lemma queue_matches_registry_witness :
  size (paymentQueue Sample.registered) = getTotalPayments Sample.registered.
Proof. exact (proj2 (queue_matches_registry Sample.withG registered_reachable)). Defined.

Lemma registry_indexed_witness :
  (getUserCount Sample.registered <= size (userSessions Sample.registered))%nat.
Proof.
  exact (proj2 (proj2 (registry_indexed Sample.withG registered_reachable))).
Defined.

Lemma registered_without_H (payments : gset jsstring) :
  userSessions Sample.registered !! str "S" = Some payments ->
  (str "H" ∉ payments) /\ payments <> ∅.
Proof.
  rewrite registered_sessions, lookup_singleton_eq. intros [= <-]. split.
  - rewrite elem_of_union, !elem_of_singleton. intros [Heq|Heq]; discriminate.
  - intros Hempty.
    apply (not_elem_of_empty (C:=gset jsstring) (str "F")). rewrite <- Hempty.
    apply elem_of_union_l, elem_of_singleton. reflexivity.
Qed.

Lemma addPayment_removePayment_witness :
  let added := exec (addPayment 2000 (Sample.payment "H") (str "S")) Sample.registered in
  userSessions (exec (removePayment (str "H")) added) = userSessions Sample.registered.
Proof.
  refine (proj1 (proj2 (proj2 (proj2
    (addPayment_removePayment 2000 (Sample.payment "H") (str "S") Sample.registered
       _ _ registered_without_H))))).
  - vm_compute. reflexivity.
  - vm_compute. reflexivity.
Defined.

Lemma paid_answer_always_notifies_witness :
  get (str "F")
    (exec (tryCatch (checkSinglePayment_settle 12000 (Returned (Sample.answer "PAID"))
                       (str "F") 0%nat) logError)
       Sample.registered)
  = None.
Proof.
  refine (proj1 (proj2
    (paid_answer_always_notifies 12000 12500 (Sample.answer "PAID")
       (Sample.answer "PAID") (str "F") 0%nat
       (freshEntry 1000 (Sample.payment "F") (str "S")) Sample.registered
       registered_wellFormed _ _ _))).
  - vm_compute. reflexivity.
  - reflexivity.
  - reflexivity.
Defined.



End SampleQueries.

(** * The calls to the Bakong API *)

Section ApiFacts.
Import BakongKHQR.

Lemma postRequest_without_token (this : Client) (network : Http.Network)
    (endpoint : jsstring) (payload : Value.t) :
  checkBakongToken this <> Returned tt ->
  postRequest this network endpoint payload
  = Threw (str "Bakong Developer Token is required for KHQR class initialization.").
Proof.
  unfold postRequest, checkBakongToken.
  destruct (bakongToken this) as [[|c token]|]; intros Hno; try reflexivity.
  contradiction Hno. reflexivity.
Qed.

Lemma postRequest_with_token (this : Client) (network : Http.Network)
    (endpoint : jsstring) (payload : Value.t) :
  checkBakongToken this = Returned tt ->
  postRequest this network endpoint payload
  = match network (request this endpoint payload) with
    | Http.Resolved data => Returned data
    | Http.Rejected error => Threw (requestError error)
    end.
Proof. intros Htoken. unfold postRequest. rewrite Htoken. reflexivity. Qed.

Lemma prop_present (name : jsstring) (v : Value.t) :
  v <> Value.undefined -> v <> Value.null ->
  exists w, Value.prop name v = Returned w.
Proof.
  intros Hu Hn. destruct v; try contradiction; eexists; reflexivity.
Qed.

Local Ltac line Hstep name :=
  match goal with
  | |- (((_ ;; ?rest) = _ /\ _) \/ _) =>
      let v := fresh "v" in
      let Hv := fresh "Hv" in
      let Hp := fresh "Hp" in
      let Hl := fresh "Hl" in
      let Hd := fresh "Hd" in
      let e := fresh "e" in
      let Hbad := fresh "Hbad" in
      destruct (Hstep name rest) as [(v & Hv & Hp & Hl & Hd)|[(e & Hl & Hd) Hbad]];
      [ cbn; tauto
      | first [rewrite Hl | rewrite Hd]
      | right; split; [exists e; first [exact Hl | exact Hd] | exact Hbad] ]
  end.

(** The lines that the branch of a paid transaction logs, for a [data]
    that is there: they return when each of the nine properties has a
    primitive value, and throw at the first that has none. *)
Lemma paid_lines (data : Value.t) (k : outcome jsstring) :
  data <> Value.undefined -> data <> Value.null ->
  let printed :=
    [ str "amount"; str "currency"; str "fromAccountId"; str "toAccountId";
      str "description"; str "createdDateMs"; str "acknowledgedDateMs";
      str "hash"; str "externalRef" ] in
  let lines :=
    logged (str "amount") data ;;
    logged (str "currency") data ;;
    logged (str "fromAccountId") data ;;
    logged (str "toAccountId") data ;;
    logged (str "description") data ;;
    loggedDate (str "createdDateMs") data ;;
    loggedDate (str "acknowledgedDateMs") data ;;
    logged (str "hash") data ;;
    logged (str "externalRef") data ;;
    k in
  (lines = k
   /\ forall name, In name printed ->
        exists v, Value.prop name data = Returned v /\ Value.printable v = true)
  \/ ((exists error, lines = Threw error)
      /\ exists name v,
           In name printed /\ Value.prop name data = Returned v
           /\ Value.printable v = false).
Proof.
  intros Hu Hn printed lines. subst lines printed.
  assert (Hprop : forall name,
            exists v, Value.prop name data = Returned v
                      /\ logged name data = Value.interpolate v
                      /\ loggedDate name data = Value.toLocaleString v).
  { intros name. destruct data; try contradiction;
      (eexists; split; [reflexivity|split; reflexivity]). }
  unfold Value.interpolate, Value.toLocaleString in Hprop.
  set (printed :=
         [ str "amount"; str "currency"; str "fromAccountId"; str "toAccountId";
           str "description"; str "createdDateMs"; str "acknowledgedDateMs";
           str "hash"; str "externalRef" ]).
  assert (Hstep : forall name (rest : outcome jsstring),
            In name printed ->
            (exists v, Value.prop name data = Returned v /\ Value.printable v = true
                       /\ (logged name data ;; rest) = rest
                       /\ (loggedDate name data ;; rest) = rest)
            \/ ((exists error, (logged name data ;; rest) = Threw error
                               /\ (loggedDate name data ;; rest) = Threw error)
                /\ exists name v,
                     In name printed /\ Value.prop name data = Returned v
                     /\ Value.printable v = false)).
  { intros name rest Hin. destruct (Hprop name) as (v & Hv & Hl & Hd).
    rewrite Hl, Hd. destruct (Value.printable v) eqn:Hp.
    - left. exists v. repeat split; assumption || reflexivity.
    - right. split; [eexists; split; reflexivity|].
      exists name, v. repeat split; assumption. }
  subst printed.
  line Hstep (str "amount"). line Hstep (str "currency").
  line Hstep (str "fromAccountId"). line Hstep (str "toAccountId").
  line Hstep (str "description"). line Hstep (str "createdDateMs").
  line Hstep (str "acknowledgedDateMs"). line Hstep (str "hash").
  line Hstep (str "externalRef").
  left. split; [reflexivity|].
  intros name Hname. cbn [In] in Hname.
  repeat destruct Hname as [<-|Hname]; try contradiction; eauto.
Qed.

(** X15. [checkPayment] never throws and answers ['PAID'] or ['UNPAID'].
    It answers ['PAID'] exactly when a token is set, the request is
    answered, the [responseCode] of the answer is the number 0, the answer
    has a [data], and each of the nine properties of [data] that the
    method logs has a primitive value (is no object with a property
    ["toString"], and no array that holds one). A missing token, a failed
    request (whatever the HTTP status), a body without [data] and a [data]
    that cannot be printed all read as ['UNPAID']. *)
Theorem checkPayment_answer (this : Client) (network : Http.Network) (md5 : jsstring) :
  let sent :=
    request this (str "/check_transaction_by_md5")
      (Value.object [ (str "md5", Value.string md5) ]) in
  let printed :=
    [ str "amount"; str "currency"; str "fromAccountId"; str "toAccountId";
      str "description"; str "createdDateMs"; str "acknowledgedDateMs";
      str "hash"; str "externalRef" ] in
  let paid :=
    checkBakongToken this = Returned tt
    /\ exists response code data,
         network sent = Http.Resolved response
         /\ Value.prop (str "responseCode") response = Returned code
         /\ Value.isNumber 0 code = true
         /\ Value.prop (str "data") response = Returned data
         /\ data <> Value.undefined /\ data <> Value.null
         /\ forall name, In name printed ->
              exists v, Value.prop name data = Returned v
                        /\ Value.printable v = true in
  (paid /\ checkPayment this network md5 = Returned (str "PAID"))
  \/ (~ paid /\ checkPayment this network md5 = Returned (str "UNPAID")).
Proof.
  intros sent printed paid. unfold checkPayment.
  destruct (checkBakongToken this) as [[]|e] eqn:Htoken.
  2:{ right. split; [intros [Hno _]; discriminate|].
      rewrite postRequest_without_token by (rewrite Htoken; discriminate).
      reflexivity. }
  rewrite (postRequest_with_token _ _ _ _ Htoken). fold sent.
  destruct (network sent) as [response|error] eqn:Hnet.
  2:{ right. split; [|reflexivity].
      intros (_ & r & c & d & Hr & _). discriminate. }
  cbn [mbind outcome_bind].
  destruct (Value.prop (str "responseCode") response) as [code|e] eqn:Hcode.
  2:{ right. split; [|reflexivity].
      intros (_ & r & c & d & [= <-] & Hc & _). congruence. }
  cbn [mbind outcome_bind].
  destruct (Value.isNumber 0 code) eqn:Hzero.
  2:{ right. split.
      - intros (_ & r & c & d & [= <-] & Hc & Hz & _). congruence.
      - destruct (logged (str "responseMessage") response) as [[]|e]; reflexivity. }
  destruct (Value.prop (str "data") response) as [data|e] eqn:Hdata.
  2:{ right. split; [|reflexivity].
      intros (_ & r & c & d & [= <-] & _ & _ & Hd & _). congruence. }
  cbn [mbind outcome_bind].
  assert (Hcases : data = Value.undefined \/ data = Value.null
                   \/ (data <> Value.undefined /\ data <> Value.null)).
  { destruct data; auto; right; right; split; discriminate. }
  destruct Hcases as [->|[->|[Hu Hn]]].
  { right. split; [|reflexivity].
    intros (_ & r & c & d & [= <-] & _ & _ & Hd & Hne & _). congruence. }
  { right. split; [|reflexivity].
    intros (_ & r & c & d & [= <-] & _ & _ & Hd & _ & Hne & _). congruence. }
  destruct (paid_lines data (mret (str "PAID")) Hu Hn)
    as [[Hlines Hall]|[[error Hlines] (name & v & Hname & Hv & Hbad)]];
    cbv zeta in Hlines; rewrite Hlines.
  - left. split; [|reflexivity].
    split; [reflexivity|]. exists response, code, data.
    repeat split; assumption.
  - right. split; [|reflexivity].
    intros (_ & r & c & d & [= <-] & Hc & _ & Hd & _ & _ & Hall).
    assert (d = data) by congruence. subst d.
    destruct (Hall name Hname) as (w & Hw & Hp). congruence.
Qed.

Lemma successful_objects (rows : list (list (jsstring * Value.t))) :
  successful (map Value.object rows)
  = Returned
      (map Value.object
         (List.filter
            (fun row => Value.isString (str "SUCCESS") (Value.field (str "status") row))
            rows)).
Proof.
  induction rows as [|row rows IH]; [reflexivity|].
  cbn [map successful List.filter Value.prop mbind outcome_bind].
  rewrite IH. cbn [mbind outcome_bind mret outcome_ret].
  destruct (Value.isString _ _); reflexivity.
Qed.

Lemma md5s_objects (rows : list (list (jsstring * Value.t))) :
  md5s (map Value.object rows) = Returned (map (Value.field (str "md5")) rows).
Proof.
  induction rows as [|row rows IH]; [reflexivity|].
  cbn [map md5s Value.prop mbind outcome_bind].
  rewrite IH. reflexivity.
Qed.

(** X16. [checkBulkPayments] refuses a list of more than 50 hashes before
    anything else, token or not, and sends no request for it; a list of up
    to 50 needs the token. When the answer carries an array of rows, the
    result is the [md5] of the rows whose [status] is ['SUCCESS'], in their
    order; when it carries no [data], the result is empty. *)
Theorem checkBulkPayments_limit (this : Client) (network : Http.Network)
    (md5List : list jsstring) :
  let sent :=
    request this (str "/check_transaction_by_md5_list")
      (Value.array (map Value.string md5List)) in
  ((50 < length md5List)%nat ->
   checkBulkPayments this network md5List
   = Threw (str "The md5_list exceeds the allowed limit of 50 hashes per request."))
  /\ ((length md5List <= 50)%nat -> checkBakongToken this <> Returned tt ->
      checkBulkPayments this network md5List
      = Threw (str "Bakong Developer Token is required for KHQR class initialization."))
  /\ ((length md5List <= 50)%nat -> checkBakongToken this = Returned tt ->
      forall response,
        network sent = Http.Resolved response ->
        (forall rows,
           Value.prop (str "data") response = Returned (Value.array (map Value.object rows)) ->
           checkBulkPayments this network md5List
           = Returned
               (map (Value.field (str "md5"))
                  (List.filter
                     (fun row =>
                        Value.isString (str "SUCCESS") (Value.field (str "status") row))
                     rows)))
        /\ (Value.prop (str "data") response = Returned Value.undefined ->
            checkBulkPayments this network md5List = Returned [])).
Proof.
  intros sent. unfold checkBulkPayments. split; [|split].
  - intros Hlong. apply Nat.ltb_lt in Hlong. rewrite Hlong. reflexivity.
  - intros Hshort Hno. apply Nat.ltb_ge in Hshort. rewrite Hshort.
    rewrite postRequest_without_token by exact Hno. reflexivity.
  - intros Hshort Htoken response Hnet. apply Nat.ltb_ge in Hshort. rewrite Hshort.
    rewrite (postRequest_with_token _ _ _ _ Htoken). fold sent. rewrite Hnet.
    cbn [mbind outcome_bind]. split.
    + intros rows ->. cbn [mbind outcome_bind].
      rewrite successful_objects. cbn [mbind outcome_bind]. apply md5s_objects.
    + intros ->. reflexivity.
Qed.

End ApiFacts.

(** * The payment service *)

Section ServiceFacts.
Context `{Engine}.
Import PaymentService.

Lemma given_Some (v : option jsstring) :
  given v = true <-> exists c, v = Some c /\ c <> [].
Proof.
  destruct v as [[|c s]|]; cbn; split; try discriminate.
  - intros (c & [= <-] & Hne). contradiction.
  - intros _. eexists. split; [reflexivity|discriminate].
  - intros _. reflexivity.
  - intros (c & Hc & _). discriminate.
Qed.

Lemma Qle_bool_false (x : Q) : Qle_bool x 0 = false <-> (0 < x)%Q.
Proof.
  split.
  - intros Hle. apply Qnot_le_lt. intros Hx. apply Qle_bool_iff in Hx. congruence.
  - intros Hx. destruct (Qle_bool x 0) eqn:E; [|reflexivity].
    apply Qle_bool_iff in E. exfalso. exact (Qlt_not_le _ _ Hx E).
Qed.

Lemma validatePaymentData_cases (data : PaymentRequest.t) :
  validatePaymentData data = Returned tt <->
  (exists x, PaymentRequest.amount data = Value.number x /\ (0 < x)%Q)
  /\ given (PaymentRequest.currency data) = true
  /\ given (PaymentRequest.billNumber data) = true
  /\ given (PaymentRequest.storeLabel data) = true
  /\ given (PaymentRequest.terminalLabel data) = true
  /\ (toUpperCase (default [] (PaymentRequest.currency data)) = str "USD"
      \/ toUpperCase (default [] (PaymentRequest.currency data)) = str "KHR").
Proof.
  unfold validatePaymentData, required.
  destruct (given (PaymentRequest.currency data));
    [|split; [destruct (Value.truthy _); discriminate|intros (_ & [=] & _)]].
  destruct (given (PaymentRequest.billNumber data));
    [|split; [destruct (Value.truthy _); discriminate|intros (_ & _ & [=] & _)]].
  destruct (given (PaymentRequest.storeLabel data));
    [|split; [destruct (Value.truthy _); discriminate|intros (_ & _ & _ & [=] & _)]].
  destruct (given (PaymentRequest.terminalLabel data));
    [|split; [destruct (Value.truthy _); discriminate|intros (_ & _ & _ & _ & [=] & _)]].
  set (c := toUpperCase (default [] (PaymentRequest.currency data))).
  assert (Hc : bool_decide (c = str "USD") || bool_decide (c = str "KHR") = true
               <-> c = str "USD" \/ c = str "KHR").
  { rewrite orb_true_iff, !bool_decide_eq_true. reflexivity. }
  destruct (PaymentRequest.amount data) as [| |b|x| |s|items|properties];
    cbn [Value.truthy mbind outcome_bind];
    try (split; [discriminate|intros [(x0 & [=] & _) _]]).
  - destruct b; split; try discriminate; intros [(x0 & [=] & _) _].
  - destruct (Qeq_bool x 0) eqn:Hzero; cbn [negb mbind outcome_bind].
    + split; [discriminate|]. intros [(x0 & [= <-] & Hpos) _].
      apply Qeq_bool_iff in Hzero. rewrite Hzero in Hpos.
      destruct (Qlt_irrefl _ Hpos).
    + destruct (Qle_bool x 0) eqn:Hle; cbn [mbind outcome_bind].
      * split; [discriminate|]. intros [(x0 & [= <-] & Hpos) _].
        apply Qle_bool_false in Hpos. congruence.
      * destruct (bool_decide (c = str "USD") || bool_decide (c = str "KHR")) eqn:E.
        -- split; [|reflexivity]. intros _. split.
           ++ exists x. split; [reflexivity|apply Qle_bool_false, Hle].
           ++ repeat (split; [reflexivity|]). apply Hc. reflexivity.
        -- split; [discriminate|]. intros (_ & _ & _ & _ & _ & Hcur).
           apply Hc in Hcur. discriminate.
  - destruct s; split; try discriminate; intros [(x0 & [=] & _) _].
Qed.

(** X17. [validatePaymentData] accepts a payment exactly when its amount
    is a number above zero, its bill number, store label and terminal
    label are not empty, and its currency is USD or KHR in any letter
    case. An amount of zero (as [NaN]) is reported as a missing field, not
    as an amount that is not positive, and a numeric string is no number. *)
Theorem validatePaymentData_accepts (data : PaymentRequest.t) :
  (validatePaymentData data = Returned tt <->
   (exists x, PaymentRequest.amount data = Value.number x /\ (0 < x)%Q)
   /\ (exists currency,
         PaymentRequest.currency data = Some currency
         /\ (toUpperCase currency = str "USD" \/ toUpperCase currency = str "KHR"))
   /\ given (PaymentRequest.currency data) = true
   /\ given (PaymentRequest.billNumber data) = true
   /\ given (PaymentRequest.storeLabel data) = true
   /\ given (PaymentRequest.terminalLabel data) = true)
  /\ (forall x, PaymentRequest.amount data = Value.number x -> (x == 0)%Q ->
        validatePaymentData data = Threw (str "Missing required field: amount"))
  /\ (PaymentRequest.amount data = Value.nan ->
      validatePaymentData data = Threw (str "Missing required field: amount"))
  /\ (forall s, PaymentRequest.amount data = Value.string s ->
        validatePaymentData data <> Returned tt).
Proof.
  split; [|split; [|split]].
  - rewrite validatePaymentData_cases. split.
    + intros (Hamount & Hcur & Hbill & Hstore & Hterm & Hcode).
      split; [exact Hamount|]. split; [|repeat split; assumption].
      destruct (proj1 (given_Some _) Hcur) as (c & Hc & _).
      exists c. split; [exact Hc|]. rewrite Hc in Hcode. exact Hcode.
    + intros (Hamount & (c & Hc & Hcode) & Hcur & Hbill & Hstore & Hterm).
      repeat (split; [assumption|]). rewrite Hc. exact Hcode.
  - intros x Hx Hzero. unfold validatePaymentData, required. rewrite Hx.
    cbn [Value.truthy]. apply Qeq_bool_iff in Hzero. rewrite Hzero. reflexivity.
  - intros Hnan. unfold validatePaymentData, required. rewrite Hnan. reflexivity.
  - intros s Hs Hok. apply validatePaymentData_cases in Hok.
    destruct Hok as [(x & Hx & _) _]. congruence.
Qed.

(** X18. A payment that [validatePaymentData] has accepted is encoded
    with the code of its own currency: ["840"] for USD, ["116"] for KHR.
    The fallback of [transactionCurrency], which encodes any other
    currency as KHR, is not reached. *)
Theorem validated_currency_is_encoded (env : Env.t) (data : PaymentRequest.t) :
  validatePaymentData data = Returned tt ->
  let currency := Options.currency (qrOptions env data) in
  (toUpperCase currency = str "USD"
   /\ BakongKHQR.transactionCurrency currency = str "5303840")
  \/ (toUpperCase currency = str "KHR"
      /\ BakongKHQR.transactionCurrency currency = str "5303116").
Proof.
  intros Hok currency. apply validatePaymentData_cases in Hok.
  destruct Hok as (_ & _ & _ & _ & _ & Hcode).
  change currency with (default [] (PaymentRequest.currency data)).
  unfold BakongKHQR.transactionCurrency.
  destruct Hcode as [Hcode|Hcode]; [left|right]; (split; [exact Hcode|]).
  - rewrite decide_True by exact Hcode. reflexivity.
  - rewrite decide_False by (rewrite Hcode; discriminate). reflexivity.
Qed.

(** ** Creating a payment *)

Section Creation.
Variable generateMD5 : jsstring -> jsstring.
Variable imageFile : jsstring -> jsstring.

(** X19. [createPayment] fails exactly when the validation or the encoding
    of the payload fails, with that error, and then records nothing.
    Otherwise it returns a new transaction with the status ['PENDING'],
    whatever becomes of the image and of the deep link; the transaction is
    found under its identifier and is the last of the history, and the
    monitor, when one is connected, has registered the MD5 of the payload
    with a fresh entry for the session of the payment, ['anonymous'] when
    it names none. *)
Theorem createPayment_outcome (calls : Calls) (env : Env.t)
    (paymentData : PaymentRequest.t) (s : t) :
  let create := createPayment generateMD5 imageFile calls env paymentData s in
  match validatePaymentData paymentData ;;
        BakongKHQR.createQR (stamped calls) (qrOptions env paymentData) with
  | Threw error => create = (Threw error, s)
  | Returned qrCode =>
      let object := length (transactions s) in
      let md5Hash := generateMD5 qrCode in
      let session :=
        orElse (PaymentRequest.sessionId paymentData) (str "anonymous") in
      exists x s',
        create = (Returned object, s')
        /\ transactions s' !! object = Some x
        /\ getTransaction (uuid calls) s' = Some x
        /\ transactionHistory s' = transactionHistory s ++ [object]
        /\ Transaction.status x = str "PENDING"
        /\ Transaction.qrCode x = qrCode
        /\ Transaction.md5Hash x = md5Hash
        /\ Transaction.transactionId x = uuid calls
        /\ match autoMonitor s with
           | None => autoMonitor s' = None
           | Some monitor =>
               exists monitor' entry,
                 autoMonitor s' = Some monitor'
                 /\ AutoPaymentMonitor.get md5Hash monitor' = Some entry
                 /\ AutoPaymentMonitor.inSession md5Hash session monitor'
                 /\ MonitorInfo.sessionId entry = session
                 /\ MonitorInfo.md5Hash entry = md5Hash
                 /\ MonitorInfo.checkCount entry = 0%nat
                 /\ MonitorInfo.status entry = str "MONITORING"
                 /\ MonitorInfo.startTime entry = registered calls
           end
  end.
Proof.
  intros create. subst create. unfold createPayment.
  destruct (validatePaymentData paymentData ;;
            BakongKHQR.createQR (stamped calls) (qrOptions env paymentData))
    as [qrCode|error]; [|reflexivity].
  cbv zeta.
  set (x := {| Transaction.transactionId := uuid calls;
               Transaction.qrCode := qrCode |}).
  set (stored := {| khqr := khqr s |}).
  assert (Hobject : transactions stored !! length (transactions s) = Some x).
  { cbn [transactions stored]. apply (list_lookup_middle (transactions s) []).
    reflexivity. }
  assert (Hfound : getTransaction (uuid calls) stored = Some x).
  { unfold getTransaction. cbn [activeTransactions stored].
    rewrite Map_get_set_eq. cbn. exact Hobject. }
  destruct (autoMonitor s) as [monitor|] eqn:Hmonitor.
  2:{ exists x, stored. repeat (split; [reflexivity || assumption|]). reflexivity. }
  set (monitorData := {| PaymentData.md5Hash := generateMD5 qrCode |}).
  set (session := orElse (PaymentRequest.sessionId paymentData) (str "anonymous")).
  destruct (addPayment_run (registered calls) monitorData session monitor)
    as (monitor' & Hrun & Hreg & Hobjs & Hsess & _).
  rewrite Hrun.
  exists x, (with_autoMonitor (Some monitor') stored).
  repeat (split; [reflexivity || assumption|]).
  exists monitor', (AutoPaymentMonitor.freshEntry (registered calls) monitorData session).
  split; [reflexivity|]. split; [|split; [|repeat split; reflexivity]].
  - unfold AutoPaymentMonitor.get. rewrite Hreg, Map_get_set_eq, Hobjs. cbn.
    apply (list_lookup_middle (AutoPaymentMonitor.objects monitor) []). reflexivity.
  - pose proof (addPayment_inSession (registered calls) monitorData session
                  (generateMD5 qrCode) session monitor) as Hin.
    unfold AutoPaymentMonitor.exec in Hin. rewrite Hrun in Hin. apply Hin.
    right. split; reflexivity.
Qed.

End Creation.

(** ** Checking a payment *)

Lemma checkPayment_returns (this : BakongKHQR.Client) (network : Http.Network)
    (md5 : jsstring) :
  BakongKHQR.checkPayment this network md5 = Returned (str "PAID")
  \/ BakongKHQR.checkPayment this network md5 = Returned (str "UNPAID").
Proof.
  unfold BakongKHQR.checkPayment, attempt.
  destruct (BakongKHQR.postRequest _ _ _ _) as [response|e]; [|right; reflexivity].
  cbn [mbind outcome_bind].
  destruct (Value.prop (str "responseCode") response) as [code|e];
    [|right; reflexivity].
  cbn [mbind outcome_bind]. destruct (Value.isNumber 0 code).
  - destruct (Value.prop (str "data") response) as [data|e]; [|right; reflexivity].
    cbn [mbind outcome_bind].
    repeat match goal with
           | |- context [BakongKHQR.logged ?name data] =>
               destruct (BakongKHQR.logged name data) as [[]|?];
               [cbn [mbind outcome_bind]|right; reflexivity]
           | |- context [BakongKHQR.loggedDate ?name data] =>
               destruct (BakongKHQR.loggedDate name data) as [[]|?];
               [cbn [mbind outcome_bind]|right; reflexivity]
           end.
    left. reflexivity.
  - destruct (BakongKHQR.logged (str "responseMessage") response) as [[]|?];
      right; reflexivity.
Qed.

Lemma alter_as_insert {A : Type} (f : A -> A) (i : nat) (l : list A) (x : A) :
  l !! i = Some x -> alter f i l = <[i := f x]> l.
Proof.
  revert i. induction l as [|y l IH]; intros [|i] Hx; try discriminate.
  - injection Hx as ->. reflexivity.
  - cbn. f_equal. apply IH. exact Hx.
Qed.

(** X20. [checkPaymentStatus] does not fail, whatever the network does,
    and its status is ['PAID'] or ['UNPAID'], the answer of [checkPayment]
    for the MD5 hash (it could fail only on a map entry that holds no
    object, which [createPayment] never makes). An identifier that is no transaction is taken for an
    MD5 hash, and nothing is recorded; for the identifier of a transaction
    the status and the time of the check are written to the object that
    the map of the transactions and the history share. *)
Theorem checkPaymentStatus_outcome (now checkedAt : Z) (first second : Http.Network)
    (identifier : jsstring) (s : t) :
  let check := checkPaymentStatus now checkedAt first second identifier s in
  let recorded result x :=
    Transaction.checked (StatusResult.status result) now
      (StatusResult.paymentDetails result) x in
  match AutoPaymentMonitor.Map_get identifier (activeTransactions s) with
  | None =>
      exists result,
        check = (Returned result, s)
        /\ StatusResult.md5Hash result = identifier
        /\ StatusResult.transaction result = None
        /\ (StatusResult.status result = str "PAID"
            \/ StatusResult.status result = str "UNPAID")
        /\ BakongKHQR.checkPayment (khqr s) first identifier
           = Returned (StatusResult.status result)
  | Some object =>
      match transactions s !! object with
      | None => exists error, check = (Threw error, s)
      | Some x =>
          exists result s',
            check = (Returned result, s')
            /\ StatusResult.md5Hash result = Transaction.md5Hash x
            /\ (StatusResult.status result = str "PAID"
                \/ StatusResult.status result = str "UNPAID")
            /\ BakongKHQR.checkPayment (khqr s) first (Transaction.md5Hash x)
               = Returned (StatusResult.status result)
            /\ transactions s' = <[object := recorded result x]> (transactions s)
            /\ getTransaction identifier s' = Some (recorded result x)
            /\ Transaction.status (recorded result x) = StatusResult.status result
            /\ Transaction.lastChecked (recorded result x) = Some now
            /\ activeTransactions s' = activeTransactions s
            /\ transactionHistory s' = transactionHistory s
      end
  end.
Proof.
  intros check recorded. subst check. unfold checkPaymentStatus.
  destruct (AutoPaymentMonitor.Map_get identifier (activeTransactions s))
    as [object|] eqn:Hget.
  - destruct (transactions s !! object) as [x|] eqn:Hobj; [|eexists; reflexivity].
    destruct (checkPayment_returns (khqr s) first (Transaction.md5Hash x))
      as [Hpaid|Hunpaid].
    + rewrite Hpaid. eexists _, _. split; [reflexivity|].
      cbn [StatusResult.md5Hash StatusResult.status StatusResult.paymentDetails
             transactions activeTransactions transactionHistory].
      split; [reflexivity|]. split; [left; reflexivity|]. split; [reflexivity|].
      pose proof (fun f => alter_as_insert f object (transactions s) x Hobj)
        as Halter.
      split; [apply Halter|]. split; [|repeat split; reflexivity].
      unfold getTransaction. cbn [activeTransactions transactions].
      rewrite Hget. cbn. rewrite Halter.
      apply list_lookup_insert_eq. eapply lookup_lt_Some, Hobj.
    + rewrite Hunpaid. eexists _, _. split; [reflexivity|].
      cbn [StatusResult.md5Hash StatusResult.status StatusResult.paymentDetails
             transactions activeTransactions transactionHistory].
      split; [reflexivity|]. split; [right; reflexivity|]. split; [reflexivity|].
      pose proof (fun f => alter_as_insert f object (transactions s) x Hobj)
        as Halter.
      split; [apply Halter|]. split; [|repeat split; reflexivity].
      unfold getTransaction. cbn [activeTransactions transactions].
      rewrite Hget. cbn. rewrite Halter.
      apply list_lookup_insert_eq. eapply lookup_lt_Some, Hobj.
  - destruct (checkPayment_returns (khqr s) first identifier) as [Hpaid|Hunpaid].
    + rewrite Hpaid. eexists. split; [reflexivity|].
      cbn. repeat split; try reflexivity. left. reflexivity.
    + rewrite Hunpaid. eexists. split; [reflexivity|].
      cbn. repeat split; try reflexivity. right. reflexivity.
Qed.

(** ** The history *)

Lemma slice_cases {A : Type} (limit : Z) (array : list A) :
  rev (slice (- limit) array) =
    if 0 <? limit then firstn (Z.to_nat limit) (rev array)
    else if limit =? 0 then rev array
    else rev (skipn (Z.to_nat (- limit)) array).
Proof.
  unfold slice.
  destruct (0 <? limit) eqn:Hpos.
  - apply Z.ltb_lt in Hpos.
    destruct (- limit <? 0) eqn:Hneg; [|apply Z.ltb_ge in Hneg; lia].
    rewrite List.firstn_rev. f_equal. f_equal. lia.
  - apply Z.ltb_ge in Hpos. destruct (limit =? 0) eqn:Hzero.
    + apply Z.eqb_eq in Hzero. subst limit.
      change (- 0 <? 0) with false. cbv iota. change (- 0) with 0.
      rewrite Z.min_l by lia. reflexivity.
    + apply Z.eqb_neq in Hzero.
      destruct (- limit <? 0) eqn:Hneg; [apply Z.ltb_lt in Hneg; lia|].
      f_equal.
      destruct (Z_le_gt_dec (- limit) (Z.of_nat (length array))) as [Hle|Hgt].
      * f_equal. lia.
      * rewrite Z.min_r by lia. rewrite Nat2Z.id.
        rewrite !skipn_all2 by lia. reflexivity.
Qed.

(** X21. [getTransactionHistory(limit)] lists the [limit] most recent
    transactions, the latest first, when [limit] is positive; with a limit
    of zero it lists the whole history, not nothing; with a negative limit
    it leaves out that many of the oldest. *)
Theorem getTransactionHistory_limit (limit : Z) (s : t) :
  let latestFirst := rev (transactionHistory s) in
  let objects refs := omap (fun object => transactions s !! object) refs in
  getTransactionHistory limit s =
    objects
      (if 0 <? limit then firstn (Z.to_nat limit) latestFirst
       else if limit =? 0 then latestFirst
       else rev (skipn (Z.to_nat (- limit)) (transactionHistory s)))
  /\ getTransactionHistory 0 s = objects latestFirst
  /\ (length (getTransactionHistory limit s) <= length (transactionHistory s))%nat
  /\ (0 < limit -> (Z.of_nat (length (getTransactionHistory limit s)) <= limit)).
Proof.
  intros latestFirst objects.
  assert (Hrun : getTransactionHistory limit s =
            objects
              (if 0 <? limit then firstn (Z.to_nat limit) latestFirst
               else if limit =? 0 then latestFirst
               else rev (skipn (Z.to_nat (- limit)) (transactionHistory s)))).
  { unfold getTransactionHistory. rewrite slice_cases. reflexivity. }
  assert (Hlen : forall refs, (length (objects refs) <= length refs)%nat).
  { intros refs. subst objects. induction refs as [|r refs IH]; [reflexivity|].
    cbn [omap list_omap length]. destruct (transactions s !! r); cbn [length]; lia. }
  split; [exact Hrun|].
  split; [unfold getTransactionHistory; rewrite (slice_cases 0); reflexivity|].
  split.
  - rewrite Hrun. etransitivity; [apply Hlen|].
    subst latestFirst.
    destruct (0 <? limit); [rewrite length_firstn, length_rev; lia|].
    destruct (limit =? 0); [rewrite length_rev; lia|].
    rewrite length_rev, length_skipn. lia.
  - intros Hpos. rewrite Hrun.
    destruct (0 <? limit) eqn:E; [|apply Z.ltb_ge in E; lia].
    pose proof (Hlen (firstn (Z.to_nat limit) latestFirst)) as Hle.
    rewrite length_firstn in Hle. lia.
Qed.

Lemma filter_partition {A : Type} (f : A -> bool) (l : list A) :
  (length (List.filter f l) + length (List.filter (fun x => negb (f x)) l)
   = length l)%nat.
Proof.
  induction l as [|x l IH]; [reflexivity|].
  cbn [List.filter length]. destruct (f x); cbn [negb length]; lia.
Qed.

(** X22. [cleanupOldTransactions] takes the transactions made before the
    cutoff out of the map of the active transactions and returns their
    number; it never shortens the history, which still lists them. *)
Theorem cleanupOldTransactions_keeps_history (now maxAge : Z) (s : t) :
  let cleaned := fst (cleanupOldTransactions now maxAge s) in
  let s' := snd (cleanupOldTransactions now maxAge s) in
  (cleaned + length (activeTransactions s') = length (activeTransactions s))%nat
  /\ (forall x, In x (getAllTransactions s') ->
        now - maxAge <= Transaction.createdAt x /\ In x (getAllTransactions s))
  /\ transactionHistory s' = transactionHistory s
  /\ (forall limit, getTransactionHistory limit s' = getTransactionHistory limit s).
Proof.
  intros cleaned s'. subst cleaned s'. unfold cleanupOldTransactions.
  cbn [fst snd activeTransactions transactionHistory].
  set (old := fun entry : jsstring * ref =>
                match transactions s !! snd entry with
                | Some x => Transaction.createdAt x <? now - maxAge
                | None => false
                end).
  split; [|split; [|split; reflexivity]].
  - apply (filter_partition old).
  - intros x Hin. unfold getAllTransactions in *.
    cbn [activeTransactions transactions] in Hin.
    apply list_elem_of_In, list_elem_of_omap in Hin.
    destruct Hin as (e & He & Hx).
    apply list_elem_of_In, filter_In in He. destruct He as [He Hold].
    split.
    + unfold old in Hold. rewrite Hx in Hold. apply negb_true_iff in Hold.
      apply Z.ltb_ge in Hold. exact Hold.
    + apply list_elem_of_In, list_elem_of_omap. exists e.
      split; [apply list_elem_of_In, He|exact Hx].
Qed.

End ServiceFacts.

(** ** The service on the sample request *)

Lemma validated_currency_is_encoded_witness :
  @PaymentService.validatePaymentData asciiEngine SampleService.request = Returned tt
  /\ @BakongKHQR.transactionCurrency asciiEngine (str "usd") = str "5303840".
Proof.
  assert (Hok : @PaymentService.validatePaymentData asciiEngine SampleService.request
                = Returned tt) by (vm_compute; reflexivity).
  split; [exact Hok|].
  destruct (@validated_currency_is_encoded asciiEngine SampleService.env
              SampleService.request Hok) as [[_ Hcode]|[Hkhr _]].
  - exact Hcode.
  - vm_compute in Hkhr. discriminate.
Defined.
